(** * scDrug, [script/single_cell_analysis.py]: a shallow embedding

    The script is a linear pipeline over one annotated matrix.  The model
    follows it stage by stage:

    - Python helpers the script relies on (slices, [str.lower], [sorted],
      [unique], [int], [str]);
    - the command line (argparse options, the checks of lines 68-108);
    - preprocessing (lines 115-164) as the ordered trace of library calls,
      and the quality filter (lines 129-135) on a count matrix;
    - the automatic resolution search (lines 177-226) with numpy's
      binary64 arithmetic on the resolution grid;
    - annotation (lines 237-246), the differential-expression export
      (lines 290-292) and [runGSEAPY] (lines 6-46).

    Library calls whose numerical content lies outside the script (Louvain,
    the silhouette score, the random generator, Enrichr) are fields of a
    record of functions; every statement quantifies over it.  The
    definitions come first, the properties after them. *)

From Stdlib Require Import ZArith List String Ascii Bool Lia Floats.
From Stdlib Require Import Permutation DecimalString DecimalNat FinFun Sorted.
Import ListNotations.

Set Warnings "-inexact-float".

Local Open Scope string_scope.
Local Open Scope list_scope.

(** ** Outcomes of a run

    [sys.exit(msg)] and an uncaught exception both end the run; the
    script never catches either. *)

Inductive result (A : Type) : Type :=
| Ok (a : A)
| SysExit (msg : string)
| Raise (exn : string).

Arguments Ok {A} a.
Arguments SysExit {A} msg.
Arguments Raise {A} exn.

Definition bind {A B : Type} (r : result A) (k : A -> result B) : result B :=
  match r with
  | Ok a => k a
  | SysExit m => SysExit m
  | Raise e => Raise e
  end.

Declare Scope result_scope.
Delimit Scope result_scope with result.
Notation "x <- r ;; k" := (bind r (fun x => k))
  (at level 61, r at next level, right associativity) : result_scope.
Notation "r ;;; k" := (bind r (fun _ => k))
  (at level 61, right associativity) : result_scope.
Local Open Scope result_scope.

(** [if cond: sys.exit(msg)] *)
Definition exit_if (cond : bool) (msg : string) : result unit :=
  if cond then SysExit msg else Ok tt.

(** ** Python helpers *)

Module Py.

(** [s[-n:]] for [n > 0]: the last [n] characters, the whole string when
    it is shorter. *)
Definition last_chars (n : nat) (s : string) : string :=
  substring (String.length s - n) n s.

Definition is_upper (c : ascii) : bool :=
  (65 <=? nat_of_ascii c)%nat && (nat_of_ascii c <=? 90)%nat.

Definition lower_char (c : ascii) : ascii :=
  if is_upper c then ascii_of_nat (nat_of_ascii c + 32) else c.

(** [str.lower] on the bytes of the string: only A-Z change. *)
Fixpoint lower (s : string) : string :=
  match s with
  | EmptyString => EmptyString
  | String c s' => String (lower_char c) (lower s')
  end.

(** [os.path.join(dir, name)] for a relative [name]. *)
Definition path_join (dir name : string) : string :=
  if (dir =? "") || (last_chars 1 dir =? "/") then dir ++ name
  else dir ++ "/" ++ name.

Definition is_space (c : ascii) : bool :=
  let n := nat_of_ascii c in
  (n =? 32)%nat || ((9 <=? n)%nat && (n <=? 13)%nat).

Fixpoint lstrip (s : string) : string :=
  match s with
  | String c s' => if is_space c then lstrip s' else s
  | EmptyString => EmptyString
  end.

Fixpoint rev_string (s acc : string) : string :=
  match s with
  | EmptyString => acc
  | String c s' => rev_string s' (String c acc)
  end.

(** [str.strip()] *)
Definition strip (s : string) : string :=
  rev_string (lstrip (rev_string (lstrip s) "")) "".

(** [s.split(',')]: the pieces between commas, empty ones included. *)
Fixpoint split_comma_aux (s cur : string) : list string :=
  match s with
  | EmptyString => [rev_string cur ""]
  | String c s' =>
      if Ascii.eqb c "," then rev_string cur "" :: split_comma_aux s' ""
      else split_comma_aux s' (String c cur)
  end.

Definition split_comma (s : string) : list string := split_comma_aux s "".

(** [x in xs] on strings *)
Definition mem (x : string) (xs : list string) : bool :=
  existsb (String.eqb x) xs.

(** [pandas.unique]: the distinct values in order of first appearance. *)
Fixpoint unique (xs : list string) : list string :=
  match xs with
  | [] => []
  | x :: xs' => x :: filter (fun y => negb (String.eqb x y)) (unique xs')
  end.

(** [sorted]: a stable sort, here by insertion under a boolean order. *)
Section Sorted.
Context {A : Type} (le : A -> A -> bool).

Fixpoint insert (x : A) (xs : list A) : list A :=
  match xs with
  | [] => [x]
  | y :: ys => if le x y then x :: xs else y :: insert x ys
  end.

Definition sorted (xs : list A) : list A := fold_right insert [] xs.
End Sorted.

(** [str(n)] for a non-negative integer *)
Definition str_nat (n : nat) : string := NilZero.string_of_uint (Nat.to_uint n).

Definition is_digit (c : ascii) : bool :=
  (48 <=? nat_of_ascii c)%nat && (nat_of_ascii c <=? 57)%nat.

Fixpoint digits_value (s : string) (acc : Z) : option Z :=
  match s with
  | EmptyString => Some acc
  | String c s' =>
      if is_digit c
      then digits_value s' (10 * acc + Z.of_nat (nat_of_ascii c - 48))
      else None
  end.

(** [int(s)] for the literals that occur as cluster labels: an optional
    sign and decimal digits; anything else is a [ValueError] ([None]). *)
Definition int (s : string) : option Z :=
  match s with
  | EmptyString => None
  | String "-" (String c s') => option_map Z.opp (digits_value (String c s') 0)
  | String "+" (String c s') => digits_value (String c s') 0
  | _ => digits_value s 0
  end.

End Py.

(** ** The command line (lines 51-66) *)

Record Args := {
  input : string;
  format : string;
  output : string;
  resolution : float;
  auto_resolution : bool;
  metadata : option string;
  batch : option string;
  clusters : option string;
  GEP : bool;
  annotation : bool;
  gsea : bool;
  cpus : Z
}.

(** [type=lambda x: (str(x).lower() == 'true')] of the [--GEP] option *)
Definition GEP_type (x : string) : bool := Py.lower x =? "true".

(** argparse applies [type] to a supplied value only; the default [True]
    is a bool and is used as it is. *)
Definition parse_GEP (supplied : option string) : bool :=
  match supplied with
  | Some x => GEP_type x
  | None => true
  end.

(** Equality of two characters up to the case of an ASCII letter. *)
Definition same_letter (c d : ascii) : Prop :=
  c = d \/
  (Py.is_upper c = true /\ nat_of_ascii d = (nat_of_ascii c + 32)%nat) \/
  (Py.is_upper d = true /\ nat_of_ascii c = (nat_of_ascii d + 32)%nat).

(** Case-insensitive equality of strings, character by character. *)
Inductive eq_nocase : string -> string -> Prop :=
| eq_nocase_nil : eq_nocase "" ""
| eq_nocase_cons c d s t :
    same_letter c d -> eq_nocase s t -> eq_nocase (String c s) (String d t).

(** What the script reads from its surroundings before any computation. *)
Record World := {
  path_exists : string -> bool;      (* os.path.exists *)
  path_isdir : string -> bool;       (* os.path.isdir *)
  metadata_columns : list string;    (* pd.read_csv(args.metadata, index_col=0).columns *)
  h5ad_obs_columns : list string     (* sc.read(args.input).obs.columns *)
}.

(** Lines 68-88: format, input and clusters. *)
Definition check_format (w : World) (a : Args) : result unit :=
  let here name := path_exists w (Py.path_join (input a) name) in
  exit_if (negb (path_exists w (input a))) "The input path does not exist." ;;;
  if format a =? "csv" then
    exit_if (negb (Py.last_chars 4 (input a) =? ".csv"))
            "The input file is not a CSV file."
  else if format a =? "10x" then
    exit_if (negb (here "matrix.mtx") && negb (here "matrix.mtx.gz"))
            "Cannot find 'matrix.mtx' file in the input directory." ;;;
    exit_if (negb (here "genes.tsv") && negb (here "genes.tsv.gz")
             && (negb (here "features.tsv") && negb (here "features.tsv.gz")))
            "Cannot find 'genes.tsv' or 'features.tsv' file in the input directory." ;;;
    exit_if (negb (here "barcodes.tsv") && negb (here "barcodes.tsv.gz"))
            "Cannot find 'barcodes.tsv' file in the input directory."
  else if format a =? "h5ad" then
    exit_if (negb (Py.last_chars 5 (input a) =? ".h5ad"))
            "The input file is not a h5ad file." ;;;
    exit_if (match clusters a with None => true | Some _ => false end)
            "Need to speficy clusters to be analyzed with a h5ad file."
  else SysExit "The format can only be '10x' or 'csv'.".

(** Lines 90-99: output directory and metadata file. *)
Definition check_output_metadata (w : World) (a : Args) : result unit :=
  exit_if (negb (path_isdir w (output a))) "The output directory does not exist." ;;;
  match metadata a with
  | Some m =>
      exit_if (negb (path_exists w m)) "The metadata file does not exist." ;;;
      exit_if (negb (Py.last_chars 4 m =? ".csv")) "The metadata file is not a CSV file."
  | None => Ok tt
  end.

(** Lines 101-108: the batch column against the metadata file. *)
Definition check_batch (w : World) (a : Args) : result unit :=
  match batch a with
  | Some b =>
      exit_if (match metadata a with None => true | Some _ => false end
               && negb (format a =? "h5ad"))
              "Please provide the metadata file for batch correction with --metadata METADATA." ;;;
      match metadata a with
      | Some _ =>
          exit_if (negb (Py.mem b (metadata_columns w)))
                  "The batch column is not in the metadata file."
      | None => Ok tt
      end
  | None => Ok tt
  end.

Definition check_args (w : World) (a : Args) : result unit :=
  check_format w a ;;; check_output_metadata w a ;;; check_batch w a.

(** ** Preprocessing (lines 115-164) as a trace of library calls

    The numerical work is done by scanpy; the script decides which calls
    happen, in which order and with which arguments.  A run of the
    preprocessing part is recorded as that ordered list. *)

Inductive call : Type :=
| ScRead                                  (* sc.read(args.input) *)
| SubsetClusters (cs : list string)       (* adata[adata.obs['louvain'].isin(clusters)] *)
| RawToAdata                              (* adata_GEP = adata.raw.to_adata() *)
| ReadCsv
| Read10x
| VarNamesMakeUnique
| FilterCells (min_genes : Z)
| FilterGenes (min_cells : Z)
| CalculateQcMetrics
| SubsetPctMtBelow (pct : Z)
| CopyForGEP                              (* adata_GEP = adata.copy() *)
| NormalizeTotal
| Log1p
| HighlyVariableGenes
| SetRaw
| SubsetHighlyVariable
| RegressOut
| Scale
| Pca
| JoinBatchFromMetadata (b : string)      (* adata.obs[b] = metadata_df.loc[adata.obs.index][b] *)
| HarmonyIntegrate (key basis : string).  (* harmony_integrate(adata, key, adjusted_basis=basis) *)

Record Preprocessed := {
  calls : list call;
  obs_columns : list string
}.

(** The per-cell columns scanpy has added by line 135. *)
Definition qc_obs_columns : list string :=
  ["n_genes"; "n_genes_by_counts"; "total_counts"; "total_counts_mt"; "pct_counts_mt"].

(** Lines 157-164.  The block sits inside the [else] of
    [if args.format == 'h5ad'], after the principal component analysis. *)
Definition batch_correction (a : Args) (p : Preprocessed) : result Preprocessed :=
  match batch a with
  | Some b =>
      p' <- match metadata a with
            | Some _ =>
                Ok {| calls := calls p ++ [JoinBatchFromMetadata b];
                      obs_columns := obs_columns p ++ [b] |}
            | None =>
                if (format a =? "h5ad") && negb (Py.mem b (obs_columns p))
                then SysExit "The batch column is not in the Anndata object."
                else Ok p
            end ;;
      Ok {| calls := calls p' ++ [HarmonyIntegrate b "X_pca"];
            obs_columns := obs_columns p' |}
  | None => Ok p
  end.

Definition preprocessing (w : World) (a : Args) : result Preprocessed :=
  if format a =? "h5ad" then
    match clusters a with
    | Some cs =>
        Ok {| calls := [ScRead; SubsetClusters (map Py.strip (Py.split_comma cs))]
                       ++ (if GEP a then [RawToAdata] else []);
              obs_columns := h5ad_obs_columns w |}
    | None => Raise "AttributeError"
    end
  else
    rd <- (if format a =? "csv" then Ok ReadCsv
           else if format a =? "10x" then Ok Read10x
           else Raise "NameError") ;;
    batch_correction a
      {| calls := [rd; VarNamesMakeUnique; FilterCells 200; FilterGenes 3;
                   CalculateQcMetrics; SubsetPctMtBelow 30]
                  ++ (if GEP a then [CopyForGEP] else [])
                  ++ [NormalizeTotal; Log1p; HighlyVariableGenes; SetRaw;
                      SubsetHighlyVariable; RegressOut; Scale; Pca];
         obs_columns := qc_obs_columns |}.

(** Lines 66-164 together. *)
Definition run_preprocessing (w : World) (a : Args) : result Preprocessed :=
  check_args w a ;;; preprocessing w a.

Definition is_harmony (c : call) : bool :=
  match c with HarmonyIntegrate _ _ => true | _ => false end.

(** Was batch correction applied to the embedding? *)
Definition batch_corrected (p : Preprocessed) : bool := existsb is_harmony (calls p).

(** ** Quality filtering (lines 129-135) on a count matrix

    The ingested matrix is kept as read; an annotated matrix is a view on
    it, the rows and the columns it still holds.  Counts are natural
    numbers.  scanpy's [filter_cells], [filter_genes] and
    [calculate_qc_metrics] are written out for the arguments of the
    script. *)

Module Qc.

Record AnnData := {
  X : list (list N);          (* cells x genes, as ingested *)
  var_names : list string;    (* gene symbols after var_names_make_unique *)
  obs_idx : list nat;         (* rows held *)
  var_idx : list nat          (* columns held *)
}.

Definition entry (a : AnnData) (i g : nat) : N := nth g (nth i (X a) []) 0%N.

Definition detected (a : AnnData) (i g : nat) : bool := (0 <? entry a i g)%N.

(** [np.sum(X > 0, axis=1)] for row [i] *)
Definition n_genes (a : AnnData) (i : nat) : Z :=
  Z.of_nat (List.length (filter (detected a i) (var_idx a))).

(** [np.sum(X > 0, axis=0)] for column [g] *)
Definition n_cells (a : AnnData) (g : nat) : Z :=
  Z.of_nat (List.length (filter (fun i => detected a i g) (obs_idx a))).

Definition filter_cells (min_genes : Z) (a : AnnData) : AnnData :=
  {| X := X a; var_names := var_names a;
     obs_idx := filter (fun i => (min_genes <=? n_genes a i)%Z) (obs_idx a);
     var_idx := var_idx a |}.

Definition filter_genes (min_cells : Z) (a : AnnData) : AnnData :=
  {| X := X a; var_names := var_names a;
     obs_idx := obs_idx a;
     var_idx := filter (fun g => (min_cells <=? n_cells a g)%Z) (var_idx a) |}.

(** [adata.var['mt'] = adata.var_names.str.startswith('MT-')] *)
Definition mt (a : AnnData) (g : nat) : bool := prefix "MT-" (nth g (var_names a) "").

Definition sum_N (l : list N) : N := fold_right N.add 0%N l.

Definition total_counts (a : AnnData) (i : nat) : N :=
  sum_N (map (entry a i) (var_idx a)).

Definition total_counts_mt (a : AnnData) (i : nat) : N :=
  sum_N (map (entry a i) (filter (mt a) (var_idx a))).

(** [pct_counts_mt < 30], with [pct_counts_mt = total_counts_mt /
    total_counts * 100].  The comparison is taken on the exact quotient;
    a cell without counts has the fraction 0/0, which is below nothing. *)
Definition pct_counts_mt_below (bound : N) (a : AnnData) (i : nat) : bool :=
  (0 <? total_counts a i)%N && (100 * total_counts_mt a i <? bound * total_counts a i)%N.

Definition subset_pct_mt (a : AnnData) : AnnData :=
  {| X := X a; var_names := var_names a;
     obs_idx := filter (pct_counts_mt_below 30 a) (obs_idx a);
     var_idx := var_idx a |}.

(** Lines 129-135. *)
Definition quality_filter (a : AnnData) : AnnData :=
  subset_pct_mt (filter_genes 3 (filter_cells 200 a)).

(** The matrix as ingested holds every row and every column. *)
Definition ingest (rows : list (list N)) (names : list string) : AnnData :=
  {| X := rows; var_names := names;
     obs_idx := seq 0 (List.length rows);
     var_idx := seq 0 (List.length names) |}.

(** Three cells over 200 ordinary genes and one mitochondrial gene; the
    first cell carries most of its reads on the mitochondrial gene. *)
Definition three_cells : AnnData :=
  ingest [ repeat 1%N 200 ++ [1000%N];
           repeat 1%N 201;
           repeat 1%N 201 ]
         (map (fun k => ("G" ++ Py.str_nat k)%string) (seq 0 200) ++ ["MT-CO1"]).

End Qc.

(** ** numpy on binary64 values

    The resolution grid, its rounding and the printing of a resolution
    into a column name are computed by numpy on IEEE doubles; they are
    modelled on Rocq's primitive binary64 floats. *)

Module Np.

Local Open Scope float_scope.

Definition of_nat (n : nat) : float := PrimFloat.of_uint63 (Uint63.of_Z (Z.of_nat n)).

(** An integer count as a double (exact below 2^53). *)
Definition of_Z (z : Z) : float := PrimFloat.of_uint63 (Uint63.of_Z z).

(** [np.linspace(start, stop, num)] with the default [endpoint=True]:
    [arange(0, num) * step + start], the last value then set to [stop]. *)
Definition linspace (start stop : float) (num : nat) : list float :=
  let div := (num - 1)%nat in
  let delta := stop - start in
  let y := map of_nat (seq 0 num) in
  let y :=
    if (0 <? div)%nat then
      let step := delta / of_nat div in
      if step =? 0 then map (fun v => v / of_nat div * delta) y
      else map (fun v => v * step) y
    else map (fun v => v * delta) y in
  let y := map (fun v => v + start) y in
  if (1 <? num)%nat then removelast y ++ [stop] else y.

(** C's [rint] under round-to-nearest-even. *)
Definition rint (x : float) : float :=
  if abs x <? 0x1p52 then
    let r := if get_sign x then (x - 0x1p52) + 0x1p52 else (x + 0x1p52) - 0x1p52 in
    if get_sign x then - (abs r) else abs r
  else x.

(** [np.round(x, 1)]: multiply by ten, round to an integer, divide by ten. *)
Definition round1 (x : float) : float := rint (x * 10) / 10.

(** [np.argmax] on doubles: the first maximum; a NaN counts as one. *)
Fixpoint argmax_from (xs : list float) (i : nat) (mp : float) (best : nat) : nat :=
  match xs with
  | [] => best
  | x :: xs' =>
      if is_nan mp then best
      else if x <=? mp then argmax_from xs' (S i) mp best
      else argmax_from xs' (S i) x i
  end.

Definition argmax (xs : list float) : option nat :=
  match xs with
  | [] => None
  | x :: xs' => Some (argmax_from xs' 1 x 0)
  end.

(** *** Printing a double: [str(np.float64)]

    The shortest decimal that reads back as the same double, positional
    for a decimal exponent from -4 to 15 and scientific otherwise.  A
    finite double is [m * 2^e]; decimals are compared with it exactly. *)

Local Open Scope Z_scope.

(** [v = num / den] as a quotient of positive integers *)
Definition quotient (m : positive) (e : Z) : Z * Z :=
  if 0 <=? e then (Zpos m * 2 ^ e, 1) else (Zpos m, 2 ^ (- e)).

Fixpoint exp10_up (fuel : nat) (num den k : Z) : Z :=
  match fuel with
  | O => k
  | S f => if 10 * den <=? num then exp10_up f num (10 * den) (k + 1) else k
  end.

Fixpoint exp10_down (fuel : nat) (num den k : Z) : Z :=
  match fuel with
  | O => k
  | S f => if num <? den then exp10_down f (10 * num) den (k - 1) else k
  end.

(** The [k] with [10^k <= num/den < 10^(k+1)]; doubles stay within
    [10^-324 .. 10^309]. *)
Definition exp10 (num den : Z) : Z :=
  if den <=? num then exp10_up 400 num den 0 else exp10_down 400 num den 0.

Definition div_half_even (a b : Z) : Z :=
  let q := a / b in
  let r := a mod b in
  match 2 * r ?= b with
  | Lt => q
  | Gt => q + 1
  | Eq => if Z.even q then q else q + 1
  end.

(** [num/den] to [n] significant digits: the digits as an integer and the
    decimal exponent of the first digit. *)
Definition to_digits (num den : Z) (n : Z) : Z * Z :=
  let k := exp10 num den in
  let s := k - n + 1 in
  let d := if 0 <=? s then div_half_even num (den * 10 ^ s)
           else div_half_even (num * 10 ^ (- s)) den in
  if d =? 10 ^ n then (10 ^ (n - 1), k + 1) else (d, k).

(** Compares [d * 10^s] with [b * 2^p]. *)
Definition compare_dec_bin (d s b p : Z) : comparison :=
  (d * (if 0 <=? s then 10 ^ s else 1) * (if p <? 0 then 2 ^ (- p) else 1))
  ?= (b * (if 0 <=? p then 2 ^ p else 1) * (if s <? 0 then 10 ^ (- s) else 1)).

(** Does the decimal [d * 10^s] round to the double [m * 2^e]?  It does
    between the midpoints to the neighbouring doubles, the midpoints
    included when [m] is even. *)
Definition reads_back (m : positive) (e : Z) (d s : Z) : bool :=
  let lower :=
    if (Zpos m =? 2 ^ 52) && (-1074 <? e)
    then compare_dec_bin d s (4 * Zpos m - 1) (e - 2)
    else compare_dec_bin d s (2 * Zpos m - 1) (e - 1) in
  let upper := compare_dec_bin d s (2 * Zpos m + 1) (e - 1) in
  let tie := Z.even (Zpos m) in
  match lower, upper with
  | Gt, Lt => true
  | Eq, Lt => tie
  | Gt, Eq => tie
  | _, _ => false
  end.

Fixpoint shortest_from (fuel : nat) (m : positive) (e : Z) (n : Z) : Z * Z * Z :=
  let (num, den) := quotient m e in
  let (d, k) := to_digits num den n in
  match fuel with
  | O => (d, k, n)
  | S f => if reads_back m e d (k - n + 1) then (d, k, n)
           else shortest_from f m e (n + 1)
  end.

(** The digits, the decimal exponent and the number of digits of the
    shortest decimal that reads back; 17 digits always do. *)
Definition shortest (m : positive) (e : Z) : Z * Z * Z := shortest_from 16 m e 1.

Fixpoint zeros (n : nat) : string :=
  match n with O => EmptyString | S n' => String "0" (zeros n') end.

Definition digit_string (d : Z) : string := NilZero.string_of_uint (N.to_uint (Z.to_N d)).

(** Trailing zeros carry no information: 1.0 has the digits "1". *)
Fixpoint strip_zeros (fuel : nat) (d n : Z) : Z * Z :=
  match fuel with
  | O => (d, n)
  | S f => if (1 <? n) && (d mod 10 =? 0) then strip_zeros f (d / 10) (n - 1) else (d, n)
  end.

Definition positional (digits : string) (n k : Z) : string :=
  if k <? 0 then ("0." ++ zeros (Z.to_nat (- k - 1)) ++ digits)%string
  else if n <=? k + 1 then (digits ++ zeros (Z.to_nat (k + 1 - n)) ++ ".0")%string
  else (substring 0 (Z.to_nat (k + 1)) digits ++ "."
        ++ substring (Z.to_nat (k + 1)) (Z.to_nat (n - k - 1)) digits)%string.

Definition scientific (digits : string) (n k : Z) : string :=
  let mant := if n =? 1 then digits
              else (substring 0 1 digits ++ "." ++ substring 1 (Z.to_nat (n - 1)) digits)%string in
  let ex := digit_string (Z.abs k) in
  let ex := if Z.abs k <? 10 then ("0" ++ ex)%string else ex in
  let sign := if k <? 0 then "-"%string else "+"%string in
  (mant ++ "e" ++ sign ++ ex)%string.

Definition str (x : float) : string :=
  match Prim2SF x with
  | S754_nan => "nan"
  | S754_infinity s => if s then "-inf" else "inf"
  | S754_zero s => if s then "-0.0" else "0.0"
  | S754_finite s m e =>
      let '(d, k, n) := shortest m e in
      let (d, n) := strip_zeros 17 d n in
      let body := if (-4 <=? k) && (k <? 16) then positional (digit_string d) n k
                  else scientific (digit_string d) n k in
      if s then ("-" ++ body)%string else body
  end.

End Np.

(** ** Arrays and tables *)

Definition matrix (A : Type) : Type := list (list A).

(** [l[i] = v]; the index is in range wherever the script assigns. *)
Fixpoint upd {A : Type} (l : list A) (i : nat) (v : A) : list A :=
  match l, i with
  | [], _ => []
  | _ :: t, O => v :: t
  | h :: t, S i' => h :: upd t i' v
  end.

Fixpoint map2 {A B C : Type} (f : A -> B -> C) (la : list A) (lb : list B) : list C :=
  match la, lb with
  | a :: la', b :: lb' => f a b :: map2 f la' lb'
  | _, _ => []
  end.

(** [np.zeros((n, n))] *)
Definition mzeros {A : Type} (z : A) (n : nat) : matrix A := repeat (repeat z n) n.

Definition mget {A : Type} (d : A) (m : matrix A) (x y : nat) : A := nth y (nth x m []) d.

(** [m[x][y] = v] *)
Definition mset {A : Type} (m : matrix A) (x y : nat) (v : A) : matrix A :=
  upd m x (upd (nth x m []) y v).

(** A table of named columns ([adata.obs], a dict turned into a
    DataFrame): assignment replaces a column in place or appends it. *)
Definition table (V : Type) : Type := list (string * V).

Fixpoint set_col {V : Type} (t : table V) (k : string) (v : V) : table V :=
  match t with
  | [] => [(k, v)]
  | (k', v') :: t' => if k' =? k then (k, v) :: t' else (k', v') :: set_col t' k v
  end.

Fixpoint get_col {V : Type} (t : table V) (k : string) : result V :=
  match t with
  | [] => Raise "KeyError"
  | (k', v') :: t' => if k' =? k then Ok v' else get_col t' k
  end.

(** A loop whose body may end the run. *)
Fixpoint for_each {S A : Type} (body : S -> A -> result S) (xs : list A) (s : S) : result S :=
  match xs with
  | [] => Ok s
  | x :: xs' => s' <- body s x ;; for_each body xs' s'
  end.

(** [enumerate(xs)] *)
Definition enumerate {A : Type} (xs : list A) : list (nat * A) :=
  combine (seq 0 (List.length xs)) xs.

(** ** The libraries behind the clustering stages

    All functions are relative to the data of the run: a cell is named by
    its row in the matrix the run started from, and the graph, the
    expression values and the reference data are fixed with it. *)

Record Library := {
  rng : Type;
  (** [np.random.seed(s)]: the generator state the seed stands for *)
  seed : Z -> rng;
  (** [np.random.choice(n, k, replace=False)]: [k] distinct indices below
      [n], and the state the generator is left in *)
  choice : rng -> nat -> nat -> list nat * rng;
  (** the community of each cell that [sc.tl.louvain] finds on the cells
      given, at a resolution (its own [random_state] is the default 0) *)
  louvain : list nat -> float -> list nat;
  (** [sklearn.metrics.silhouette_score(distance, labels, metric="precomputed")] *)
  silhouette_score : matrix float -> list string -> float;
  (** [len(adata.raw.var.index)] *)
  raw_n_vars : nat;
  (** [adata.raw.X[rows].mean(axis=0)] for the rows of the cells given *)
  raw_mean : list nat -> list float
}.

(** The part of the annotated matrix that clustering reads and writes:
    the cells it holds and the per-cell table. *)
Record AnnData := {
  cells : list nat;
  obs : table (list string)
}.

(** [adata[rows]] for a list of row positions *)
Definition take_rows (adata : AnnData) (rows : list nat) : AnnData :=
  {| cells := map (fun i => nth i (cells adata) O) rows;
     obs := map (fun kv => (fst kv, map (fun i => nth i (snd kv) "") rows)) (obs adata) |}.

(** The labels [sc.tl.louvain] stores: the community numbers as strings. *)
Definition louvain_labels (L : Library) (adata : AnnData) (resolution : float) : list string :=
  map Py.str_nat (louvain L (cells adata) resolution).

(** [sc.tl.louvain(adata, resolution=r, key_added=key)] *)
Definition sc_louvain (L : Library) (adata : AnnData) (resolution : float) (key : string) : AnnData :=
  {| cells := cells adata;
     obs := set_col (obs adata) key (louvain_labels L adata resolution) |}.

(** ** The automatic resolution search (lines 170-226) *)

Module Search.

Local Open Scope float_scope.

(** One step of the double loop of lines 185-191. *)
Definition mark (subsample : list nat) (cluster : list string)
    (acc : matrix bool * matrix bool) (i j : nat) : matrix bool * matrix bool :=
  let x := nth i subsample O in
  let y := nth j subsample O in
  let subsampling_n := mset (fst acc) x y true in
  let coclustering_n :=
    if (nth i cluster "" =? nth j cluster "")%string
    then mset (snd acc) x y true else snd acc in
  (subsampling_n, coclustering_n).

(** Lines 177-192.  [subsample] holds [subsample_n] rows of [adata]. *)
Definition subsample_clustering (L : Library) (adata : AnnData) (sample_n subsample_n : nat)
    (resolution : float) (subsample : list nat) : matrix bool * matrix bool :=
  let subadata := take_rows adata subsample in
  (* sc.tl.louvain(subadata, ...); subadata.obs['louvain'].tolist() *)
  let cluster := louvain_labels L subadata resolution in
  fold_left
    (fun acc i => fold_left (fun acc j => mark subsample cluster acc i j)
                            (seq 0 subsample_n) acc)
    (seq 0 subsample_n)
    (mzeros false sample_n, mzeros false sample_n).

(** [sum(ms)] of boolean arrays: Python starts from the integer 0, numpy
    adds entry by entry and the booleans count as 0 and 1. *)
Definition madd (acc : matrix Z) (m : matrix bool) : matrix Z :=
  map2 (map2 (fun a (b : bool) => (a + (if b then 1 else 0))%Z)) acc m.

Definition msum (n : nat) (ms : list (matrix bool)) : matrix Z :=
  fold_left madd ms (mzeros 0%Z n).

(** [subsampling_n[np.where(subsampling_n == 0)] = 1e6] on an integer array *)
Definition sentinel (m : matrix Z) : matrix Z :=
  map (map (fun v => if (v =? 0)%Z then 1000000%Z else v)) m.

(** [1.0 - coclustering_n / subsampling_n], entry by entry in doubles *)
Definition one_minus_ratio (coclustering_n subsampling_n : matrix Z) : matrix float :=
  map2 (map2 (fun c s => 1 - Np.of_Z c / Np.of_Z s)) coclustering_n subsampling_n.

(** [np.fill_diagonal(distance, 0.0)] *)
Definition fill_diagonal (m : matrix float) : matrix float :=
  map (fun ir => upd (snd ir) (fst ir) 0) (enumerate m).

(** Lines 211-216 on the results of one candidate. *)
Definition distance_matrix (sample_n : nat) (resultList : list (matrix bool * matrix bool))
    : matrix float :=
  let subsampling_n := msum sample_n (map fst resultList) in
  let coclustering_n := msum sample_n (map snd resultList) in
  let subsampling_n := sentinel subsampling_n in
  fill_diagonal (one_minus_ratio coclustering_n subsampling_n).

(** [[np.random.choice(sample_n, subsample_n, replace=False) for t in
    range(rep_n)]]: the draws follow one another on the global generator. *)
Fixpoint draw (L : Library) (rep_n : nat) (g : rng L) (sample_n subsample_n : nat)
    : list (list nat) * rng L :=
  match rep_n with
  | O => ([], g)
  | S rep_n' =>
      let (s, g1) := choice L g sample_n subsample_n in
      let (ss, g2) := draw L rep_n' g1 sample_n subsample_n in
      (s :: ss, g2)
  end.

(** [mp.Pool(cpus)] refuses fewer than one process; [Pool.map] returns
    the results in the order of the inputs. *)
Definition pool_map {A B : Type} (cpus : Z) (f : A -> B) (xs : list A) : result (list B) :=
  if (cpus <? 1)%Z then Raise "ValueError" else Ok (map f xs).

(** [int(x)] of a non-negative double *)
Definition int_of_float (x : float) : nat :=
  match Prim2SF x with
  | S754_finite false m e =>
      Z.to_nat (if (0 <=? e)%Z then (Zpos m * 2 ^ e)%Z else (Zpos m / 2 ^ (- e))%Z)
  | _ => O
  end.

Definition rep_n : nat := 5.
Definition subset : float := 0.8.
Definition resolutions : list float := Np.linspace 0.4 1.4 6.

(** ['louvain_r' + str(r)] *)
Definition key (r : float) : string := ("louvain_r" ++ Np.str r)%string.

Record State (L : Library) := {
  generator : rng L;            (* the state of np.random *)
  adata : AnnData;
  silhouette_avg : list float
}.

Arguments generator {L} s.
Arguments adata {L} s.
Arguments silhouette_avg {L} s.

(** The body of the loop, lines 202-221. *)
Definition candidate (L : Library) (cpus : Z) (sample_n subsample_n : nat)
    (st : State L) (ri_r : nat * float) : result (State L) :=
  let ri := fst ri_r in
  let r := Np.round1 (snd ri_r) in
  let (subsamples, g) := draw L rep_n (generator st) sample_n subsample_n in
  resultList <- pool_map cpus (subsample_clustering L (adata st) sample_n subsample_n r)
                         subsamples ;;
  let distance := distance_matrix sample_n resultList in
  let adata' := sc_louvain L (adata st) r (key r) in
  labels <- get_col (obs adata') (key r) ;;
  Ok {| generator := g;
        adata := adata';
        silhouette_avg := upd (silhouette_avg st) ri (silhouette_score L distance labels) |}.

(** The state a candidate leaves behind when nothing ends the run. *)
Definition scored (L : Library) (sample_n subsample_n : nat)
    (st : State L) (ri_r : nat * float) : State L :=
  let r := Np.round1 (snd ri_r) in
  let drawn := draw L rep_n (generator st) sample_n subsample_n in
  let resultList := map (subsample_clustering L (adata st) sample_n subsample_n r) (fst drawn) in
  {| generator := snd drawn;
     adata := sc_louvain L (adata st) r (key r);
     silhouette_avg :=
       upd (silhouette_avg st) (fst ri_r)
           (silhouette_score L (distance_matrix sample_n resultList)
                             (louvain_labels L (adata st) r)) |}.

(** Lines 194-221: the seed is set once, then the candidates follow.  The
    state of the generator at entry is [g0]. *)
Definition search (L : Library) (cpus : Z) (g0 : rng L) (adata0 : AnnData)
    : result (State L) :=
  let sample_n := List.length (cells adata0) in
  let subsample_n := int_of_float (Np.of_nat sample_n * subset) in
  let silhouette_avg0 := repeat 0 (List.length resolutions) in
  let g := seed L 1 in
  for_each (candidate L cpus sample_n subsample_n) (enumerate resolutions)
           {| generator := g; adata := adata0; silhouette_avg := silhouette_avg0 |}.

(** Lines 223-225: the resolution kept and the final ['louvain'] column. *)
Definition select (L : Library) (st : State L) : result (float * AnnData) :=
  match Np.argmax (silhouette_avg st) with
  | None => Raise "ValueError"
  | Some i =>
      let best_resution := nth i resolutions nan in
      labels <- get_col (obs (adata st)) (key best_resution) ;;
      Ok (best_resution,
          {| cells := cells (adata st);
             obs := set_col (obs (adata st)) "louvain" labels |})
  end.

Definition auto_resolution (L : Library) (cpus : Z) (g0 : rng L) (adata0 : AnnData)
    : result (float * AnnData) :=
  st <- search L cpus g0 adata0 ;; select L st.

End Search.

(** Lines 170-231: the resolution reported and the clustered object. *)
Definition clustering (L : Library) (a : Args) (g0 : rng L) (adata : AnnData)
    : result (float * AnnData) :=
  if auto_resolution a then Search.auto_resolution L (cpus a) g0 adata
  else Ok (resolution a, sc_louvain L adata (resolution a) "louvain").

(** ** Loading a stored object (lines 115-118) *)

(** [adata[adata.obs['louvain'].isin(clusters)]] *)
Definition subset_clusters (stored : AnnData) (clusters : list string) : result AnnData :=
  labels <- get_col (obs stored) "louvain" ;;
  let keep := filter (fun i => Py.mem (nth i labels "") clusters)
                     (seq 0 (List.length (cells stored))) in
  Ok (take_rows stored keep).

(** Lines 116-118 and 168-231 for [--format h5ad]: the stored object is
    cut down to the clusters asked for and clustered again. *)
Definition recluster_h5ad (L : Library) (a : Args) (g0 : rng L) (stored : AnnData)
    : result (float * AnnData) :=
  match clusters a with
  | Some cs =>
      adata <- subset_clusters stored (map Py.strip (Py.split_comma cs)) ;;
      clustering L a g0 adata
  | None => Raise "AttributeError"
  end.

(** ** Annotation: the cluster mean-expression matrix (lines 237-246) *)

Module Annotation.

(** [sorted(labels.unique(), key=int)]; a label that is no integer makes
    [int] raise. *)
Fixpoint int_keys (labels : list string) : result (list (Z * string)) :=
  match labels with
  | [] => Ok []
  | l :: ls =>
      match Py.int l with
      | Some k => rest <- int_keys ls ;; Ok ((k, l) :: rest)
      | None => Raise "ValueError"
      end
  end.

Definition groups_of (labels : list string) : result (list string) :=
  keyed <- int_keys (Py.unique labels) ;;
  Ok (map snd (Py.sorted (fun a b => (fst a <=? fst b)%Z) keyed)).

(** [mat[:, k] = v] on a matrix kept by columns: numpy counts a negative
    index from the end and refuses one outside the axis. *)
Definition set_column (mat : list (list float)) (k : Z) (v : list float)
    : result (list (list float)) :=
  let n := Z.of_nat (List.length mat) in
  if ((0 <=? k) && (k <? n))%Z then Ok (upd mat (Z.to_nat k) v)
  else if ((- n <=? k) && (k <? 0))%Z then Ok (upd mat (Z.to_nat (k + n)) v)
  else Raise "IndexError".

(** The cells of a group: [adata.obs['louvain'] == group] *)
Definition cells_of (adata : AnnData) (labels : list string) (group : string) : list nat :=
  map fst (filter (fun cl => (snd cl =? group)%string) (combine (cells adata) labels)).

(** One turn of the loop of lines 243-244. *)
Definition write_group (L : Library) (adata : AnnData) (labels : list string)
    (mat : list (list float)) (group : string) : result (list (list float)) :=
  match Py.int group with
  | Some k => set_column mat k (raw_mean L (cells_of adata labels group))
  | None => Raise "ValueError"
  end.

(** Lines 237 and 242-245: the groups and the matrix, by columns. *)
Definition cluster_mean_exp (L : Library) (adata : AnnData)
    : result (list string * list (list float)) :=
  labels <- get_col (obs adata) "louvain" ;;
  groups <- groups_of labels ;;
  let mat := repeat (repeat 0%float (raw_n_vars L)) (List.length groups) in
  mat <- for_each (write_group L adata labels) groups mat ;;
  Ok (groups, mat).

End Annotation.

(** Line 116-118, 168-246 for [--format h5ad --annotation]. *)
Definition annotate_h5ad (L : Library) (a : Args) (g0 : rng L) (stored : AnnData)
    : result (list string * list (list float)) :=
  ra <- recluster_h5ad L a g0 stored ;;
  Annotation.cluster_mean_exp L (snd ra).

(** Downward closed: with a community number, every smaller one occurs. *)
Definition contiguous (membership : list nat) : Prop :=
  forall c c', In c membership -> (c' < c)%nat -> In c' membership.

(** ** Cell types from the reference matching (lines 252-256) *)

Module CellType.

(** The rows of [human_Spearman_top_ann.csv] that the script reads: the
    columns ['cell'] and ['cell type']. *)
Definition top_ann : Type := list (Z * string).

(** [df.loc[df['cell'] == int(group)]['cell type'].tolist()[0]] *)
Definition cell_type_of (df : top_ann) (group : string) : result string :=
  match Py.int group with
  | None => Raise "ValueError"
  | Some k =>
      match filter (fun row => (fst row =? k)%Z) df with
      | [] => Raise "IndexError"
      | row :: _ => Ok (snd row)
      end
  end.

(** Lines 254-255: [[group + " " + ... for group in groups]] *)
Fixpoint scMatch_cluster_names (df : top_ann) (groups : list string) : result (list string) :=
  match groups with
  | [] => Ok []
  | group :: rest =>
      t <- cell_type_of df group ;;
      names <- scMatch_cluster_names df rest ;;
      Ok ((group ++ " " ++ t)%string :: names)
  end.

Fixpoint distinct (xs : list string) : bool :=
  match xs with
  | [] => true
  | x :: xs' => negb (Py.mem x xs') && distinct xs'
  end.

(** [labels.cat.rename_categories(names)]: as many names as categories,
    all different; each value takes the name at the place of its
    category. *)
Definition rename_categories (categories names labels : list string)
    : result (list string) :=
  if negb (List.length names =? List.length categories)%nat || negb (distinct names)
  then Raise "ValueError"
  else
    let renamed := combine categories names in
    Ok (map (fun l => match get_col renamed l with Ok n => n | _ => l end) labels).

(** Lines 253-256, on the groups of line 237 (the categories of a column
    of community numbers, in their numerical order). *)
Definition cell_type (df : top_ann) (groups labels : list string) : result (list string) :=
  names <- scMatch_cluster_names df groups ;;
  rename_categories groups names labels.

End CellType.

(** A stand-in for the libraries, to run the model: the generator counts
    its draws and hands out the first rows, Louvain splits the cells
    alternately into two communities. *)
Definition toy : Library :=
  {| rng := nat;
     seed := Z.to_nat;
     choice := fun g n k => (map (fun i => ((i + g) mod n)%nat) (seq 0 k), S g);
     louvain := fun cs _ => map (fun i => (i mod 2)%nat) (seq 0 (List.length cs));
     silhouette_score := fun d _ => mget 0%float d 0 1;
     raw_n_vars := 1;
     raw_mean := fun cs => [Np.of_nat (List.length cs)] |}.

(** A stored object of five cells, clustered before as 3, 5, 3, 5, 1. *)
Definition stored5 : AnnData :=
  {| cells := [0; 1; 2; 3; 4]%nat;
     obs := [("louvain", ["3"; "5"; "3"; "5"; "1"])] |}.

Definition args_h5ad (cs : string) (auto : bool) : Args :=
  {| input := "scanpyobj.h5ad"; format := "h5ad"; output := "./";
     resolution := 0.6%float; auto_resolution := auto;
     metadata := None; batch := None; clusters := Some cs;
     GEP := true; annotation := true; gsea := false; cpus := 1 |}.

(** ** Differential expression and its export (lines 282-292) *)

(** [adata.uns['rank_genes_groups']]: per statistic, one array per group
    of the column tested, in the rank order of that group.  [n_tested] is
    the number of genes of the matrix the test ran on. *)
Record RankGenesGroups := {
  n_tested : nat;
  names : string -> list string;
  logfoldchanges : string -> list float;
  scores : string -> list float;
  pvals : string -> list float;
  pvals_adj : string -> list float
}.

(** [rank_genes_groups] with the default [n_genes=None] ranks every gene
    of the tested matrix in every group. *)
Definition complete (r : RankGenesGroups) (groups : list string) : Prop :=
  forall g, In g groups ->
    List.length (names r g) = n_tested r /\
    List.length (logfoldchanges r g) = n_tested r /\
    List.length (scores r g) = n_tested r /\
    List.length (pvals r g) = n_tested r /\
    List.length (pvals_adj r g) = n_tested r.

Module Degs.

Inductive value : Type :=
| Text (s : string)
| Number (x : float).

Definition keys : list string := ["names"; "logfoldchanges"; "scores"; "pvals"].

(** [result[key][group]] *)
Definition field (r : RankGenesGroups) (key group : string) : list value :=
  if key =? "names" then map Text (names r group)
  else if key =? "logfoldchanges" then map Number (logfoldchanges r group)
  else if key =? "scores" then map Number (scores r group)
  else map Number (pvals r group).

(** [{group + '_' + key: result[key][group] for group in groups for key in keys}] *)
Definition columns_dict (r : RankGenesGroups) (groups : list string) : table (list value) :=
  fold_left
    (fun d group =>
       fold_left (fun d key => set_col d (group ++ "_" ++ key)%string (field r key group))
                 keys d)
    groups [].

Record DataFrame := {
  columns : table (list value);
  n_rows : nat
}.

(** [pd.DataFrame(dict)]: one column per key; the arrays must agree in
    length, which is the number of rows. *)
Definition data_frame (d : table (list value)) : result DataFrame :=
  match d with
  | [] => Ok {| columns := []; n_rows := 0 |}
  | (_, v) :: _ =>
      if forallb (fun kv => (List.length (snd kv) =? List.length v)%nat) d
      then Ok {| columns := d; n_rows := List.length v |}
      else Raise "ValueError"
  end.

(** Lines 290-291: the table written to [cluster_DEGs.csv]. *)
Definition cluster_DEGs (r : RankGenesGroups) (groups : list string) : result DataFrame :=
  data_frame (columns_dict r groups).

(** The four column names of a group, in the order of the export. *)
Definition group_columns (group : string) : list string :=
  map (fun key => (group ++ "_" ++ key)%string) keys.

End Degs.

(** ** Gene set enrichment: [runGSEAPY] (lines 6-46) *)

Module Gsea.

Local Open Scope float_scope.

(** A row of [enr.res2d], with the columns the function keeps. *)
Record Row := {
  Gene_set : string;
  Term : string;
  Overlap : string;
  P_value : float;
  Adjusted_P_value : float;
  Genes : string
}.

(** A row of the returned table: [Cluster] and the columns kept. *)
Record OutRow := {
  Cluster : string;
  row : Row
}.

(** Lines 13-18: the three masks multiplied entry by entry. *)
Definition indlist (r : RankGenesGroups) (logfc_threshold : float) (celltype : string)
    : list bool :=
  let indlist_logfc := map (fun v => logfc_threshold <=? v) (logfoldchanges r celltype) in
  let indlist_adjp := map (fun v => v <=? 1e-2) (pvals_adj r celltype) in
  let indlist_p := map (fun v => v <=? 1e-2) (pvals r celltype) in
  map2 andb (map2 andb indlist_logfc indlist_adjp) indlist_p.

(** Lines 20-21. *)
Definition degs (r : RankGenesGroups) (logfc_threshold : float) (celltype : string)
    : list string :=
  let il := indlist r logfc_threshold celltype in
  let ind := filter (fun x => nth x il false) (seq 0 (List.length il)) in
  map (fun x => nth x (names r celltype) "") ind.

(** What the function has done: the gene lists sent to Enrichr with the
    cluster each was sent for, the table returned, the lines printed. *)
Record Outcome := {
  queries : list (string * list string);
  df : list OutRow;
  console : list string
}.

(** Lines 12-33: the clusters with markers and their results. *)
Fixpoint enrich_loop (enrichr : list string -> string -> list Row)
    (r : RankGenesGroups) (logfc_threshold : float) (celltypes : list string)
    : list (string * list string * list Row) :=
  match celltypes with
  | [] => []
  | celltype :: rest =>
      let degs := degs r logfc_threshold celltype in
      match degs with
      | [] => enrich_loop enrichr r logfc_threshold rest
      | _ :: _ =>
          (celltype, degs, enrichr degs celltype)
          :: enrich_loop enrichr r logfc_threshold rest
      end
  end.

Definition message (cutoff : float) (cluster_ind : string) : string :=
  ("No pathway with an adjusted P-value less than the cutoff (=" ++ Np.str cutoff
   ++ ") for cluster " ++ cluster_ind)%string.

(** Lines 37-44: the cutoff, the cluster column and the concatenation. *)
Fixpoint concat_loop (cutoff : float) (results : list (string * list string * list Row))
    (df : list OutRow) (console : list string) : list OutRow * list string :=
  match results with
  | [] => (df, console)
  | (cluster_ind, _, df_) :: rest =>
      let df_ := filter (fun x => Adjusted_P_value x <=? cutoff) df_ in
      let df_ := map (fun x => {| Cluster := cluster_ind; row := x |}) df_ in
      if (0 <? List.length df_)%nat
      then concat_loop cutoff rest (df ++ df_) console
      else concat_loop cutoff rest df (console ++ [message cutoff cluster_ind])
  end.

(** [runGSEAPY(adata, ...)]: [labels] is [adata.obs[group_by]], [r] is
    [adata.uns['rank_genes_groups']], [enrichr] answers a gene list. *)
Definition runGSEAPY (enrichr : list string -> string -> list Row)
    (labels : list string) (r : RankGenesGroups)
    (cutoff logfc_threshold : float) : Outcome :=
  let celltypes := Py.sorted String.leb (Py.unique labels) in
  let results := enrich_loop enrichr r logfc_threshold celltypes in
  let out := concat_loop cutoff results [] [] in
  {| queries := map fst results; df := fst out; console := snd out |}.

(** A marker gene of a cluster: its statistics pass the three
    thresholds together. *)
Definition marker (r : RankGenesGroups) (logfc_threshold : float) (celltype gene : string)
    : Prop :=
  exists x, (x < n_tested r)%nat /\
    nth x (names r celltype) ""%string = gene /\
    (logfc_threshold <=? nth x (logfoldchanges r celltype) nan) = true /\
    (nth x (pvals_adj r celltype) nan <=? 1e-2) = true /\
    (nth x (pvals r celltype) nan <=? 1e-2) = true.

End Gsea.

(** ** The files of a completed run (lines 238-298) *)

Definition written_files (a : Args) : list string :=
  (if annotation a then ["cluster_mean_exp.csv"] else [])
  ++ ["umap_cluster.png"]
  ++ (match batch a with Some _ => ["umap_batch.png"] | None => [] end)
  ++ (if annotation a then ["umap_cell_type.png"] else [])
  ++ (if GEP a then ["GEP.txt"] else [])
  ++ ["scanpyobj.h5ad"; "cluster_DEGs.csv"]
  ++ (if gsea a then ["GSEA_results.csv"] else []).

(** The options as argparse leaves them for a command line that gives
    [--GEP] the value [v] (or not at all) and no other optional flag. *)
Definition args_with_GEP (inp : string) (v : option string) : Args :=
  {| input := inp; format := "10x"; output := "./";
     resolution := 0.6%float; auto_resolution := false;
     metadata := None; batch := None; clusters := None;
     GEP := parse_GEP v; annotation := false; gsea := false; cpus := 1 |}.

(** A stored object given with [--batch PatientID] and no metadata file;
    the object carries no such column. *)
Definition world_h5ad : World :=
  {| path_exists := fun _ => true;
     path_isdir := fun _ => true;
     metadata_columns := [];
     h5ad_obs_columns := ["n_genes"; "louvain"] |}.

Definition args_h5ad_batch : Args :=
  {| input := "scanpyobj.h5ad"; format := "h5ad"; output := "./";
     resolution := 0.6%float; auto_resolution := false;
     metadata := None; batch := Some "PatientID"; clusters := Some "1,3";
     GEP := true; annotation := false; gsea := false; cpus := 1 |}.

(** The same request on a 10x directory with a metadata file. *)
Definition world_10x : World :=
  {| path_exists := fun _ => true;
     path_isdir := fun _ => true;
     metadata_columns := ["PatientID"];
     h5ad_obs_columns := [] |}.

Definition args_10x_batch : Args :=
  {| input := "data/"; format := "10x"; output := "./";
     resolution := 0.6%float; auto_resolution := false;
     metadata := Some "meta.csv"; batch := Some "PatientID"; clusters := None;
     GEP := true; annotation := false; gsea := false; cpus := 1 |}.

(** An [n] by [n] array. *)
Definition square {A : Type} (n : nat) (m : matrix A) : Prop :=
  List.length m = n /\ Forall (fun row => List.length row = n) m.

(** Two subsamples of four of the five cells; cells 0 and 4 never meet. *)
Definition two_subsamples : list (list nat) := [[0; 1; 2; 3]; [1; 2; 3; 4]]%nat.

(** What the double loop of [subsample_clustering] maintains: both
    arrays stay [n] by [n], and an entry is set only for two cells of the
    subsample. *)
Definition marks_within (n : nat) (s : list nat)
    (acc : matrix bool * matrix bool) : Prop :=
  square n (fst acc) /\ square n (snd acc) /\
  forall x y, mget false (fst acc) x y = true \/ mget false (snd acc) x y = true ->
              In x s /\ In y s.

Fixpoint has_underscore (s : string) : bool :=
  match s with
  | EmptyString => false
  | String c s' => Ascii.eqb c "_" || has_underscore s'
  end.

(** The columns one group contributes to the export, with their names. *)
Definition deg_entries (r : RankGenesGroups) (group : string) : table (list Degs.value) :=
  map (fun key => ((group ++ "_" ++ key)%string, Degs.field r key group)) Degs.keys.

(** A test result over two genes for the groups 0 and 1. *)
Definition two_genes : RankGenesGroups :=
  {| n_tested := 2;
     names := fun g => if g =? "0" then ["CD3E"; "MS4A1"] else ["MS4A1"; "CD3E"];
     logfoldchanges := fun g => if g =? "0" then [3.5; -3]%float else [3; -3.5]%float;
     scores := fun g => if g =? "0" then [12; -11]%float else [11; -12]%float;
     pvals := fun g => if g =? "0" then [1e-9; 1e-8]%float else [1e-8; 0.5]%float;
     pvals_adj := fun g => if g =? "0" then [2e-9; 2e-8]%float else [2e-8; 1]%float |}.

(** The rows one enriched cluster contributes: those at or below the
    cutoff, with the cluster written in. *)
Definition kept_rows (cutoff : float) (res : string * list string * list Gsea.Row)
    : list Gsea.OutRow :=
  map (fun x => {| Gsea.Cluster := fst (fst res); Gsea.row := x |})
      (filter (fun x => (Gsea.Adjusted_P_value x <=? cutoff)%float) (snd res)).

Definition has_markers (r : RankGenesGroups) (logfc_threshold : float) (celltype : string)
    : bool :=
  match Gsea.degs r logfc_threshold celltype with [] => false | _ :: _ => true end.

(** An Enrichr stand-in: two terms per query, one of them significant
    only for cluster 0. *)
Definition toy_enrichr (genes : list string) (description : string) : list Gsea.Row :=
  [ {| Gsea.Gene_set := "GO_Biological_Process_2021"; Gsea.Term := "T cell activation";
       Gsea.Overlap := "1/100";
       Gsea.P_value := 0.001%float;
       Gsea.Adjusted_P_value := if description =? "0" then 0.01%float else 0.2%float;
       Gsea.Genes := String.concat ";" genes |};
    {| Gsea.Gene_set := "GO_Biological_Process_2021"; Gsea.Term := "B cell activation";
       Gsea.Overlap := "1/80";
       Gsea.P_value := 0.2%float; Gsea.Adjusted_P_value := 0.6%float;
       Gsea.Genes := String.concat ";" genes |} ].


(** One of the two spellings of a file of a 10x directory is present. *)
Definition present (w : World) (a : Args) (name : string) : Prop :=
  path_exists w (Py.path_join (input a) name) = true \/
  path_exists w (Py.path_join (input a) (name ++ ".gz")) = true.

(** Every per-cell column has one entry per cell. *)
Definition aligned (adata : AnnData) : Prop :=
  Forall (fun kv => List.length (snd kv) = List.length (cells adata)) (obs adata).

(** In how many of the arrays the entry is set. *)
Definition hits (ms : list (matrix bool)) (x y : nat) : Z :=
  Z.of_nat (List.length (filter (fun m => mget false m x y) ms)).


(** What the double loop of [subsample_clustering] maintains besides:
    a pair marked as clustered together is marked as sampled together,
    and it was marked for two positions of the subsample with the same
    label. *)
Definition coclustered_within (n k : nat) (s : list nat) (cluster : list string)
    (acc : matrix bool * matrix bool) : Prop :=
  square n (fst acc) /\ square n (snd acc) /\
  (forall x y, mget false (snd acc) x y = true -> mget false (fst acc) x y = true) /\
  (forall x y, mget false (snd acc) x y = true ->
     exists i j, (i < k)%nat /\ (j < k)%nat /\ nth i s O = x /\ nth j s O = y /\
                 nth i cluster "" = nth j cluster "").

(** A state of the search in which the second, third and fifth
    candidate share the highest score. *)
Definition tied_scores : Search.State toy :=
  {| Search.generator := (30%nat : rng toy);
     Search.adata :=
       {| cells := [0; 1; 2]%nat;
          obs := [("louvain_r0.4", ["0"; "0"; "0"]); ("louvain_r0.6", ["0"; "1"; "0"]);
                  ("louvain_r0.8", ["0"; "1"; "1"]); ("louvain_r1.0", ["0"; "1"; "2"]);
                  ("louvain_r1.2", ["0"; "1"; "2"]); ("louvain_r1.4", ["0"; "1"; "2"])] |};
     Search.silhouette_avg := [0.1; 0.5; 0.5; 0.2; 0.5; 0.3]%float |}.

(** A community number with its key and its label, as the sort of
    line 237 sees it. *)
Definition keyed_label (c : nat) : Z * string := (Z.of_nat c, Py.str_nat c).

(** The order of the sort of line 237. *)
Definition by_key (a b : Z * string) : Prop := (fst a <= fst b)%Z.




Fixpoint has_space (s : string) : bool :=
  match s with
  | EmptyString => false
  | String c s' => Ascii.eqb c " " || has_space s'
  end.

(** A reference-matching result for the clusters 0 and 1. *)
Definition two_types : CellType.top_ann := [(1, "B cell")%Z; (0, "T cell")%Z; (1, "NK cell")%Z].





(** The type of the first row of the reference table given for a
    community. *)
Definition reference_type (df : CellType.top_ann) (c : nat) : string :=
  match find (fun row => (fst row =? Z.of_nat c)%Z) df with
  | Some row => snd row
  | None => ""
  end.

Definition cell_type_name (df : CellType.top_ann) (c : nat) : string :=
  (Py.str_nat c ++ " " ++ reference_type df c)%string.

(** The order of [sorted] on strings. *)
Definition str_le (a b : string) : Prop := String.leb a b = true.

(** An enriched cluster none of whose rows is at or below the cutoff. *)
Definition nothing_kept (cutoff : float) (res : string * list string * list Gsea.Row) : bool :=
  match kept_rows cutoff res with [] => true | _ :: _ => false end.

(** What one cluster with markers brings back from Enrichr. *)
Definition enriched (enrichr : list string -> string -> list Gsea.Row)
    (r : RankGenesGroups) (thr : float) (c : string)
    : string * list string * list Gsea.Row :=
  (c, Gsea.degs r thr c, enrichr (Gsea.degs r thr c) c).

(** * Properties *)

(** ** The [--GEP] option *)

Lemma lower_char_same_letter c : same_letter c (Py.lower_char c).
Proof.
  unfold Py.lower_char. destruct (Py.is_upper c) eqn:U.
  - right; left. split; [exact U|].
    apply nat_ascii_embedding.
    unfold Py.is_upper in U. apply andb_true_iff in U as [_ U].
    apply Nat.leb_le in U. lia.
  - left; reflexivity.
Qed.

Lemma same_letter_lower c d :
  same_letter c d -> Py.is_upper d = false -> Py.lower_char c = d.
Proof.
  intros [E | [[U E] | [U _]]] Hd.
  - subst. unfold Py.lower_char. now rewrite Hd.
  - unfold Py.lower_char. rewrite U, <- E. apply ascii_nat_embedding.
  - congruence.
Qed.

Lemma lower_eq_nocase s : eq_nocase s (Py.lower s).
Proof.
  induction s as [|c s IH]; simpl; constructor; auto using lower_char_same_letter.
Qed.

Lemma eq_nocase_lower s t :
  eq_nocase s t -> Py.lower t = t -> Py.lower s = t.
Proof.
  induction 1 as [|c d s t Hcd _ IH]; simpl; intros Ht; [reflexivity|].
  injection Ht as Hd Ht'. f_equal; [|auto].
  apply same_letter_lower; [assumption|].
  unfold Py.lower_char in Hd. destruct (Py.is_upper d) eqn:U; [|reflexivity].
  exfalso. apply (f_equal nat_of_ascii) in Hd.
  unfold Py.is_upper in U. apply andb_true_iff in U as [_ U]. apply Nat.leb_le in U.
  rewrite nat_ascii_embedding in Hd by lia. lia.
Qed.

(** C9.  A value supplied to [--GEP] enables the export exactly when it
    spells [true] in any mix of upper and lower case; ['1'] and ['yes']
    disable it; without the option the export is enabled; and [GEP.txt]
    is among the files of a run exactly when the option is enabled. *)
Theorem GEP_enabled_iff_true_nocase :
  (forall v, parse_GEP (Some v) = true <-> eq_nocase v "true") /\
  parse_GEP (Some "1") = false /\
  parse_GEP (Some "yes") = false /\
  parse_GEP None = true /\
  (forall a, In "GEP.txt" (written_files a) <-> GEP a = true) /\
  (forall inp v, In "GEP.txt" (written_files (args_with_GEP inp (Some v)))
                 <-> eq_nocase v "true").
Proof.
  assert (P : forall v, parse_GEP (Some v) = true <-> eq_nocase v "true").
  { intros v. unfold parse_GEP, GEP_type. rewrite String.eqb_eq. split.
    - intros <-. apply lower_eq_nocase.
    - intros H. now apply eq_nocase_lower. }
  assert (W : forall a, In "GEP.txt" (written_files a) <-> GEP a = true).
  { intros a. unfold written_files.
    destruct (annotation a), (batch a), (GEP a), (gsea a); simpl; split; intros H;
      try reflexivity; try discriminate; intuition discriminate. }
  repeat split; try reflexivity; try apply P; try apply W.
  - intros H. apply P. now apply W in H.
  - intros H. apply W. now apply P.
Qed.

(** ** Batch correction *)

Lemma h5ad_never_corrected w a p :
  format a = "h5ad" -> run_preprocessing w a = Ok p -> batch_corrected p = false.
Proof.
  intros F. unfold run_preprocessing, preprocessing. rewrite F. simpl.
  destruct (check_args w a); simpl; try discriminate.
  destruct (clusters a); try discriminate.
  intros [= <-]. unfold batch_corrected. simpl. now destruct (GEP a).
Qed.

Lemma other_formats_corrected w a p b :
  format a <> "h5ad" -> batch a = Some b ->
  run_preprocessing w a = Ok p ->
  batch_corrected p = true /\ In (HarmonyIntegrate b "X_pca") (calls p).
Proof.
  intros F B. unfold run_preprocessing, preprocessing.
  apply String.eqb_neq in F. rewrite F.
  destruct (check_args w a); simpl; try discriminate.
  destruct (if format a =? "csv" then _ else _); simpl; try discriminate.
  unfold batch_correction. rewrite B, F. simpl.
  assert (I : forall q, In (HarmonyIntegrate b "X_pca") (calls q) ->
              batch_corrected q = true /\ In (HarmonyIntegrate b "X_pca") (calls q)).
  { intros q Hq. split; [|exact Hq]. apply existsb_exists. now eexists; split; [exact Hq|]. }
  destruct (metadata a); simpl; intros [= <-]; apply I; simpl;
    repeat first [ left; reflexivity | right | apply in_or_app; right ].
Qed.

(** C2.  On a stored object given with a batch column and no metadata
    file, the run passes every check and leaves preprocessing without
    batch correction and without an error, whether the object lacks the
    column or not: lines 157-164 are only reached for the other formats.
    The same request on a 10x directory is corrected on [X_pca]. *)
Theorem h5ad_batch_is_not_corrected :
  run_preprocessing world_h5ad args_h5ad_batch
  = Ok {| calls := [ScRead; SubsetClusters ["1"; "3"]; RawToAdata];
          obs_columns := ["n_genes"; "louvain"] |} /\
  (forall w a p, format a = "h5ad" -> run_preprocessing w a = Ok p ->
                 batch_corrected p = false) /\
  (exists p, run_preprocessing world_10x args_10x_batch = Ok p /\
             In (HarmonyIntegrate "PatientID" "X_pca") (calls p)).
Proof.
  split; [reflexivity|]. split; [apply h5ad_never_corrected|].
  eexists. split; [reflexivity|]. simpl. intuition.
Qed.

(** ** Quality filtering *)

(** C3 (amended).  After lines 129-135 every retained cell has at least
    200 detected genes among the genes ingested and a mitochondrial
    fraction below 30 percent on the genes retained, and every retained
    gene is detected in at least 3 of the cells that passed the
    detected-gene filter. *)
Theorem quality_filter_retained (a : Qc.AnnData) :
  let kept := Qc.quality_filter a in
  Forall (fun i => (200 <= Qc.n_genes a i)%Z /\
                   (0 < Qc.total_counts kept i)%N /\
                   (100 * Qc.total_counts_mt kept i < 30 * Qc.total_counts kept i)%N)
         (Qc.obs_idx kept) /\
  Forall (fun g => (3 <= Qc.n_cells (Qc.filter_cells 200 a) g)%Z) (Qc.var_idx kept).
Proof.
  simpl. split; apply Forall_forall.
  - intros i Hi. apply filter_In in Hi as [Hi Hp]. apply filter_In in Hi as [_ Hg].
    split; [now apply Z.leb_le|].
    unfold Qc.pct_counts_mt_below in Hp. apply andb_true_iff in Hp as [H0 H1].
    split; [now apply N.ltb_lt in H0 | now apply N.ltb_lt in H1].
  - intros g Hg. apply filter_In in Hg as [_ Hg]. now apply Z.leb_le.
Qed.

(** C3, as stated, fails: of the three cells the first is dropped for
    its mitochondrial fraction, and the mitochondrial gene, kept for its
    three cells, is then detected in two retained cells only. *)
Lemma retained_gene_in_two_cells :
  Qc.obs_idx (Qc.quality_filter Qc.three_cells) = [1; 2]%nat /\
  In 200%nat (Qc.var_idx (Qc.quality_filter Qc.three_cells)) /\
  Qc.n_cells (Qc.quality_filter Qc.three_cells) 200 = 2%Z /\
  Qc.n_cells (Qc.filter_cells 200 Qc.three_cells) 200 = 3%Z.
Proof.
  assert (E : Qc.var_idx (Qc.quality_filter Qc.three_cells) = seq 0 201)
    by (vm_compute; reflexivity).
  rewrite E. repeat split; try (vm_compute; reflexivity).
  apply in_seq. lia.
Qed.

(** ** Arrays *)

Lemma upd_length {A} (l : list A) i v : List.length (upd l i v) = List.length l.
Proof.
  revert i; induction l as [|h t IH]; intros [|i]; simpl; auto.
Qed.

Lemma nth_upd {A} (l : list A) i j v d :
  nth j (upd l i v) d
  = if ((i =? j) && (i <? List.length l))%nat then v else nth j l d.
Proof.
  revert i j; induction l as [|h t IH]; intros i j; simpl.
  - destruct i, j; simpl; rewrite ?andb_false_r; reflexivity.
  - destruct i, j; simpl; auto.
Qed.

Lemma upd_overflow {A} (l : list A) i v : (List.length l <= i)%nat -> upd l i v = l.
Proof.
  revert i; induction l as [|h t IH]; intros [|i] H; simpl in *; auto; try lia.
  f_equal. apply IH. lia.
Qed.

Lemma nth_repeat_lt {A} (a d : A) n i : (i < n)%nat -> nth i (repeat a n) d = a.
Proof.
  revert i; induction n as [|n IH]; intros [|i] H; simpl; auto; try lia.
  apply IH. lia.
Qed.

Lemma nth_map_lt {A B} (f : A -> B) l i d d' :
  (i < List.length l)%nat -> nth i (map f l) d = f (nth i l d').
Proof.
  revert i; induction l as [|h t IH]; intros [|i] H; simpl in *; auto; try lia.
  apply IH. lia.
Qed.

Lemma map2_length {A B C} (f : A -> B -> C) la lb :
  List.length (map2 f la lb) = Nat.min (List.length la) (List.length lb).
Proof.
  revert lb; induction la as [|a la IH]; intros [|b lb]; simpl; auto.
Qed.

Lemma nth_map2 {A B C} (f : A -> B -> C) la lb i d da db :
  (i < List.length la)%nat -> (i < List.length lb)%nat ->
  nth i (map2 f la lb) d = f (nth i la da) (nth i lb db).
Proof.
  revert lb i; induction la as [|a la IH]; intros [|b lb] [|i] Ha Hb;
    simpl in *; auto; try lia.
  apply IH; lia.
Qed.

Lemma fold_left_invariant {A B} (P : A -> Prop) (f : A -> B -> A) l a :
  (forall acc x, In x l -> P acc -> P (f acc x)) -> P a -> P (fold_left f l a).
Proof.
  revert a; induction l as [|x l IH]; simpl; intros a Hf Ha; auto.
Qed.

Lemma square_row {A} n (m : matrix A) x :
  square n m -> (x < n)%nat -> List.length (nth x m []) = n.
Proof.
  intros [Hl Hr] Hx. rewrite Forall_forall in Hr. apply Hr, nth_In. lia.
Qed.

Lemma square_mzeros {A} (z : A) n : square n (mzeros z n).
Proof.
  unfold square, mzeros. rewrite repeat_length. split; [reflexivity|].
  apply Forall_forall. intros row Hr. apply repeat_spec in Hr. subst.
  apply repeat_length.
Qed.

Lemma mget_mzeros {A} (z d : A) n x y :
  (x < n)%nat -> (y < n)%nat -> mget d (mzeros z n) x y = z.
Proof.
  intros Hx Hy. unfold mget, mzeros.
  rewrite (nth_repeat_lt _ _ n x Hx). now apply nth_repeat_lt.
Qed.

Lemma Forall_upd {A} (P : A -> Prop) l i v : Forall P l -> P v -> Forall P (upd l i v).
Proof.
  intros Hl Hv. revert i; induction Hl as [|h t Hh Ht IH]; intros [|i]; simpl;
    constructor; auto.
Qed.

Lemma square_mset {A} n (m : matrix A) x y v : square n m -> square n (mset m x y v).
Proof.
  intros [Hl Hr]. unfold mset.
  destruct (Nat.lt_ge_cases x (List.length m)) as [Hx|Hx].
  - split; [now rewrite upd_length|].
    apply Forall_upd; [assumption|]. rewrite upd_length.
    rewrite Forall_forall in Hr. apply Hr, nth_In, Hx.
  - rewrite upd_overflow by assumption. now split.
Qed.

Lemma mget_mzeros_false n x y : mget false (mzeros false n) x y = false.
Proof.
  unfold mget, mzeros.
  destruct (Nat.lt_ge_cases x n) as [Hx|Hx].
  - rewrite (nth_repeat_lt _ _ n x Hx).
    destruct (Nat.lt_ge_cases y n) as [Hy|Hy].
    + now apply nth_repeat_lt.
    + apply nth_overflow. now rewrite repeat_length.
  - rewrite (nth_overflow (repeat _ _)) by now rewrite repeat_length.
    now destruct y.
Qed.

Lemma mget_mset_true m a b x y :
  mget false (mset m a b true) x y = true ->
  (a = x /\ b = y) \/ mget false m x y = true.
Proof.
  unfold mget, mset. rewrite nth_upd.
  destruct ((a =? x)%nat && (a <? List.length m)%nat) eqn:E.
  - apply andb_true_iff in E as [E _]. apply Nat.eqb_eq in E. subst x.
    rewrite nth_upd.
    destruct ((b =? y)%nat && _) eqn:F; [|now right].
    apply andb_true_iff in F as [F _]. apply Nat.eqb_eq in F. now left.
  - now right.
Qed.

(** ** The co-occurrence arrays of one subsample *)

Lemma mark_within n s cluster acc i j :
  (i < List.length s)%nat -> (j < List.length s)%nat ->
  marks_within n s acc ->
  marks_within n s (Search.mark s cluster acc i j).
Proof.
  intros Hi Hj (S1 & S2 & H). unfold Search.mark, marks_within. simpl.
  assert (Hx : In (nth i s O) s) by now apply nth_In.
  assert (Hy : In (nth j s O) s) by now apply nth_In.
  split; [now apply square_mset|].
  split; [destruct (String.eqb _ _); [now apply square_mset | assumption]|].
  intros x y [M | M].
  - apply mget_mset_true in M as [[<- <-] | M]; auto.
  - destruct (String.eqb _ _); [|now auto].
    apply mget_mset_true in M as [[<- <-] | M]; auto.
Qed.

Lemma subsample_clustering_within L adata n k r s :
  List.length s = k ->
  marks_within n s (Search.subsample_clustering L adata n k r s).
Proof.
  intros Hk. unfold Search.subsample_clustering.
  apply fold_left_invariant.
  - intros acc i Hi Hacc. apply in_seq in Hi.
    apply fold_left_invariant; [|assumption].
    intros acc' j Hj Hacc'. apply in_seq in Hj.
    apply mark_within; [lia | lia | assumption].
  - split; [apply square_mzeros|]. split; [apply square_mzeros|].
    simpl. intros x y [M | M]; rewrite mget_mzeros_false in M; discriminate.
Qed.

(** ** Sums of indicator arrays *)

Lemma madd_square n acc m :
  square n acc -> square n m -> square n (Search.madd acc m).
Proof.
  intros [La Ra] [Lm Rm]. unfold Search.madd. split.
  - rewrite map2_length. lia.
  - apply Forall_forall. intros row Hr.
    destruct (In_nth _ _ [] Hr) as (i & Hi & <-).
    rewrite map2_length in Hi.
    rewrite (nth_map2 _ _ _ _ _ [] []) by lia.
    rewrite map2_length.
    rewrite (square_row n acc i), (square_row n m i); try (split; assumption); lia.
Qed.

Lemma mget_madd n acc m x y :
  square n acc -> square n m -> (x < n)%nat -> (y < n)%nat ->
  mget 0%Z (Search.madd acc m) x y
  = (mget 0%Z acc x y + (if mget false m x y then 1 else 0))%Z.
Proof.
  intros Sa Sm Hx Hy. unfold mget, Search.madd.
  rewrite (nth_map2 _ _ _ _ _ [] []) by (destruct Sa, Sm; lia).
  rewrite (nth_map2 _ _ _ _ _ 0%Z false); [reflexivity | |].
  - now rewrite (square_row n acc x).
  - now rewrite (square_row n m x).
Qed.

Lemma msum_from_zero n ms x y acc :
  (x < n)%nat -> (y < n)%nat ->
  Forall (square n) ms ->
  Forall (fun m => mget false m x y = false) ms ->
  square n acc -> mget 0%Z acc x y = 0%Z ->
  square n (fold_left Search.madd ms acc) /\
  mget 0%Z (fold_left Search.madd ms acc) x y = 0%Z.
Proof.
  intros Hx Hy Hs. revert acc.
  induction Hs as [|m ms Sm _ IH]; intros acc Hf Sa Za; simpl; [now split|].
  inversion Hf as [|? ? Fm Fms]; subst.
  apply IH; [assumption | now apply madd_square |].
  rewrite (mget_madd n) by assumption. rewrite Za, Fm. reflexivity.
Qed.

Lemma msum_square n ms : Forall (square n) ms -> square n (Search.msum n ms).
Proof.
  intros Hs. unfold Search.msum. generalize (square_mzeros 0%Z n).
  generalize (mzeros 0%Z n) as acc.
  induction Hs as [|m ms Sm _ IH]; intros acc Sa; simpl; [assumption|].
  apply IH. now apply madd_square.
Qed.

Lemma mget_sentinel n m x y :
  square n m -> (x < n)%nat -> (y < n)%nat ->
  mget 0%Z (Search.sentinel m) x y
  = (if (mget 0 m x y =? 0)%Z then 1000000 else mget 0 m x y)%Z.
Proof.
  intros Sm Hx Hy. unfold mget, Search.sentinel.
  rewrite (nth_map_lt _ _ _ _ []) by (destruct Sm; lia).
  rewrite (nth_map_lt _ _ _ _ 0%Z); [reflexivity|].
  now rewrite (square_row n m x).
Qed.

Lemma sentinel_square n m : square n m -> square n (Search.sentinel m).
Proof.
  intros [Lm Rm]. unfold Search.sentinel. split; [now rewrite length_map|].
  apply Forall_map. revert Rm. apply Forall_impl. intros row <-. apply length_map.
Qed.

(** ** The derived distance *)

Lemma nth_enumerate {A} (l : list A) i d :
  (i < List.length l)%nat -> nth i (enumerate l) (O, d) = (i, nth i l d).
Proof.
  intros Hi. unfold enumerate. rewrite combine_nth by apply length_seq.
  now rewrite seq_nth.
Qed.

Lemma results_square L adata n k r subsamples :
  Forall (fun res => square n (fst res) /\ square n (snd res))
         (map (Search.subsample_clustering L adata n k r) subsamples).
Proof.
  apply Forall_map, Forall_forall. intros s _.
  unfold Search.subsample_clustering.
  apply fold_left_invariant with (P := fun acc => square n (fst acc) /\ square n (snd acc)).
  - intros acc i _ Hacc. apply fold_left_invariant; [|assumption].
    intros [a b] j _ [Sa Sb]. unfold Search.mark. simpl.
    split; [now apply square_mset|].
    destruct (String.eqb _ _); [now apply square_mset | assumption].
  - split; apply square_mzeros.
Qed.

Lemma distance_entry n (results : list (matrix bool * matrix bool)) x y :
  Forall (fun res => square n (fst res) /\ square n (snd res)) results ->
  (x < n)%nat -> (y < n)%nat ->
  mget 0%float (Search.distance_matrix n results) x y
  = if (x =? y)%nat then 0%float
    else (1 - Np.of_Z (mget 0%Z (Search.msum n (map snd results)) x y)
              / Np.of_Z (mget 0%Z (Search.sentinel (Search.msum n (map fst results))) x y))%float.
Proof.
  intros Hr Hx Hy.
  assert (S1 : square n (Search.sentinel (Search.msum n (map fst results)))).
  { apply sentinel_square, msum_square, Forall_map.
    revert Hr. apply Forall_impl. tauto. }
  assert (S2 : square n (Search.msum n (map snd results))).
  { apply msum_square, Forall_map. revert Hr. apply Forall_impl. tauto. }
  unfold Search.distance_matrix.
  set (C := Search.msum n (map snd results)) in *.
  set (S := Search.sentinel _) in *.
  assert (LD : List.length (Search.one_minus_ratio C S) = n).
  { unfold Search.one_minus_ratio. rewrite map2_length. destruct S1, S2. lia. }
  assert (RD : nth x (Search.one_minus_ratio C S) []
               = map2 (fun c s => (1 - Np.of_Z c / Np.of_Z s)%float) (nth x C []) (nth x S [])).
  { unfold Search.one_minus_ratio. apply nth_map2; destruct S1, S2; lia. }
  unfold mget at 1. unfold Search.fill_diagonal.
  rewrite (nth_map_lt _ _ _ _ (O, [])) by (unfold enumerate; rewrite length_combine, length_seq; lia).
  rewrite nth_enumerate by lia. simpl. rewrite nth_upd, RD, map2_length.
  rewrite (square_row n C x), (square_row n S x), Nat.min_id by assumption.
  destruct (Nat.eqb_spec x y) as [->|Hxy]; simpl.
  - apply Nat.ltb_lt in Hy. now rewrite Hy.
  - unfold mget. rewrite (nth_map2 _ _ _ _ _ 0%Z 0%Z); [reflexivity | |].
    + now rewrite (square_row n C x).
    + now rewrite (square_row n S x).
Qed.

Lemma never_together_unmarked L adata n k r subsamples x y :
  Forall (fun s => List.length s = k) subsamples ->
  (forall s, In s subsamples -> In x s -> In y s -> False) ->
  let results := map (Search.subsample_clustering L adata n k r) subsamples in
  Forall (fun m => mget false m x y = false) (map fst results) /\
  Forall (fun m => mget false m x y = false) (map snd results).
Proof.
  intros Hk Hn. simpl. rewrite !map_map.
  split; apply Forall_map, Forall_forall; intros s Hs;
    rewrite Forall_forall in Hk;
    destruct (subsample_clustering_within L adata n k r s (Hk s Hs)) as (_ & _ & H);
    match goal with |- ?b = false => destruct b eqn:E; [|reflexivity] end;
    exfalso; destruct (H x y) as [Hx Hy]; eauto.
Qed.

(** C4.  For two distinct cells that no subsample of a candidate holds
    together, the co-occurrence count is 0 and is replaced by the sentinel
    1000000, the distance is 1 minus the co-clustering count over 1e6,
    which is 1 exactly and so within 5e-6 of 1; and every diagonal entry
    of the distance matrix is 0. *)
Theorem never_together_distance (L : Library) adata n k r subsamples x y :
  (x < n)%nat -> (y < n)%nat -> x <> y ->
  Forall (fun s => List.length s = k) subsamples ->
  (forall s, In s subsamples -> In x s -> In y s -> False) ->
  let results := map (Search.subsample_clustering L adata n k r) subsamples in
  let coclustering := mget 0%Z (Search.msum n (map snd results)) x y in
  let distance := Search.distance_matrix n results in
  mget 0%Z (Search.msum n (map fst results)) x y = 0%Z /\
  mget 0%Z (Search.sentinel (Search.msum n (map fst results))) x y = 1000000%Z /\
  mget 0%float distance x y = (1 - Np.of_Z coclustering / 1000000)%float /\
  coclustering = 0%Z /\
  mget 0%float distance x y = 1%float /\
  (abs (mget 0 distance x y - 1) <=? 5e-6)%float = true /\
  (forall z, (z < n)%nat -> mget 0%float distance z z = 0%float).
Proof.
  intros Hx Hy Hxy Hk Hn results coclustering distance.
  pose proof (results_square L adata n k r subsamples) as Sq. fold results in Sq.
  destruct (never_together_unmarked L adata n k r subsamples x y Hk Hn) as [U1 U2].
  fold results in U1, U2.
  assert (Sf : Forall (square n) (map fst results))
    by (apply Forall_map; revert Sq; apply Forall_impl; tauto).
  assert (Ss : Forall (square n) (map snd results))
    by (apply Forall_map; revert Sq; apply Forall_impl; tauto).
  destruct (msum_from_zero n (map fst results) x y (mzeros 0%Z n) Hx Hy Sf U1
              (square_mzeros _ _) (mget_mzeros _ _ _ _ _ Hx Hy)) as [Q1 Z1].
  destruct (msum_from_zero n (map snd results) x y (mzeros 0%Z n) Hx Hy Ss U2
              (square_mzeros _ _) (mget_mzeros _ _ _ _ _ Hx Hy)) as [Q2 Z2].
  fold (Search.msum n (map fst results)) in Q1, Z1.
  fold (Search.msum n (map snd results)) in Q2, Z2. fold coclustering in Z2.
  assert (S1 : mget 0%Z (Search.sentinel (Search.msum n (map fst results))) x y = 1000000%Z)
    by (rewrite (mget_sentinel n) by assumption; now rewrite Z1).
  assert (D : mget 0%float distance x y = (1 - Np.of_Z coclustering / 1000000)%float).
  { unfold distance. rewrite distance_entry by assumption.
    apply Nat.eqb_neq in Hxy. rewrite Hxy, S1. reflexivity. }
  repeat split; try assumption.
  - rewrite D, Z2. reflexivity.
  - rewrite D, Z2. reflexivity.
  - intros z Hz. unfold distance. rewrite distance_entry by assumption.
    now rewrite Nat.eqb_refl.
Qed.

(** C4 at work: five cells, the two subsamples above, cells 0 and 4. *)
Lemma never_together_distance_witness :
  mget 0%float
       (Search.distance_matrix 5
          (map (Search.subsample_clustering toy stored5 5 4 0.6) two_subsamples))
       0 4 = 1%float.
Proof.
  refine (proj1 (proj2 (proj2 (proj2 (proj2
    (never_together_distance toy stored5 5 4 0.6%float two_subsamples 0 4 _ _ _ _ _)))))).
  - lia.
  - lia.
  - discriminate.
  - repeat constructor.
  - intros s [<- | [<- | []]] H0 H4; simpl in H0, H4; intuition discriminate.
Defined.

(** ** Tables *)

Lemma get_set_same {V} (t : table V) k v : get_col (set_col t k v) k = Ok v.
Proof.
  induction t as [|[k' v'] t IH]; simpl.
  - now rewrite String.eqb_refl.
  - destruct (String.eqb_spec k' k) as [->|N]; simpl.
    + now rewrite String.eqb_refl.
    + apply String.eqb_neq in N. now rewrite N.
Qed.

Lemma get_set_other {V} (t : table V) k k' v :
  k <> k' -> get_col (set_col t k v) k' = get_col t k'.
Proof.
  intros N. induction t as [|[k0 v0] t IH]; simpl.
  - apply String.eqb_neq in N. now rewrite N.
  - destruct (String.eqb_spec k0 k) as [->|N0]; simpl.
    + apply String.eqb_neq in N. now rewrite N.
    + now rewrite IH.
Qed.

Lemma get_fold_other {V A} (key : A -> string) (val : A -> V) rs t k :
  ~ In k (map key rs) ->
  get_col (fold_left (fun t r => set_col t (key r) (val r)) rs t) k = get_col t k.
Proof.
  revert t; induction rs as [|r rs IH]; simpl; intros t N; [reflexivity|].
  rewrite IH by tauto. apply get_set_other. tauto.
Qed.

Lemma get_fold_set {V A} (key : A -> string) (val : A -> V) rs t r :
  NoDup (map key rs) -> In r rs ->
  get_col (fold_left (fun t r => set_col t (key r) (val r)) rs t) (key r) = Ok (val r).
Proof.
  revert t; induction rs as [|r0 rs IH]; simpl; intros t D I; [contradiction|].
  destruct I as [E | I].
  - subst r0. inversion D; subst. rewrite get_fold_other by assumption.
    apply get_set_same.
  - inversion D; subst. now apply IH.
Qed.

(** ** Order of doubles *)

Lemma SFleb_refl a : a <> S754_nan -> SFleb a a = true.
Proof.
  unfold SFleb, SFcompare.
  destruct a as [[]|[]| |[] m e]; intros H; try reflexivity; try congruence;
    rewrite Z.compare_refl, Pos.compare_cont_refl; reflexivity.
Qed.

Lemma SFleb_total a b :
  a <> S754_nan -> b <> S754_nan -> SFleb a b = false -> SFleb b a = true.
Proof.
  unfold SFleb, SFcompare.
  destruct a as [[]|[]| |[] ma ea], b as [[]|[]| |[] mb eb]; intros Ha Hb;
    try reflexivity; try congruence; try discriminate;
    change (Pos.compare_cont Eq) with Pos.compare;
    destruct (Z.compare_spec ea eb), (Z.compare_spec eb ea);
    subst; try lia; try reflexivity; try discriminate;
    destruct (Pos.compare_spec ma mb), (Pos.compare_spec mb ma);
    subst; simpl; try lia; try reflexivity; try discriminate.
Qed.

Lemma SFleb_trans a b c : SFleb a b = true -> SFleb b c = true -> SFleb a c = true.
Proof.
  unfold SFleb, SFcompare.
  destruct a as [[]|[]| |[] ma ea], b as [[]|[]| |[] mb eb], c as [[]|[]| |[] mc ec];
    try reflexivity; try discriminate;
    change (Pos.compare_cont Eq) with Pos.compare;
    destruct (Z.compare_spec ea eb), (Z.compare_spec eb ec), (Z.compare_spec ea ec);
    subst; try lia; try reflexivity; try discriminate;
    destruct (Pos.compare_spec ma mb), (Pos.compare_spec mb mc), (Pos.compare_spec ma mc);
    subst; simpl; try lia; try reflexivity; try discriminate.
Qed.

Lemma not_nan_spec x : is_nan x = false -> Prim2SF x <> S754_nan.
Proof.
  unfold is_nan. rewrite eqb_spec. intros H E. rewrite E in H. discriminate.
Qed.

Lemma leb_refl x : is_nan x = false -> (x <=? x)%float = true.
Proof. intros H. rewrite leb_spec. now apply SFleb_refl, not_nan_spec. Qed.

Lemma leb_total x y :
  is_nan x = false -> is_nan y = false ->
  (x <=? y)%float = false -> (y <=? x)%float = true.
Proof.
  rewrite !leb_spec. intros Hx Hy. now apply SFleb_total; apply not_nan_spec.
Qed.

Lemma leb_trans x y z :
  (x <=? y)%float = true -> (y <=? z)%float = true -> (x <=? z)%float = true.
Proof. rewrite !leb_spec. apply SFleb_trans. Qed.

(** ** [np.argmax] *)

Lemma argmax_from_bound xs i mp best :
  (best < i)%nat -> (Np.argmax_from xs i mp best < i + List.length xs)%nat.
Proof.
  revert i mp best; induction xs as [|x xs IH]; simpl; intros i mp best H; [lia|].
  destruct (is_nan mp); [lia|].
  destruct (x <=? mp)%float.
  - specialize (IH (S i) mp best). lia.
  - specialize (IH (S i) x i). lia.
Qed.

Lemma argmax_from_max pre xs mp best :
  (best < List.length pre)%nat -> nth best pre nan = mp ->
  Forall (fun v => is_nan v = false) (pre ++ xs) ->
  Forall (fun v => (v <=? mp)%float = true) pre ->
  Forall (fun v => (v <=? nth (Np.argmax_from xs (List.length pre) mp best) (pre ++ xs) nan)%float = true)
         (pre ++ xs).
Proof.
  revert pre mp best; induction xs as [|x xs IH]; simpl; intros pre mp best Hb Hm Hn Hp.
  - rewrite app_nil_r in *. now rewrite Hm.
  - assert (Nm : is_nan mp = false).
    { rewrite Forall_forall in Hn. apply Hn. apply in_or_app. left.
      rewrite <- Hm. now apply nth_In. }
    assert (Nx : is_nan x = false).
    { rewrite Forall_forall in Hn. apply Hn. apply in_or_app. right. now left. }
    rewrite Nm.
    replace (pre ++ x :: xs) with ((pre ++ [x]) ++ xs) in * by now rewrite <- app_assoc.
    replace (S (List.length pre)) with (List.length (pre ++ [x]))
      by (rewrite length_app; simpl; lia).
    destruct (x <=? mp)%float eqn:E.
    + apply IH; try assumption.
      * rewrite length_app. lia.
      * now rewrite app_nth1.
      * apply Forall_app. split; [assumption | now constructor].
    + apply IH; try assumption.
      * rewrite length_app. simpl. lia.
      * rewrite app_nth2 by lia. now rewrite Nat.sub_diag.
      * apply Forall_app. split; [|constructor; [now apply leb_refl | constructor]].
        revert Hp. apply Forall_impl. intros v Hv.
        apply (leb_trans v mp x); [assumption | now apply leb_total].
Qed.

Lemma argmax_is_max xs i :
  Np.argmax xs = Some i ->
  (i < List.length xs)%nat /\
  (Forall (fun v => is_nan v = false) xs ->
   Forall (fun v => (v <=? nth i xs nan)%float = true) xs).
Proof.
  destruct xs as [|x xs]; simpl; [discriminate|]. intros [= <-]. split.
  - pose proof (argmax_from_bound xs 1 x 0). lia.
  - intros Hn. apply (argmax_from_max [x] xs x 0); simpl; auto.
    constructor; [|constructor]. apply leb_refl. now inversion Hn.
Qed.

(** ** The resolution grid *)

Lemma resolutions_values :
  Search.resolutions = [0.4; 0.6; 0.8; 1; 1.2; 1.4]%float.
Proof. vm_compute. reflexivity. Qed.

Lemma resolutions_rounded : map Np.round1 Search.resolutions = Search.resolutions.
Proof. vm_compute. reflexivity. Qed.

Lemma keys_values :
  map Search.key Search.resolutions
  = ["louvain_r0.4"; "louvain_r0.6"; "louvain_r0.8";
     "louvain_r1.0"; "louvain_r1.2"; "louvain_r1.4"].
Proof. vm_compute. reflexivity. Qed.

(** The printing model on values of both notations. *)
Example str_samples :
  map Np.str [0.1 + 0.2; 0.05; 100; 1e16; 1e-5; 0.0001; -2.5; 0.6000000000000001]%float
  = ["0.30000000000000004"; "0.05"; "100.0"; "1e+16"; "1e-05"; "0.0001"; "-2.5";
     "0.6000000000000001"].
Proof. vm_compute. reflexivity. Qed.

(** [int(sample_n * 0.8)] *)
Example subsample_sizes :
  map (fun n => Search.int_of_float (Np.of_nat n * Search.subset)) [5; 10; 15; 2700]%nat
  = [4; 8; 12; 2160]%nat.
Proof. vm_compute. reflexivity. Qed.

Lemma keys_distinct : NoDup (map Search.key Search.resolutions).
Proof.
  rewrite keys_values.
  repeat (constructor; [simpl; intuition discriminate|]). constructor.
Qed.

Lemma map_fixed {A} (f : A -> A) l x : map f l = l -> In x l -> f x = x.
Proof.
  induction l as [|a l IH]; simpl; [contradiction|].
  intros [= Ha Hl] [<- | I]; auto.
Qed.

Lemma round1_resolution r : In r Search.resolutions -> Np.round1 r = r.
Proof. apply map_fixed, resolutions_rounded. Qed.

Lemma map_snd_combine_seq {A} (l : list A) s :
  map snd (combine (seq s (List.length l)) l) = l.
Proof.
  revert s; induction l as [|a l IH]; simpl; intros s; [reflexivity|].
  now rewrite IH.
Qed.

(** ** The search loop *)

Lemma candidate_scored L cpus n k st ir :
  (1 <= cpus)%Z ->
  Search.candidate L cpus n k st ir = Ok (Search.scored L n k st ir).
Proof.
  intros H. unfold Search.candidate, Search.scored.
  destruct (Search.draw L Search.rep_n (Search.generator st) n k) as [ss g].
  unfold Search.pool_map. destruct (Z.ltb_spec cpus 1) as [C|_]; [lia|].
  cbn [bind fst snd].
  change (obs (sc_louvain L (Search.adata st) (Np.round1 (snd ir))
                          (Search.key (Np.round1 (snd ir)))))
    with (set_col (obs (Search.adata st)) (Search.key (Np.round1 (snd ir)))
                  (louvain_labels L (Search.adata st) (Np.round1 (snd ir)))).
  rewrite get_set_same. reflexivity.
Qed.

Lemma search_loop L cpus n k irs st :
  (1 <= cpus)%Z ->
  for_each (Search.candidate L cpus n k) irs st
  = Ok (fold_left (Search.scored L n k) irs st).
Proof.
  intros H. revert st; induction irs as [|ir irs IH]; intros st; simpl; [reflexivity|].
  rewrite candidate_scored by assumption. apply IH.
Qed.

Lemma scored_cells L n k irs st :
  cells (Search.adata (fold_left (Search.scored L n k) irs st)) = cells (Search.adata st).
Proof.
  revert st; induction irs as [|ir irs IH]; intros st; simpl; [reflexivity|].
  now rewrite IH.
Qed.

Lemma scored_length L n k irs st :
  List.length (Search.silhouette_avg (fold_left (Search.scored L n k) irs st))
  = List.length (Search.silhouette_avg st).
Proof.
  revert st; induction irs as [|ir irs IH]; intros st; simpl; [reflexivity|].
  rewrite IH. apply upd_length.
Qed.

Lemma scored_obs L n k irs st :
  obs (Search.adata (fold_left (Search.scored L n k) irs st))
  = fold_left (fun t r => set_col t (Search.key (Np.round1 r))
                                  (louvain_labels L (Search.adata st) (Np.round1 r)))
              (map snd irs) (obs (Search.adata st)).
Proof.
  revert st; induction irs as [|ir irs IH]; intros st; simpl; [reflexivity|].
  exact (IH (Search.scored L n k st ir)).
Qed.

Lemma draw_add L a b g n k :
  Search.draw L (a + b) g n k
  = (fst (Search.draw L a g n k)
       ++ fst (Search.draw L b (snd (Search.draw L a g n k)) n k),
     snd (Search.draw L b (snd (Search.draw L a g n k)) n k)).
Proof.
  revert g; induction a as [|a IH]; intros g; simpl.
  - now destruct (Search.draw L b g n k).
  - destruct (choice L g n k) as [s g1]. rewrite IH.
    destruct (Search.draw L a g1 n k) as [ss g2]. reflexivity.
Qed.

Lemma scored_generator L n k irs st :
  Search.generator (fold_left (Search.scored L n k) irs st)
  = snd (Search.draw L (Search.rep_n * List.length irs) (Search.generator st) n k).
Proof.
  revert st; induction irs as [|ir irs IH]; intros st.
  - rewrite Nat.mul_0_r. reflexivity.
  - cbn [fold_left List.length]. rewrite IH.
    replace (Search.rep_n * S (List.length irs))%nat
      with (Search.rep_n + Search.rep_n * List.length irs)%nat by lia.
    rewrite draw_add. reflexivity.
Qed.

Lemma scored_scores_before L n k rs : forall s st i,
  (i < s)%nat ->
  nth i (Search.silhouette_avg
           (fold_left (Search.scored L n k) (combine (seq s (List.length rs)) rs) st)) nan
  = nth i (Search.silhouette_avg st) nan.
Proof.
  induction rs as [|r rs IH]; intros s st i Hi; simpl; [reflexivity|].
  rewrite IH by lia. cbn [Search.silhouette_avg Search.scored fst].
  rewrite nth_upd. destruct (Nat.eqb_spec s i); [lia | reflexivity].
Qed.

Lemma scored_scores L n k rs : forall s st j,
  (j < List.length rs)%nat ->
  (s + List.length rs <= List.length (Search.silhouette_avg st))%nat ->
  exists distance,
    nth (s + j) (Search.silhouette_avg
                   (fold_left (Search.scored L n k) (combine (seq s (List.length rs)) rs) st)) nan
    = silhouette_score L distance (louvain_labels L (Search.adata st) (Np.round1 (nth j rs nan))).
Proof.
  induction rs as [|r rs IH]; intros s st j Hj Hl; simpl in Hj, Hl; [lia|].
  cbn [List.length seq combine fold_left].
  destruct j as [|j].
  - rewrite Nat.add_0_r, scored_scores_before by lia.
    cbn [Search.silhouette_avg Search.scored fst snd nth].
    rewrite nth_upd, Nat.eqb_refl.
    destruct (Nat.ltb_spec s (List.length (Search.silhouette_avg st))); [|lia].
    eexists. reflexivity.
  - replace (s + S j)%nat with (S s + j)%nat by lia.
    destruct (IH (S s) (Search.scored L n k st (s, r)) j) as [d Hd]; [lia | |].
    + cbn [Search.silhouette_avg Search.scored]. rewrite upd_length. lia.
    + exists d. exact Hd.
Qed.

(** The search as a whole, when the pool can start: every candidate is
    scored, the cells are untouched, the generator has advanced by the
    thirty draws that follow the seed, and each candidate's labels are
    found under the key printed from the unrounded grid value. *)
Lemma search_scored L cpus g0 adata0 :
  (1 <= cpus)%Z ->
  let n := List.length (cells adata0) in
  let k := Search.int_of_float (Np.of_nat n * Search.subset) in
  exists st,
    Search.search L cpus g0 adata0 = Ok st /\
    cells (Search.adata st) = cells adata0 /\
    List.length (Search.silhouette_avg st) = 6%nat /\
    Search.generator st = snd (Search.draw L 30 (seed L 1) n k) /\
    (forall r, In r Search.resolutions ->
       get_col (obs (Search.adata st)) (Search.key r)
       = Ok (louvain_labels L adata0 (Np.round1 r))) /\
    (forall j, (j < 6)%nat -> exists distance,
       nth j (Search.silhouette_avg st) nan
       = silhouette_score L distance
           (louvain_labels L adata0 (Np.round1 (nth j Search.resolutions nan)))).
Proof.
  intros H n k. eexists. unfold Search.search. fold n k.
  rewrite search_loop by assumption. split; [reflexivity|].
  rewrite scored_cells, scored_length, scored_generator, scored_obs.
  unfold enumerate. rewrite map_snd_combine_seq, length_combine, length_seq, Nat.min_id.
  cbn [Search.adata Search.silhouette_avg Search.generator].
  rewrite repeat_length.
  split; [reflexivity|]. split; [now rewrite resolutions_values|].
  split; [now rewrite resolutions_values|].
  split.
  2:{ intros j Hj.
      pose proof (scored_scores L n k Search.resolutions O
                    {| Search.generator := seed L 1; Search.adata := adata0;
                       Search.silhouette_avg :=
                         repeat 0%float (List.length Search.resolutions) |} j) as Q.
      cbn [Search.adata Search.silhouette_avg Nat.add] in Q. apply Q.
      - now rewrite resolutions_values.
      - rewrite repeat_length. lia. }
  intros r Hr. rewrite <- (round1_resolution r Hr) at 1.
  apply (get_fold_set (fun r => Search.key (Np.round1 r))
                      (fun r => louvain_labels L adata0 (Np.round1 r))); [|assumption].
  rewrite <- (map_map Np.round1 Search.key), resolutions_rounded. apply keys_distinct.
Qed.

Lemma select_scored L (st : Search.State L) adata0 :
  cells (Search.adata st) = cells adata0 ->
  List.length (Search.silhouette_avg st) = 6%nat ->
  (forall r, In r Search.resolutions ->
     get_col (obs (Search.adata st)) (Search.key r)
     = Ok (louvain_labels L adata0 (Np.round1 r))) ->
  exists i,
    Np.argmax (Search.silhouette_avg st) = Some i /\ (i < 6)%nat /\
    Search.select L st
    = Ok (nth i Search.resolutions nan,
          {| cells := cells adata0;
             obs := set_col (obs (Search.adata st)) "louvain"
                      (louvain_labels L adata0 (Np.round1 (nth i Search.resolutions nan))) |}).
Proof.
  intros Hc Hl Hg. unfold Search.select.
  destruct (Np.argmax (Search.silhouette_avg st)) as [i|] eqn:E.
  - destruct (argmax_is_max _ _ E) as [Hi _]. rewrite Hl in Hi.
    exists i. split; [reflexivity|]. split; [assumption|].
    rewrite Hg by (apply nth_In; now rewrite resolutions_values).
    cbn [bind]. now rewrite Hc.
  - destruct (Search.silhouette_avg st); [discriminate Hl | discriminate E].
Qed.

(** C1.  When the pool can start, all six candidates are scored: the
    score at each position is a silhouette of the full-data labels at that
    candidate.  The position of the first maximum is selected (no score
    being NaN, every score is at most the selected one); the labels of
    each candidate are found under the key printed from the grid value;
    and the final ['louvain'] column holds the labels computed for the
    full data at the selected candidate. *)
Theorem best_resolution_selected (L : Library) cpus g0 adata0 :
  (1 <= cpus)%Z ->
  exists st i final,
    Search.search L cpus g0 adata0 = Ok st /\
    (forall j, (j < 6)%nat -> exists distance,
       nth j (Search.silhouette_avg st) nan
       = silhouette_score L distance
           (louvain_labels L adata0 (Np.round1 (nth j Search.resolutions nan)))) /\
    Np.argmax (Search.silhouette_avg st) = Some i /\ (i < 6)%nat /\
    (Forall (fun v => is_nan v = false) (Search.silhouette_avg st) ->
     Forall (fun v => (v <=? nth i (Search.silhouette_avg st) nan)%float = true)
            (Search.silhouette_avg st)) /\
    (forall r, In r Search.resolutions ->
       get_col (obs (Search.adata st)) (Search.key r)
       = Ok (louvain_labels L adata0 (Np.round1 r))) /\
    Search.auto_resolution L cpus g0 adata0 = Ok (nth i Search.resolutions nan, final) /\
    get_col (obs final) "louvain"
    = Ok (louvain_labels L adata0 (Np.round1 (nth i Search.resolutions nan))).
Proof.
  intros H.
  destruct (search_scored L cpus g0 adata0 H) as (st & Hs & Hc & Hl & _ & Hg & Hsc).
  destruct (select_scored L st adata0 Hc Hl Hg) as (i & Ha & Hi & Hsel).
  exists st, i. eexists. split; [exact Hs|]. split; [exact Hsc|].
  split; [exact Ha|]. split; [exact Hi|].
  split; [apply (argmax_is_max _ _ Ha)|]. split; [exact Hg|].
  split.
  - unfold Search.auto_resolution. rewrite Hs. cbn [bind]. exact Hsel.
  - cbn [obs]. apply get_set_same.
Qed.

(** C1 at work on the stand-in library: one process, five cells. *)
Lemma best_resolution_selected_witness :
  exists st i final,
    Search.search toy 1 O stored5 = Ok st /\
    (forall j, (j < 6)%nat -> exists distance,
       nth j (Search.silhouette_avg st) nan
       = silhouette_score toy distance
           (louvain_labels toy stored5 (Np.round1 (nth j Search.resolutions nan)))) /\
    Np.argmax (Search.silhouette_avg st) = Some i /\ (i < 6)%nat /\
    (Forall (fun v => is_nan v = false) (Search.silhouette_avg st) ->
     Forall (fun v => (v <=? nth i (Search.silhouette_avg st) nan)%float = true)
            (Search.silhouette_avg st)) /\
    (forall r, In r Search.resolutions ->
       get_col (obs (Search.adata st)) (Search.key r)
       = Ok (louvain_labels toy stored5 (Np.round1 r))) /\
    Search.auto_resolution toy 1 O stored5 = Ok (nth i Search.resolutions nan, final) /\
    get_col (obs final) "louvain"
    = Ok (louvain_labels toy stored5 (Np.round1 (nth i Search.resolutions nan))).
Proof.
  apply (best_resolution_selected toy 1 O stored5). lia.
Defined.

(** C5.  The search does not depend on the state of the generator at
    entry: two runs on the same input and with the same number of
    processes end alike, with the same resolution and the same final
    labels, or with the same error.  The seed is set once: when the
    search ends, the generator stands thirty draws after the seed, five
    for each candidate in turn. *)
Theorem auto_resolution_deterministic (L : Library) cpus adata0 :
  (forall g1 g2,
     Search.auto_resolution L cpus g1 adata0 = Search.auto_resolution L cpus g2 adata0) /\
  (forall g1 g2 st1 st2,
     Search.search L cpus g1 adata0 = Ok st1 ->
     Search.search L cpus g2 adata0 = Ok st2 ->
     st1 = st2 /\
     Search.generator st1
     = snd (Search.draw L (6 * Search.rep_n) (seed L 1) (List.length (cells adata0))
              (Search.int_of_float (Np.of_nat (List.length (cells adata0)) * Search.subset)))).
Proof.
  assert (S : forall g1 g2, Search.search L cpus g1 adata0 = Search.search L cpus g2 adata0)
    by reflexivity.
  split.
  - intros g1 g2. unfold Search.auto_resolution. now rewrite (S g1 g2).
  - intros g1 g2 st1 st2 H1 H2. rewrite (S g1 g2), H2 in H1. injection H1 as <-.
    split; [reflexivity|].
    destruct (Z.ltb_spec cpus 1) as [C|C].
    + exfalso. revert H2. unfold Search.search.
      rewrite resolutions_values. cbn [enumerate List.length seq combine for_each].
      unfold Search.candidate at 1.
      destruct (Search.draw _ _ _ _ _) as [ss g]. unfold Search.pool_map.
      apply Z.ltb_lt in C. rewrite C. discriminate.
    + destruct (search_scored L cpus g2 adata0 C) as (st & Hs & _ & _ & Hg & _ & _).
      rewrite H2 in Hs. injection Hs as <-. exact Hg.
Qed.

(** ** Python helpers: labels *)

Ltac digit_step IH :=
  cbn [NilEmpty.string_of_uint Py.digits_value Nat.of_uint_acc];
  match goal with
  | |- context [Py.is_digit ?c] => change (Py.is_digit c) with true
  end;
  cbv iota;
  match goal with
  | |- context [(nat_of_ascii ?c - 48)%nat] =>
      let v := eval vm_compute in (nat_of_ascii c - 48)%nat in
      change (nat_of_ascii c - 48)%nat with v
  end;
  match goal with
  | |- Py.digits_value _ ?z = Some (Z.of_nat (Nat.of_uint_acc _ ?n)) =>
      replace z with (Z.of_nat n) by (rewrite Nat.tail_mul_spec; lia)
  end;
  apply IH.

Lemma digits_value_uint d : forall a,
  Py.digits_value (NilEmpty.string_of_uint d) (Z.of_nat a)
  = Some (Z.of_nat (Nat.of_uint_acc d a)).
Proof.
  induction d as [|d IH|d IH|d IH|d IH|d IH|d IH|d IH|d IH|d IH|d IH]; intros a;
    [reflexivity | digit_step IH ..].
Qed.

Lemma int_str_nat c : Py.int (Py.str_nat c) = Some (Z.of_nat c).
Proof.
  unfold Py.str_nat, NilZero.string_of_uint.
  rewrite <- (Unsigned.of_to c) at 2. unfold Nat.of_uint.
  destruct (Nat.to_uint c) as [|d|d|d|d|d|d|d|d|d|d]; [reflexivity | ..];
    match goal with
    | |- Py.int (NilEmpty.string_of_uint ?u) = _ =>
        change (Py.int (NilEmpty.string_of_uint u))
          with (Py.digits_value (NilEmpty.string_of_uint u) (Z.of_nat 0));
        apply digits_value_uint
    end.
Qed.

Lemma str_nat_inj a b : Py.str_nat a = Py.str_nat b -> a = b.
Proof.
  intros E. apply (f_equal Py.int) in E. rewrite !int_str_nat in E.
  injection E as E. lia.
Qed.

Lemma In_unique l x : In x (Py.unique l) <-> In x l.
Proof.
  induction l as [|a l IH]; simpl; [tauto|]. rewrite filter_In, IH.
  destruct (String.eqb_spec a x) as [->|N]; simpl; intuition congruence.
Qed.

Lemma NoDup_unique l : NoDup (Py.unique l).
Proof.
  induction l as [|a l IH]; simpl; constructor.
  - rewrite filter_In, String.eqb_refl. simpl. intros [_ H]. discriminate.
  - now apply NoDup_filter.
Qed.

Lemma insert_perm {A} (le : A -> A -> bool) x l : Permutation (Py.insert le x l) (x :: l).
Proof.
  induction l as [|y l IH]; simpl; [reflexivity|].
  destruct (le x y); [reflexivity|].
  rewrite IH. apply perm_swap.
Qed.

Lemma sorted_perm {A} (le : A -> A -> bool) l : Permutation (Py.sorted le l) l.
Proof.
  induction l as [|x l IH]; simpl; [reflexivity|].
  unfold Py.sorted in *. simpl. rewrite insert_perm. now constructor.
Qed.

Lemma int_keys_labels ls :
  Forall (fun l => exists c, l = Py.str_nat c) ls ->
  exists keyed, Annotation.int_keys ls = Ok keyed /\ map snd keyed = ls.
Proof.
  induction 1 as [|l ls [c ->] _ (keyed & E & M)]; simpl.
  - now exists [].
  - rewrite int_str_nat, E. simpl. eexists. split; [reflexivity|]. simpl. now rewrite M.
Qed.

Lemma groups_of_labels m :
  exists groups,
    Annotation.groups_of (map Py.str_nat m) = Ok groups /\
    Permutation groups (Py.unique (map Py.str_nat m)).
Proof.
  unfold Annotation.groups_of.
  destruct (int_keys_labels (Py.unique (map Py.str_nat m))) as (keyed & E & M).
  - apply Forall_forall. intros l Hl. apply In_unique, in_map_iff in Hl.
    destruct Hl as (c & <- & _). now exists c.
  - rewrite E. simpl. eexists. split; [reflexivity|].
    rewrite <- M. apply Permutation_map, sorted_perm.
Qed.

(** With contiguous community numbers, a label's number is below the
    number of distinct labels. *)
Lemma label_below_count m c :
  contiguous m -> In c m ->
  (c < List.length (Py.unique (map Py.str_nat m)))%nat.
Proof.
  intros Hm Hc.
  assert (I : incl (map Py.str_nat (seq 0 (S c))) (Py.unique (map Py.str_nat m))).
  { intros l Hl. apply in_map_iff in Hl as (c' & <- & Hc'). apply in_seq in Hc'.
    apply In_unique, in_map.
    destruct (Nat.eq_dec c' c) as [->|N]; [assumption|].
    apply (Hm c c'); [assumption | lia]. }
  apply NoDup_incl_length in I.
  - rewrite length_map, length_seq in I. lia.
  - apply Injective_map_NoDup; [|apply seq_NoDup].
    intros a b. apply str_nat_inj.
Qed.

(** ** Annotation *)

Lemma write_group_label L adata labels mat c :
  (c < List.length mat)%nat ->
  Annotation.write_group L adata labels mat (Py.str_nat c)
  = Ok (upd mat c (raw_mean L (Annotation.cells_of adata labels (Py.str_nat c)))).
Proof.
  intros H. unfold Annotation.write_group, Annotation.set_column.
  rewrite int_str_nat.
  destruct (Z.leb_spec 0 (Z.of_nat c)); [|lia].
  destruct (Z.ltb_spec (Z.of_nat c) (Z.of_nat (List.length mat))); [|lia].
  simpl. now rewrite Nat2Z.id.
Qed.

Lemma write_groups L adata labels gs : forall mat,
  NoDup gs ->
  (forall g, In g gs -> exists c, g = Py.str_nat c /\ (c < List.length mat)%nat) ->
  exists mat',
    for_each (Annotation.write_group L adata labels) gs mat = Ok mat' /\
    List.length mat' = List.length mat /\
    (forall c, In (Py.str_nat c) gs ->
       nth c mat' [] = raw_mean L (Annotation.cells_of adata labels (Py.str_nat c))) /\
    (forall c, ~ In (Py.str_nat c) gs -> nth c mat' [] = nth c mat []).
Proof.
  induction gs as [|g gs IH]; intros mat D Hg; simpl.
  - exists mat. repeat split; tauto.
  - destruct (Hg g (or_introl eq_refl)) as (c0 & -> & Hc0).
    rewrite write_group_label by assumption. simpl.
    inversion D as [|? ? Hn D']; subst.
    destruct (IH (upd mat c0 (raw_mean L (Annotation.cells_of adata labels (Py.str_nat c0)))) D')
      as (mat' & E & Hl & Hin & Hout).
    { intros g Hi. destruct (Hg g (or_intror Hi)) as (c & -> & Hc).
      exists c. rewrite upd_length. now split. }
    exists mat'. split; [exact E|]. rewrite upd_length in Hl. split; [exact Hl|]. split.
    + intros c [Ec | Hi]; [|now apply Hin].
      apply str_nat_inj in Ec. subst c0.
      rewrite Hout by assumption. rewrite nth_upd, Nat.eqb_refl.
      apply Nat.ltb_lt in Hc0. now rewrite Hc0.
    + intros c Hc. rewrite Hout by tauto. rewrite nth_upd.
      destruct (Nat.eqb_spec c0 c) as [->|N]; [|reflexivity].
      exfalso. apply Hc. now left.
Qed.

Lemma cluster_mean_exp_contiguous L adata m :
  get_col (obs adata) "louvain" = Ok (map Py.str_nat m) ->
  contiguous m ->
  exists groups mat,
    Annotation.cluster_mean_exp L adata = Ok (groups, mat) /\
    List.length mat = List.length groups /\
    (forall g, In g groups <-> In g (map Py.str_nat m)) /\
    (forall g, In g groups ->
       exists c, Py.int g = Some (Z.of_nat c) /\ (c < List.length groups)%nat /\
                 nth c mat [] = raw_mean L (Annotation.cells_of adata (map Py.str_nat m) g)).
Proof.
  intros Hl Hm. unfold Annotation.cluster_mean_exp. rewrite Hl. cbn [bind].
  destruct (groups_of_labels m) as (groups & Eg & P). rewrite Eg. cbn [bind].
  assert (In_g : forall g, In g groups <-> In g (map Py.str_nat m)).
  { intros g. split; intros H.
    - apply In_unique. exact (Permutation_in _ P H).
    - apply (Permutation_in _ (Permutation_sym P)). now apply In_unique. }
  assert (Len : List.length groups = List.length (Py.unique (map Py.str_nat m)))
    by now apply Permutation_length.
  assert (B : forall g, In g groups ->
                exists c, g = Py.str_nat c /\ (c < List.length groups)%nat).
  { intros g Hg. apply In_g, in_map_iff in Hg as (c & <- & Hc).
    exists c. split; [reflexivity|]. rewrite Len. now apply label_below_count. }
  destruct (write_groups L adata (map Py.str_nat m) groups
              (repeat (repeat 0%float (raw_n_vars L)) (List.length groups)))
    as (mat & E & Hlen & Hin & _).
  - apply (Permutation_NoDup (Permutation_sym P)), NoDup_unique.
  - intros g Hg. rewrite repeat_length. now apply B.
  - rewrite E. cbn [bind]. exists groups, mat. rewrite repeat_length in Hlen.
    split; [reflexivity|]. split; [exact Hlen|]. split; [exact In_g|].
    intros g Hg. destruct (B g Hg) as (c & -> & Hc).
    exists c. split; [apply int_str_nat|]. split; [exact Hc|]. now apply Hin.
Qed.

(** ** Clustering, then annotation *)

(** Whichever way the resolution is chosen, the ['louvain'] column that
    leaves the clustering stage holds labels Louvain has just computed on
    the cells at hand. *)
Lemma clustering_labels L a g0 adata :
  (auto_resolution a = true -> (1 <= cpus a)%Z) ->
  exists r res adata',
    clustering L a g0 adata = Ok (res, adata') /\
    cells adata' = cells adata /\
    get_col (obs adata') "louvain" = Ok (louvain_labels L adata r).
Proof.
  intros Hc. unfold clustering. destruct (auto_resolution a).
  - destruct (search_scored L (cpus a) g0 adata (Hc eq_refl))
      as (st & Hs & Hcells & Hl & _ & Hg & _).
    destruct (select_scored L st adata Hcells Hl Hg) as (i & _ & _ & Hsel).
    exists (Np.round1 (nth i Search.resolutions nan)). do 2 eexists.
    unfold Search.auto_resolution. rewrite Hs. cbn [bind].
    split; [exact Hsel|]. split; [reflexivity|]. apply get_set_same.
  - exists (resolution a). do 2 eexists. split; [reflexivity|].
    split; [reflexivity|]. apply get_set_same.
Qed.

Lemma toy_contiguous cs r : contiguous (louvain toy cs r).
Proof.
  intros c c' Hc Hlt. cbn [louvain toy] in *.
  apply in_map_iff in Hc as (i & <- & Hi). apply in_seq in Hi.
  assert (i mod 2 < 2)%nat by (apply Nat.mod_upper_bound; lia).
  apply in_map_iff. exists O. split; [change (0 mod 2)%nat with O; lia|].
  apply in_seq. lia.
Qed.

(** C10 (amended).  On a stored object restricted to any clusters, the
    annotation step meets the labels Louvain has just recomputed on the
    retained cells, not the stored ones.  With community numbers that
    leave no gap, the groups are those labels, the matrix has one column
    per group, each group [g] is written to column [int(g)], which lies
    within the matrix, and no write is refused. *)
Theorem annotation_writes_in_bounds (L : Library) a g0 stored res adata :
  (forall cs r, contiguous (louvain L cs r)) ->
  (auto_resolution a = true -> (1 <= cpus a)%Z) ->
  recluster_h5ad L a g0 stored = Ok (res, adata) ->
  exists r groups mat,
    get_col (obs adata) "louvain" = Ok (louvain_labels L adata r) /\
    Annotation.cluster_mean_exp L adata = Ok (groups, mat) /\
    List.length mat = List.length groups /\
    (forall g, In g groups <-> In g (louvain_labels L adata r)) /\
    (forall g, In g groups ->
       exists c, Py.int g = Some (Z.of_nat c) /\ (c < List.length groups)%nat /\
                 nth c mat [] = raw_mean L (Annotation.cells_of adata (louvain_labels L adata r) g)).
Proof.
  intros HL Hc. unfold recluster_h5ad.
  destruct (clusters a) as [cs|]; [|discriminate].
  destruct (subset_clusters stored _) as [sub| |]; cbn [bind]; try discriminate.
  destruct (clustering_labels L a g0 sub Hc) as (r & res' & adata' & E & Hcells & Hl).
  rewrite E. intros [= <- <-]. exists r.
  assert (El : louvain_labels L adata' r = louvain_labels L sub r)
    by (unfold louvain_labels; now rewrite Hcells).
  rewrite El.
  destruct (cluster_mean_exp_contiguous L adata' (louvain L (cells sub) r) Hl (HL _ _))
    as (groups & mat & H1 & H2 & H3 & H4).
  exists groups, mat. auto.
Qed.

(** C10 at work: the stored object of five cells, cut down to the
    clusters 3 and 5 and clustered again at the fixed resolution. *)
Lemma annotation_writes_in_bounds_witness :
  exists r groups mat,
    get_col [("louvain", ["0"; "1"; "0"; "1"])] "louvain"
    = Ok (louvain_labels toy {| cells := [0; 1; 2; 3]%nat;
                                obs := [("louvain", ["0"; "1"; "0"; "1"])] |} r) /\
    Annotation.cluster_mean_exp toy {| cells := [0; 1; 2; 3]%nat;
                                       obs := [("louvain", ["0"; "1"; "0"; "1"])] |}
    = Ok (groups, mat) /\
    List.length mat = List.length groups.
Proof.
  destruct (annotation_writes_in_bounds toy (args_h5ad "3,5" false) O stored5 0.6%float
              {| cells := [0; 1; 2; 3]%nat; obs := [("louvain", ["0"; "1"; "0"; "1"])] |}
              toy_contiguous)
    as (r & groups & mat & H1 & H2 & H3 & _).
  - discriminate.
  - vm_compute. reflexivity.
  - exists r, groups, mat. cbn [obs] in H1. auto.
Defined.

(** C10, as stated, fails: with the clusters 3 and 5 retained from the
    stored object, the labels at the annotation step are 0 and 1, and
    both columns are written. *)
Lemma h5ad_subset_is_relabelled :
  subset_clusters stored5 (map Py.strip (Py.split_comma "3,5"))
  = Ok {| cells := [0; 1; 2; 3]%nat; obs := [("louvain", ["3"; "5"; "3"; "5"])] |} /\
  annotate_h5ad toy (args_h5ad "3,5" false) O stored5 = Ok (["0"; "1"], [[2%float]; [2%float]]) /\
  annotate_h5ad toy (args_h5ad "3,5" true) O stored5 = Ok (["0"; "1"], [[2%float]; [2%float]]).
Proof. repeat split; vm_compute; reflexivity. Qed.

(** ** The differential-expression export *)

Lemma has_underscore_app s t : has_underscore (s ++ String "_" t) = true.
Proof.
  induction s as [|c s IH]; simpl; [reflexivity|]. rewrite IH. apply orb_true_r.
Qed.

Lemma column_name_inj g g' k k' :
  has_underscore k = false -> has_underscore k' = false ->
  (g ++ "_" ++ k)%string = (g' ++ "_" ++ k')%string -> g = g' /\ k = k'.
Proof.
  intros Hk Hk'. revert g'; induction g as [|c g IH]; intros [|c' g']; simpl; intros E.
  - injection E as E. now split.
  - injection E as _ E. rewrite E, has_underscore_app in Hk. discriminate.
  - injection E as _ E. rewrite <- E, has_underscore_app in Hk'. discriminate.
  - injection E as -> E. destruct (IH g' E) as [-> ->]. now split.
Qed.

Lemma keys_plain : Forall (fun k => has_underscore k = false) Degs.keys.
Proof. repeat constructor. Qed.

Lemma keys_distinct_names : NoDup Degs.keys.
Proof.
  unfold Degs.keys. repeat (constructor; [simpl; intuition discriminate|]). constructor.
Qed.

Lemma group_columns_distinct groups :
  NoDup groups -> NoDup (flat_map Degs.group_columns groups).
Proof.
  pose proof keys_plain as P. rewrite Forall_forall in P.
  induction 1 as [|g groups Hg _ IH]; cbn [flat_map]; [constructor|].
  apply NoDup_app; [| exact IH |].
  - unfold Degs.group_columns.
    apply Injective_map_NoDup_in; [|apply keys_distinct_names].
    intros k k' Hk Hk' E. now apply (column_name_inj g g k k'); auto.
  - intros a Ha Hf. apply in_map_iff in Ha as (k & <- & Hk).
    apply in_flat_map in Hf as (g' & Hg' & Hf).
    apply in_map_iff in Hf as (k' & E & Hk').
    apply column_name_inj in E as [-> _]; auto.
Qed.

Lemma entries_names r groups :
  map fst (flat_map (deg_entries r) groups) = flat_map Degs.group_columns groups.
Proof.
  induction groups as [|g groups IH]; cbn [flat_map]; [reflexivity|].
  rewrite map_app, IH. reflexivity.
Qed.

Lemma columns_dict_entries r groups : forall d,
  fold_left
    (fun d group =>
       fold_left (fun d key => set_col d (group ++ "_" ++ key)%string (Degs.field r key group))
                 Degs.keys d)
    groups d
  = fold_left (fun d kv => set_col d (fst kv) (snd kv)) (flat_map (deg_entries r) groups) d.
Proof.
  induction groups as [|g groups IH]; intros d; cbn [flat_map fold_left]; [reflexivity|].
  rewrite fold_left_app, IH. reflexivity.
Qed.

Lemma set_col_fresh {V} (t : table V) k v :
  ~ In k (map fst t) -> set_col t k v = t ++ [(k, v)].
Proof.
  induction t as [|[k' v'] t IH]; simpl; intros N; [reflexivity|].
  destruct (String.eqb_spec k' k) as [E|_]; [tauto|]. now rewrite IH by tauto.
Qed.

Lemma fold_set_fresh {V} (kvs : table V) : forall t,
  NoDup (map fst (t ++ kvs)) ->
  fold_left (fun d kv => set_col d (fst kv) (snd kv)) kvs t = t ++ kvs.
Proof.
  induction kvs as [|[k v] kvs IH]; intros t D; simpl.
  - now rewrite app_nil_r.
  - rewrite set_col_fresh.
    + rewrite IH; rewrite <- app_assoc; [reflexivity | exact D].
    + rewrite map_app in D. simpl in D. apply NoDup_remove_2 in D.
      intros I. apply D. apply in_or_app. now left.
Qed.

Lemma data_frame_rows d n :
  d <> [] -> Forall (fun kv => List.length (snd kv) = n) d ->
  Degs.data_frame d = Ok {| Degs.columns := d; Degs.n_rows := n |}.
Proof.
  intros Hd Hn. destruct d as [|[k v] d']; [congruence|]. unfold Degs.data_frame.
  assert (E : List.length v = n) by now inversion Hn. rewrite E.
  replace (forallb _ _) with true; [reflexivity|].
  symmetry. apply forallb_forall. intros kv Hkv. rewrite Forall_forall in Hn.
  rewrite (Hn kv Hkv). apply Nat.eqb_refl.
Qed.

Lemma int_keys_snd ls keyed : Annotation.int_keys ls = Ok keyed -> map snd keyed = ls.
Proof.
  revert keyed; induction ls as [|l ls IH]; simpl; intros keyed.
  - now intros [= <-].
  - destruct (Py.int l); [|discriminate].
    destruct (Annotation.int_keys ls) as [rest| |]; simpl; try discriminate.
    intros [= <-]. simpl. now rewrite (IH rest).
Qed.

Lemma groups_of_perm labels groups :
  Annotation.groups_of labels = Ok groups -> Permutation groups (Py.unique labels).
Proof.
  unfold Annotation.groups_of.
  destruct (Annotation.int_keys (Py.unique labels)) as [keyed| |] eqn:E; simpl; try discriminate.
  intros [= <-]. rewrite <- (int_keys_snd _ _ E). apply Permutation_map, sorted_perm.
Qed.

Lemma field_length r groups g key :
  complete r groups -> In g groups -> In key Degs.keys ->
  List.length (Degs.field r key g) = n_tested r.
Proof.
  intros C Hg Hk. destruct (C g Hg) as (H1 & H2 & H3 & H4 & _).
  simpl in Hk. destruct Hk as [<- | [<- | [<- | [<- | []]]]];
    cbv beta iota delta [Degs.field String.eqb Ascii.eqb Bool.eqb];
    rewrite length_map; assumption.
Qed.

(** C8.  For the groups of a clustered run, with every gene of the
    tested matrix ranked in every group, the table written to
    [cluster_DEGs.csv] has, per group and in this order, the four columns
    [<group>_names], [<group>_logfoldchanges], [<group>_scores] and
    [<group>_pvals], all different, four times the number of groups in
    all, and one row per gene of the tested matrix. *)
Theorem cluster_DEGs_shape (r : RankGenesGroups) labels groups :
  labels <> [] ->
  Annotation.groups_of labels = Ok groups ->
  complete r groups ->
  exists df,
    Degs.cluster_DEGs r groups = Ok df /\
    map fst (Degs.columns df) = flat_map Degs.group_columns groups /\
    NoDup (map fst (Degs.columns df)) /\
    List.length (Degs.columns df) = (4 * List.length groups)%nat /\
    Degs.n_rows df = n_tested r /\
    Forall (fun kv => List.length (snd kv) = n_tested r) (Degs.columns df).
Proof.
  intros Hl Hg C.
  pose proof (groups_of_perm _ _ Hg) as P.
  assert (D : NoDup groups)
    by (apply (Permutation_NoDup (Permutation_sym P)), NoDup_unique).
  assert (Ne : groups <> []).
  { intros ->. apply Permutation_nil in P. destruct labels; [congruence | discriminate P]. }
  assert (Names : NoDup (map fst (flat_map (deg_entries r) groups)))
    by (rewrite entries_names; now apply group_columns_distinct).
  assert (E : Degs.columns_dict r groups = flat_map (deg_entries r) groups).
  { unfold Degs.columns_dict. rewrite columns_dict_entries.
    now rewrite fold_set_fresh. }
  assert (Len : Forall (fun kv => List.length (snd kv) = n_tested r)
                       (flat_map (deg_entries r) groups)).
  { apply Forall_forall. intros kv Hkv. apply in_flat_map in Hkv as (g & Hgi & Hkv).
    apply in_map_iff in Hkv as (key & <- & Hk). simpl.
    now apply (field_length r groups). }
  exists {| Degs.columns := flat_map (deg_entries r) groups; Degs.n_rows := n_tested r |}.
  unfold Degs.cluster_DEGs. rewrite E. cbn [Degs.columns Degs.n_rows].
  split.
  { apply data_frame_rows; [|exact Len].
    destruct groups as [|g groups']; [congruence | discriminate]. }
  split; [apply entries_names|]. split; [exact Names|]. split; [|now split].
  rewrite <- (length_map fst), entries_names, length_flat_map.
  clear. induction groups as [|g groups IH]; [reflexivity|]. simpl in *. lia.
Qed.

(** C8 at work: three cells in the groups 0 and 1, two genes tested. *)
Lemma cluster_DEGs_shape_witness :
  exists df,
    Degs.cluster_DEGs two_genes ["0"; "1"] = Ok df /\
    map fst (Degs.columns df) = flat_map Degs.group_columns ["0"; "1"] /\
    NoDup (map fst (Degs.columns df)) /\
    List.length (Degs.columns df) = (4 * 2)%nat /\
    Degs.n_rows df = 2%nat /\
    Forall (fun kv => List.length (snd kv) = 2%nat) (Degs.columns df).
Proof.
  apply (cluster_DEGs_shape two_genes ["1"; "0"; "1"] ["0"; "1"]).
  - discriminate.
  - vm_compute. reflexivity.
  - intros g [<- | [<- | []]]; repeat split; reflexivity.
Defined.

(** ** Gene set enrichment *)

Lemma celltypes_perm labels :
  Permutation (Py.sorted String.leb (Py.unique labels)) (Py.unique labels).
Proof. apply sorted_perm. Qed.

Lemma In_celltypes labels c :
  In c (Py.sorted String.leb (Py.unique labels)) <-> In c labels.
Proof.
  split; intros H.
  - apply In_unique. exact (Permutation_in _ (celltypes_perm labels) H).
  - apply (Permutation_in _ (Permutation_sym (celltypes_perm labels))).
    now apply In_unique.
Qed.

Lemma NoDup_celltypes labels : NoDup (Py.sorted String.leb (Py.unique labels)).
Proof.
  apply (Permutation_NoDup (Permutation_sym (celltypes_perm labels))), NoDup_unique.
Qed.

Lemma nth_indlist r thr c x :
  List.length (logfoldchanges r c) = n_tested r ->
  List.length (pvals_adj r c) = n_tested r ->
  List.length (pvals r c) = n_tested r ->
  List.length (Gsea.indlist r thr c) = n_tested r /\
  ((x < n_tested r)%nat ->
   nth x (Gsea.indlist r thr c) false
   = ((thr <=? nth x (logfoldchanges r c) nan)
      && (nth x (pvals_adj r c) nan <=? 1e-2)
      && (nth x (pvals r c) nan <=? 1e-2))%float).
Proof.
  intros H1 H2 H3. unfold Gsea.indlist. split.
  - rewrite !map2_length, !length_map. lia.
  - intros Hx.
    rewrite (nth_map2 _ _ _ _ _ false false)
      by (rewrite ?map2_length, !length_map; lia).
    rewrite (nth_map2 _ _ _ _ _ false false) by (rewrite !length_map; lia).
    rewrite !(nth_map_lt _ _ _ _ nan) by lia. reflexivity.
Qed.

Lemma degs_marker r thr groups c gene :
  complete r groups -> In c groups ->
  In gene (Gsea.degs r thr c) <-> Gsea.marker r thr c gene.
Proof.
  intros C Hc. destruct (C c Hc) as (_ & H1 & _ & H3 & H2).
  unfold Gsea.degs, Gsea.marker. rewrite in_map_iff. split.
  - intros (x & E & Hx). apply filter_In in Hx as [Hx Hi]. apply in_seq in Hx.
    destruct (nth_indlist r thr c x H1 H2 H3) as [L N]. rewrite L in Hx.
    rewrite N in Hi by lia. apply andb_true_iff in Hi as [Hi Hp].
    apply andb_true_iff in Hi as [Hf Ha]. exists x. repeat split; auto. lia.
  - intros (x & Hx & E & Hf & Ha & Hp). exists x. split; [exact E|].
    destruct (nth_indlist r thr c x H1 H2 H3) as [L N].
    apply filter_In. split; [apply in_seq; lia|].
    rewrite N by assumption. now rewrite Hf, Ha, Hp.
Qed.

Lemma enrich_loop_clusters enrichr r thr cs :
  map (fun q => fst (fst q)) (Gsea.enrich_loop enrichr r thr cs)
  = filter (has_markers r thr) cs.
Proof.
  induction cs as [|c cs IH]; simpl; [reflexivity|]. unfold has_markers.
  destruct (Gsea.degs r thr c); simpl; now rewrite IH.
Qed.

Lemma enrich_loop_In enrichr r thr cs q :
  In q (Gsea.enrich_loop enrichr r thr cs) <->
  In (fst (fst q)) cs /\ Gsea.degs r thr (fst (fst q)) <> [] /\
  snd (fst q) = Gsea.degs r thr (fst (fst q)) /\
  snd q = enrichr (snd (fst q)) (fst (fst q)).
Proof.
  destruct q as [[c' g] rows]. cbn [fst snd].
  induction cs as [|c cs IH]; simpl; [tauto|].
  destruct (Gsea.degs r thr c) as [|d ds] eqn:E.
  - rewrite IH. split; [tauto|]. intros ([-> | H] & N & R); [congruence | tauto].
  - simpl. rewrite IH. split.
    + intros [[= <- <- <-] | H]; [|tauto]. rewrite E. repeat split; auto. discriminate.
    + intros ([-> | H] & N & G & R); [left | right; tauto].
      rewrite E in G. now subst.
Qed.

Lemma queries_In enrichr r thr cs c genes :
  In (c, genes) (map fst (Gsea.enrich_loop enrichr r thr cs)) <->
  In c cs /\ Gsea.degs r thr c <> [] /\ genes = Gsea.degs r thr c.
Proof.
  rewrite in_map_iff. split.
  - intros ([[c' g] rows] & [= -> ->] & Hq). apply enrich_loop_In in Hq.
    simpl in Hq. tauto.
  - intros (H1 & H2 & ->).
    exists (c, Gsea.degs r thr c, enrichr (Gsea.degs r thr c) c). split; [reflexivity|].
    apply enrich_loop_In. simpl. tauto.
Qed.

Lemma concat_loop_spec cutoff results : forall df console,
  Gsea.concat_loop cutoff results df console
  = (df ++ flat_map (kept_rows cutoff) results,
     console ++ map (fun res => Gsea.message cutoff (fst (fst res)))
                    (filter (fun res => match kept_rows cutoff res with
                                        | [] => true | _ :: _ => false end) results)).
Proof.
  induction results as [|[[c g] rows] results IH]; intros df console; simpl.
  - now rewrite !app_nil_r.
  - unfold kept_rows at 1 3. simpl.
    destruct (filter _ rows) as [|x xs]; simpl; rewrite IH.
    + now rewrite <- app_assoc.
    + now rewrite <- app_assoc.
Qed.

(** C6.  With every gene ranked in every cluster of the column, each
    gene list sent to Enrichr belongs to a cluster of the column, is not
    empty and holds exactly the genes of that cluster whose statistics
    pass log-fold-change >= 2, adjusted p-value <= 0.01 and p-value <=
    0.01 together; a cluster with such genes is queried, once; a cluster
    without them is not queried and has no row in the table. *)
Theorem enrichr_queries_are_markers enrichr labels (r : RankGenesGroups) cutoff :
  complete r labels ->
  let out := Gsea.runGSEAPY enrichr labels r cutoff 2 in
  (forall c genes, In (c, genes) (Gsea.queries out) ->
     In c labels /\ genes <> [] /\ genes = Gsea.degs r 2 c /\
     (forall gene, In gene genes <-> Gsea.marker r 2 c gene)) /\
  (forall c, In c labels -> Gsea.degs r 2 c <> [] ->
     In (c, Gsea.degs r 2 c) (Gsea.queries out)) /\
  NoDup (map fst (Gsea.queries out)) /\
  (forall c, In c labels -> Gsea.degs r 2 c = [] ->
     ~ In c (map fst (Gsea.queries out)) /\
     Forall (fun x => Gsea.Cluster x <> c) (Gsea.df out)).
Proof.
  intros C out. unfold out, Gsea.runGSEAPY. cbn [Gsea.queries Gsea.df].
  set (cs := Py.sorted String.leb (Py.unique labels)).
  set (results := Gsea.enrich_loop enrichr r 2 cs).
  assert (Names : map fst (map fst results) = filter (has_markers r 2) cs)
    by (rewrite map_map; apply enrich_loop_clusters).
  split; [|split; [|split]].
  - intros c genes H. apply queries_In in H as (Hc & N & ->).
    apply (proj1 (In_celltypes labels c)) in Hc. split; [exact Hc|]. split; [exact N|]. split; [reflexivity|].
    intros gene. now apply (degs_marker r 2 labels c gene C).
  - intros c Hc N. apply queries_In. repeat split; auto.
    now apply (proj2 (In_celltypes labels c)).
  - rewrite Names. apply NoDup_filter, NoDup_celltypes.
  - intros c Hc E. split.
    + rewrite Names. intros Hf. apply filter_In in Hf as [_ Hf].
      unfold has_markers in Hf. rewrite E in Hf. discriminate.
    + rewrite concat_loop_spec. simpl. apply Forall_forall. intros x Hx Ex.
      apply in_flat_map in Hx as ([[c' g] rows] & Hq & Hx). unfold kept_rows in Hx.
      apply in_map_iff in Hx as (y & <- & _). simpl in Ex. subst c'.
      apply enrich_loop_In in Hq as (_ & N & _). simpl in N. congruence.
Qed.

(** C6 at work: two clusters over two genes. *)
Lemma enrichr_queries_are_markers_witness :
  Gsea.queries (Gsea.runGSEAPY toy_enrichr ["1"; "0"; "1"] two_genes 0.05 2)
  = [("0", ["CD3E"]); ("1", ["MS4A1"])] /\
  NoDup (map fst (Gsea.queries (Gsea.runGSEAPY toy_enrichr ["1"; "0"; "1"] two_genes 0.05 2))).
Proof.
  split; [vm_compute; reflexivity|].
  refine (proj1 (proj2 (proj2
    (enrichr_queries_are_markers toy_enrichr ["1"; "0"; "1"] two_genes 0.05%float _)))).
  intros g [<- | [<- | [<- | []]]]; repeat split; reflexivity.
Defined.

(** C7.  Every row of the table returned has an adjusted p-value at or
    below the cutoff and is a row Enrichr returned for the cluster it
    names; every row at or below the cutoff is in the table; and a queried
    cluster without such a row has no row in the table and one line on
    the console. *)
Theorem gsea_rows_below_cutoff enrichr labels (r : RankGenesGroups) cutoff thr :
  let out := Gsea.runGSEAPY enrichr labels r cutoff thr in
  Forall (fun x => (Gsea.Adjusted_P_value (Gsea.row x) <=? cutoff)%float = true /\
                   exists genes, In (Gsea.Cluster x, genes) (Gsea.queries out) /\
                                 In (Gsea.row x) (enrichr genes (Gsea.Cluster x)))
         (Gsea.df out) /\
  (forall c genes y, In (c, genes) (Gsea.queries out) -> In y (enrichr genes c) ->
     (Gsea.Adjusted_P_value y <=? cutoff)%float = true ->
     In {| Gsea.Cluster := c; Gsea.row := y |} (Gsea.df out)) /\
  (forall c genes, In (c, genes) (Gsea.queries out) ->
     Forall (fun y => (Gsea.Adjusted_P_value y <=? cutoff)%float = false) (enrichr genes c) ->
     Forall (fun x => Gsea.Cluster x <> c) (Gsea.df out) /\
     In (Gsea.message cutoff c) (Gsea.console out)).
Proof.
  intros out. unfold out, Gsea.runGSEAPY. cbn [Gsea.queries Gsea.df Gsea.console].
  set (cs := Py.sorted String.leb (Py.unique labels)).
  set (results := Gsea.enrich_loop enrichr r thr cs).
  rewrite concat_loop_spec. cbn [fst snd app].
  assert (Q : forall c genes, In (c, genes) (map fst results) ->
                In (c, genes, enrichr genes c) results).
  { intros c genes H. apply in_map_iff in H as ([[c' g'] rows] & E & Hq).
    simpl in E. injection E as -> ->.
    pose proof (proj1 (enrich_loop_In _ _ _ _ _) Hq) as (_ & _ & _ & R).
    simpl in R. now subst rows. }
  assert (U : forall c g1 g2 rows1 rows2,
                In (c, g1, rows1) results -> In (c, g2, rows2) results ->
                g1 = g2 /\ rows1 = rows2).
  { intros c g1 g2 rows1 rows2 H1 H2.
    apply enrich_loop_In in H1 as (_ & _ & G1 & R1).
    apply enrich_loop_In in H2 as (_ & _ & G2 & R2). simpl in *. subst. now split. }
  split; [|split].
  - apply Forall_forall. intros x Hx. apply in_flat_map in Hx as ([[c g] rows] & Hq & Hx).
    unfold kept_rows in Hx. apply in_map_iff in Hx as (y & <- & Hy).
    apply filter_In in Hy as [Hy Hc]. simpl in *. split; [exact Hc|].
    exists g. split; [apply in_map_iff; now exists (c, g, rows)|].
    apply enrich_loop_In in Hq as (_ & _ & _ & R). simpl in R. now rewrite <- R.
  - intros c genes y Hq Hy Hc. apply in_flat_map.
    exists (c, genes, enrichr genes c). split; [now apply Q|].
    unfold kept_rows. apply in_map_iff. exists y. simpl. split; [reflexivity|].
    apply filter_In. now split.
  - intros c genes Hq Hn. split.
    + apply Forall_forall. intros x Hx E.
      apply in_flat_map in Hx as ([[c' g] rows] & Hq' & Hx).
      unfold kept_rows in Hx. apply in_map_iff in Hx as (y & <- & Hy).
      apply filter_In in Hy as [Hy Hc]. simpl in *. subst c'.
      destruct (U c g genes rows (enrichr genes c) Hq' (Q c genes Hq)) as [-> ->].
      rewrite Forall_forall in Hn. rewrite (Hn y Hy) in Hc. discriminate.
    + apply in_map_iff. exists (c, genes, enrichr genes c). split; [reflexivity|].
      apply filter_In. split; [now apply Q|].
      unfold kept_rows. simpl.
      replace (filter _ (enrichr genes c)) with (@nil Gsea.Row); [reflexivity|].
      symmetry. clear -Hn. induction Hn as [|y ys Hy _ IH]; simpl; [reflexivity|].
      now rewrite Hy.
Qed.

(** * Further properties *)

(** ** The checks of the command line *)

Ltac exit_cases :=
  repeat match goal with
    | H : context [exit_if ?c _] |- _ =>
        let E := fresh "E" in destruct c eqn:E; cbn [exit_if bind] in H; try discriminate H
    end.

Lemma check_format_ok w a :
  check_format w a = Ok tt ->
  path_exists w (input a) = true /\
  ((format a = "csv" /\ Py.last_chars 4 (input a) = ".csv") \/
   (format a = "10x" /\ present w a "matrix.mtx" /\
    (present w a "genes.tsv" \/ present w a "features.tsv") /\
    present w a "barcodes.tsv") \/
   (format a = "h5ad" /\ Py.last_chars 5 (input a) = ".h5ad" /\
    exists cs, clusters a = Some cs)).
Proof.
  unfold check_format, present. intros H.
  destruct (path_exists w (input a)) eqn:P; cbn [negb exit_if bind] in H; [|discriminate].
  split; [reflexivity|]. revert H.
  destruct (String.eqb_spec (format a) "csv") as [F|_]; intros H.
  { left. split; [exact F|]. exit_cases.
    apply negb_false_iff in E. now apply String.eqb_eq. }
  revert H. destruct (String.eqb_spec (format a) "10x") as [F|_]; intros H.
  { right; left. split; [exact F|]. exit_cases.
    simpl.
    repeat match goal with
      | E : (_ && _)%bool = false |- _ => apply andb_false_iff in E; destruct E
      | E : negb _ = false |- _ => apply negb_false_iff in E
      end; tauto. }
  revert H. destruct (String.eqb_spec (format a) "h5ad") as [F|_]; intros H; [|discriminate].
  right; right. split; [exact F|]. exit_cases.
  apply negb_false_iff in E. split; [now apply String.eqb_eq|].
  destruct (clusters a) as [cs|]; [now exists cs | discriminate].
Qed.

Lemma check_output_metadata_ok w a :
  check_output_metadata w a = Ok tt ->
  path_isdir w (output a) = true /\
  (forall m, metadata a = Some m ->
     path_exists w m = true /\ Py.last_chars 4 m = ".csv").
Proof.
  unfold check_output_metadata. intros H.
  destruct (path_isdir w (output a)); cbn [negb exit_if bind] in H; [|discriminate].
  split; [reflexivity|]. intros m Hm. rewrite Hm in H. exit_cases.
  apply negb_false_iff in E, E0. split; [exact E | now apply String.eqb_eq].
Qed.

Lemma check_batch_ok w a :
  check_batch w a = Ok tt ->
  forall b, batch a = Some b ->
    (metadata a = None -> format a = "h5ad") /\
    (forall m, metadata a = Some m -> Py.mem b (metadata_columns w) = true).
Proof.
  unfold check_batch. intros H b Hb. rewrite Hb in H.
  destruct (metadata a) as [m|].
  - cbn [andb exit_if bind] in H. exit_cases. apply negb_false_iff in E.
    split; [discriminate | now intros].
  - cbn [andb] in H. exit_cases. apply negb_false_iff in E.
    split; [|discriminate]. intros _. now apply String.eqb_eq.
Qed.

Lemma check_args_parts w a :
  check_args w a = Ok tt ->
  check_format w a = Ok tt /\ check_output_metadata w a = Ok tt /\ check_batch w a = Ok tt.
Proof.
  unfold check_args.
  destruct (check_format w a) as [[]| |]; cbn [bind]; try discriminate.
  destruct (check_output_metadata w a) as [[]| |]; cbn [bind]; try discriminate.
  destruct (check_batch w a) as [[]| |]; try discriminate. auto.
Qed.

(** X1.  Arguments that pass the checks of lines 68-108 name an input
    that exists and an output directory; the format is csv with a [.csv]
    input, or 10x with the matrix, gene (or feature) and barcode files
    present, plain or gzipped, or h5ad with a [.h5ad] input and clusters;
    a metadata file exists and ends in [.csv]; and a batch column comes
    with a metadata file that has the column, or with the format h5ad. *)
Theorem check_args_sound w a :
  check_args w a = Ok tt ->
  path_exists w (input a) = true /\
  path_isdir w (output a) = true /\
  ((format a = "csv" /\ Py.last_chars 4 (input a) = ".csv") \/
   (format a = "10x" /\ present w a "matrix.mtx" /\
    (present w a "genes.tsv" \/ present w a "features.tsv") /\
    present w a "barcodes.tsv") \/
   (format a = "h5ad" /\ Py.last_chars 5 (input a) = ".h5ad" /\
    exists cs, clusters a = Some cs)) /\
  (forall m, metadata a = Some m ->
     path_exists w m = true /\ Py.last_chars 4 m = ".csv") /\
  (forall b, batch a = Some b ->
     (metadata a = None -> format a = "h5ad") /\
     (forall m, metadata a = Some m -> Py.mem b (metadata_columns w) = true)).
Proof.
  intros H. apply check_args_parts in H as (H1 & H2 & H3).
  apply check_format_ok in H1 as [P F].
  apply check_output_metadata_ok in H2 as [O M].
  pose proof (check_batch_ok w a H3) as B. auto.
Qed.

(** X1 at work: the 10x directory with a metadata file. *)
Lemma check_args_sound_witness :
  path_exists world_10x (input args_10x_batch) = true /\
  path_isdir world_10x (output args_10x_batch) = true.
Proof.
  destruct (check_args_sound world_10x args_10x_batch) as (H1 & H2 & _).
  - reflexivity.
  - now split.
Defined.






(** X3.  Whenever preprocessing runs the batch correction, it does so
    on [X_pca], with the column given by [--batch]; a metadata file was
    given and has that column; and the trace ends with the principal
    component analysis, the join of the column from the metadata and the
    correction, in this order. *)
Theorem harmony_after_metadata_join w a p key basis :
  run_preprocessing w a = Ok p ->
  In (HarmonyIntegrate key basis) (calls p) ->
  basis = "X_pca" /\ batch a = Some key /\
  (exists m, metadata a = Some m) /\
  Py.mem key (metadata_columns w) = true /\
  exists pre, calls p = pre ++ [Pca; JoinBatchFromMetadata key; HarmonyIntegrate key "X_pca"].
Proof.
  unfold run_preprocessing.
  destruct (check_args w a) as [[]|m|e] eqn:C; cbn [bind]; try discriminate.
  apply check_args_parts in C as (_ & _ & C3). pose proof (check_batch_ok w a C3) as B.
  unfold preprocessing, batch_correction.
  destruct (String.eqb_spec (format a) "h5ad") as [F|F].
  { destruct (clusters a); [|discriminate]. intros [= <-] I. exfalso.
    simpl in I. destruct (GEP a); simpl in I;
      repeat (destruct I as [I | I]; try discriminate I); contradiction. }
  destruct (if format a =? "csv" then _ else _) as [rd| |] eqn:R; cbn [bind]; try discriminate.
  assert (Hrd : rd = ReadCsv \/ rd = Read10x).
  { destruct (format a =? "csv"); [injection R as <-; auto|].
    destruct (format a =? "10x"); [injection R as <-; auto | discriminate]. }
  destruct (batch a) as [b|].
  - destruct (B b eq_refl) as [Bn Bm].
    destruct (metadata a) as [m|]; [|now specialize (Bn eq_refl)].
    cbn [bind calls]. intros [= <-] I. cbn [calls] in *.
    assert (E : key = b /\ basis = "X_pca").
    { destruct Hrd; subst rd; simpl in I; destruct (GEP a); simpl in I;
        repeat (destruct I as [I | I]; try discriminate I); try contradiction;
        injection I as <- <-; auto. }
    destruct E as [-> ->]. split; [reflexivity|]. split; [reflexivity|].
    split; [eauto|]. split; [now apply (Bm m)|].
    eexists ([rd; VarNamesMakeUnique; FilterCells 200; FilterGenes 3;
              CalculateQcMetrics; SubsetPctMtBelow 30]
             ++ (if GEP a then [CopyForGEP] else [])
             ++ [NormalizeTotal; Log1p; HighlyVariableGenes; SetRaw;
                 SubsetHighlyVariable; RegressOut; Scale]).
    destruct (GEP a); reflexivity.
  - intros [= <-] I. exfalso. cbn [calls] in I.
    destruct Hrd; subst rd; simpl in I; destruct (GEP a); simpl in I;
      repeat (destruct I as [I | I]; try discriminate I); contradiction.
Qed.

(** X3 at work: the 10x directory with a metadata file. *)
Lemma harmony_after_metadata_join_witness :
  Py.mem "PatientID" (metadata_columns world_10x) = true /\
  exists pre,
    [Read10x; VarNamesMakeUnique; FilterCells 200; FilterGenes 3; CalculateQcMetrics;
     SubsetPctMtBelow 30; CopyForGEP; NormalizeTotal; Log1p; HighlyVariableGenes; SetRaw;
     SubsetHighlyVariable; RegressOut; Scale; Pca; JoinBatchFromMetadata "PatientID";
     HarmonyIntegrate "PatientID" "X_pca"]
    = pre ++ [Pca; JoinBatchFromMetadata "PatientID"; HarmonyIntegrate "PatientID" "X_pca"].
Proof.
  destruct (harmony_after_metadata_join world_10x args_10x_batch
              {| calls := [Read10x; VarNamesMakeUnique; FilterCells 200; FilterGenes 3;
                           CalculateQcMetrics; SubsetPctMtBelow 30; CopyForGEP;
                           NormalizeTotal; Log1p; HighlyVariableGenes; SetRaw;
                           SubsetHighlyVariable; RegressOut; Scale; Pca;
                           JoinBatchFromMetadata "PatientID";
                           HarmonyIntegrate "PatientID" "X_pca"];
                 obs_columns := qc_obs_columns ++ ["PatientID"] |}
              "PatientID" "X_pca") as (_ & _ & _ & M & P).
  - reflexivity.
  - simpl. intuition.
  - split; [exact M | exact P].
Defined.

(** ** The co-occurrence arrays, entry by entry *)

Lemma mget_mset {A} n (m : matrix A) a b v d x y :
  square n m ->
  mget d (mset m a b v) x y
  = if ((a =? x) && (b =? y) && (a <? n) && (b <? n))%nat then v else mget d m x y.
Proof.
  intros Sq. pose proof Sq as [Hl _]. unfold mget, mset. rewrite nth_upd, Hl.
  destruct (Nat.eqb_spec a x) as [->|Na]; cbn [andb]; [|reflexivity].
  destruct (Nat.ltb_spec x n) as [Hx|Hx]; cbn [andb].
  - rewrite nth_upd, (square_row n m x Sq Hx).
    destruct (b =? y)%nat; cbn [andb]; reflexivity.
  - now rewrite andb_false_r.
Qed.

Lemma fold_left_establish {A B} (I P : A -> Prop) (f : A -> B -> A) l x0 a :
  In x0 l -> I a ->
  (forall acc x, In x l -> I acc -> I (f acc x)) ->
  (forall acc, I acc -> P (f acc x0)) ->
  (forall acc x, In x l -> I acc -> P acc -> P (f acc x)) ->
  P (fold_left f l a).
Proof.
  revert a. induction l as [|x l IH]; simpl; intros a Hin Ia Hi He Hp; [contradiction|].
  destruct Hin as [-> | Hin].
  - apply (fold_left_invariant (fun acc => I acc /\ P acc)).
    + intros acc y Hy [Qi Qp]. split; [apply Hi | apply Hp]; auto.
    + split; [apply Hi | apply He]; auto.
  - apply IH; auto.
Qed.

Lemma mark_coclustered n k s cluster acc i j :
  (i < k)%nat -> (j < k)%nat ->
  coclustered_within n k s cluster acc ->
  coclustered_within n k s cluster (Search.mark s cluster acc i j).
Proof.
  intros Hi Hj (S1 & S2 & Hsub & Hby). unfold Search.mark, coclustered_within.
  cbn [fst snd].
  split; [now apply square_mset|].
  split; [destruct (String.eqb _ _); [now apply square_mset | assumption]|].
  assert (St : forall x y, mget false (fst acc) x y = true ->
                 mget false (mset (fst acc) (nth i s O) (nth j s O) true) x y = true).
  { intros x y H. rewrite (mget_mset n) by assumption. now destruct (_ && _)%bool. }
  destruct (String.eqb_spec (nth i cluster "") (nth j cluster "")) as [E|_].
  - split; intros x y H; rewrite (mget_mset n) in H by assumption.
    + rewrite (mget_mset n) by assumption.
      destruct (_ && _)%bool; [reflexivity | auto].
    + destruct (_ && _)%bool eqn:C; [|auto].
      apply andb_true_iff in C as [C _]. apply andb_true_iff in C as [C _].
      apply andb_true_iff in C as [C1 C2].
      apply Nat.eqb_eq in C1, C2. exists i, j. auto.
  - split; auto.
Qed.

Lemma subsample_clustering_coclustered L adata n k r s :
  coclustered_within n k s (louvain_labels L (take_rows adata s) r)
    (Search.subsample_clustering L adata n k r s).
Proof.
  unfold Search.subsample_clustering.
  apply fold_left_invariant.
  - intros acc i Hi Hacc. apply in_seq in Hi.
    apply fold_left_invariant; [|assumption].
    intros acc' j Hj Hacc'. apply in_seq in Hj.
    apply mark_coclustered; [lia | lia | assumption].
  - split; [apply square_mzeros|]. split; [apply square_mzeros|].
    cbn [fst snd]. split; intros x y M; rewrite mget_mzeros_false in M; discriminate.
Qed.

Lemma mark_keeps n s cluster acc i j x y :
  square n (fst acc) -> square n (snd acc) ->
  (mget false (fst acc) x y = true ->
   mget false (fst (Search.mark s cluster acc i j)) x y = true) /\
  (mget false (snd acc) x y = true ->
   mget false (snd (Search.mark s cluster acc i j)) x y = true).
Proof.
  intros S1 S2. unfold Search.mark. cbn [fst snd]. split; intros H.
  - rewrite (mget_mset n) by assumption. now destruct (_ && _)%bool.
  - destruct (String.eqb _ _); [|assumption].
    rewrite (mget_mset n) by assumption. now destruct (_ && _)%bool.
Qed.

Lemma mark_sets n s cluster acc i j :
  square n (fst acc) -> square n (snd acc) ->
  (nth i s O < n)%nat -> (nth j s O < n)%nat ->
  mget false (fst (Search.mark s cluster acc i j)) (nth i s O) (nth j s O) = true /\
  (nth i cluster "" = nth j cluster "" ->
   mget false (snd (Search.mark s cluster acc i j)) (nth i s O) (nth j s O) = true).
Proof.
  intros S1 S2 Hi Hj. unfold Search.mark. cbn [fst snd].
  apply Nat.ltb_lt in Hi, Hj. split.
  - rewrite (mget_mset n) by assumption. now rewrite !Nat.eqb_refl, Hi, Hj.
  - intros E. apply String.eqb_eq in E. rewrite E.
    rewrite (mget_mset n) by assumption. now rewrite !Nat.eqb_refl, Hi, Hj.
Qed.

Lemma mark_squares n s cluster acc i j :
  square n (fst acc) /\ square n (snd acc) ->
  square n (fst (Search.mark s cluster acc i j)) /\
  square n (snd (Search.mark s cluster acc i j)).
Proof.
  intros [S1 S2]. unfold Search.mark. cbn [fst snd]. split; [now apply square_mset|].
  destruct (String.eqb _ _); [now apply square_mset | assumption].
Qed.

(** After the double loop the entry of positions [i0] and [j0] is set,
    in the second array when the labels agree. *)
Lemma subsample_clustering_sets L adata n k r s i0 j0 :
  (i0 < k)%nat -> (j0 < k)%nat ->
  (nth i0 s O < n)%nat -> (nth j0 s O < n)%nat ->
  let res := Search.subsample_clustering L adata n k r s in
  let cluster := louvain_labels L (take_rows adata s) r in
  mget false (fst res) (nth i0 s O) (nth j0 s O) = true /\
  (nth i0 cluster "" = nth j0 cluster "" ->
   mget false (snd res) (nth i0 s O) (nth j0 s O) = true).
Proof.
  intros Hi Hj Hx Hy res cluster. unfold res, Search.subsample_clustering. fold cluster.
  set (Sq := fun acc : matrix bool * matrix bool => square n (fst acc) /\ square n (snd acc)).
  set (P := fun acc : matrix bool * matrix bool =>
              mget false (fst acc) (nth i0 s O) (nth j0 s O) = true /\
              (nth i0 cluster "" = nth j0 cluster "" ->
               mget false (snd acc) (nth i0 s O) (nth j0 s O) = true)).
  assert (Inner_sq : forall i acc, Sq acc ->
            Sq (fold_left (fun acc j => Search.mark s cluster acc i j) (seq 0 k) acc)).
  { intros i acc Hacc. apply fold_left_invariant; [|assumption].
    intros acc' j _. apply mark_squares. }
  assert (Keep : forall i j acc, Sq acc -> P acc -> P (Search.mark s cluster acc i j)).
  { intros i j acc [S1 S2] [P1 P2].
    destruct (mark_keeps n s cluster acc i j (nth i0 s O) (nth j0 s O) S1 S2) as [K1 K2].
    split; auto. }
  apply (fold_left_establish Sq P) with (x0 := i0).
  - apply in_seq. lia.
  - split; apply square_mzeros.
  - intros acc i _. apply Inner_sq.
  - intros acc Hacc. apply (fold_left_establish Sq P) with (x0 := j0).
    + apply in_seq. lia.
    + assumption.
    + intros acc' j _. apply mark_squares.
    + intros acc' [S1 S2]. now apply (mark_sets n).
    + intros acc' j _. apply Keep.
  - intros acc i _ Hacc Pacc.
    apply (fold_left_invariant (fun a => Sq a /\ P a)); [|now split].
    intros acc' j _ [Sa Pa]. split; [now apply mark_squares | now apply Keep].
Qed.

(** X4.  For a subsample of [k] distinct cells below [n]: the first array
    of [subsample_clustering] is set exactly at the pairs of sampled
    cells; the second, at the cells of two positions, exactly when their
    labels on the subsample agree; and an entry of the second is never set
    without the same entry of the first. *)
Theorem subsample_clustering_entries (L : Library) adata n k r s :
  List.length s = k -> Forall (fun x => (x < n)%nat) s -> NoDup s ->
  let res := Search.subsample_clustering L adata n k r s in
  let cluster := louvain_labels L (take_rows adata s) r in
  (forall x y, mget false (fst res) x y = true <-> In x s /\ In y s) /\
  (forall i j, (i < k)%nat -> (j < k)%nat ->
     (mget false (snd res) (nth i s O) (nth j s O) = true
      <-> nth i cluster "" = nth j cluster "")) /\
  (forall x y, mget false (snd res) x y = true -> mget false (fst res) x y = true).
Proof.
  intros Hk Hn Hd res cluster. rewrite Forall_forall in Hn.
  destruct (subsample_clustering_within L adata n k r s Hk) as (_ & _ & Hin).
  destruct (subsample_clustering_coclustered L adata n k r s) as (_ & _ & Hsub & Hby).
  fold res in Hin, Hsub, Hby. fold cluster in Hby.
  split; [|split].
  - intros x y. split; [intros H; apply Hin; now left|].
    intros [Hx Hy].
    destruct (In_nth _ _ O Hx) as (i0 & Hi0 & <-).
    destruct (In_nth _ _ O Hy) as (j0 & Hj0 & <-).
    apply (subsample_clustering_sets L adata n k r s i0 j0); try lia;
      apply Hn, nth_In; lia.
  - intros i j Hi Hj. split.
    + intros H. destruct (Hby _ _ H) as (i' & j' & Hi' & Hj' & Ei & Ej & El).
      rewrite NoDup_nth in Hd.
      apply Hd in Ei; [|lia|lia]. apply Hd in Ej; [|lia|lia]. now subst.
    + apply (subsample_clustering_sets L adata n k r s i j); try lia;
        apply Hn, nth_In; lia.
  - exact Hsub.
Qed.

(** X4 at work: the first four of five cells. *)
Lemma subsample_clustering_entries_witness :
  mget false (fst (Search.subsample_clustering toy stored5 5 4 0.6 [0; 1; 2; 3]%nat)) 0 2 = true
  <-> In 0%nat [0; 1; 2; 3]%nat /\ In 2%nat [0; 1; 2; 3]%nat.
Proof.
  refine (proj1
    (subsample_clustering_entries toy stored5 5 4 0.6%float [0; 1; 2; 3]%nat _ _ _) 0%nat 2%nat).
  - reflexivity.
  - repeat constructor.
  - repeat (constructor; [simpl; lia|]). constructor.
Defined.

(** ** Counts of co-occurrence and of co-clustering *)

Lemma hits_cons m ms x y :
  hits (m :: ms) x y = ((if mget false m x y then 1 else 0) + hits ms x y)%Z.
Proof.
  unfold hits. simpl. destruct (mget false m x y); simpl List.length; lia.
Qed.

Lemma msum_hits_from n ms x y : forall acc,
  Forall (square n) ms -> square n acc -> (x < n)%nat -> (y < n)%nat ->
  mget 0%Z (fold_left Search.madd ms acc) x y = (mget 0%Z acc x y + hits ms x y)%Z.
Proof.
  induction ms as [|m ms IH]; intros acc Hs Sa Hx Hy; simpl.
  - unfold hits. simpl. lia.
  - inversion Hs as [|? ? Sm Hs']; subst.
    rewrite IH by (auto using madd_square).
    rewrite (mget_madd n), hits_cons by assumption. lia.
Qed.

Lemma msum_hits n ms x y :
  Forall (square n) ms -> (x < n)%nat -> (y < n)%nat ->
  mget 0%Z (Search.msum n ms) x y = hits ms x y.
Proof.
  intros Hs Hx Hy. unfold Search.msum.
  rewrite (msum_hits_from n) by (auto using square_mzeros).
  now rewrite mget_mzeros.
Qed.

Lemma hits_bounds (results : list (matrix bool * matrix bool)) x y :
  Forall (fun res => mget false (snd res) x y = true -> mget false (fst res) x y = true)
         results ->
  (0 <= hits (map snd results) x y <= hits (map fst results) x y)%Z /\
  (hits (map fst results) x y <= Z.of_nat (List.length results))%Z.
Proof.
  induction 1 as [|res results H _ IH]; [unfold hits; simpl; lia|].
  cbn [map List.length]. rewrite !hits_cons.
  destruct (mget false (snd res) x y); [rewrite H by reflexivity|];
    destruct (mget false (fst res) x y); lia.
Qed.

Lemma results_squares L adata n k r subsamples :
  Forall (square n) (map fst (map (Search.subsample_clustering L adata n k r) subsamples)) /\
  Forall (square n) (map snd (map (Search.subsample_clustering L adata n k r) subsamples)).
Proof.
  pose proof (results_square L adata n k r subsamples) as Sq.
  split; apply Forall_map; revert Sq; apply Forall_impl; tauto.
Qed.

(** X5.  In the sums of lines 211-212 an entry counts the subsamples in
    which the pair was marked.  For every pair the co-clustering count
    lies between 0 and the co-occurrence count, which is at most the
    number of subsamples; and after line 214 the denominator is the
    co-occurrence count, or 1000000 where that is 0, so it is at least 1
    and not below the numerator. *)
Theorem cocluster_counts_bounded (L : Library) adata n k r subsamples x y :
  (x < n)%nat -> (y < n)%nat ->
  let results := map (Search.subsample_clustering L adata n k r) subsamples in
  let c := mget 0%Z (Search.msum n (map snd results)) x y in
  let s := mget 0%Z (Search.msum n (map fst results)) x y in
  let s' := mget 0%Z (Search.sentinel (Search.msum n (map fst results))) x y in
  c = hits (map snd results) x y /\ s = hits (map fst results) x y /\
  (0 <= c <= s)%Z /\ (s <= Z.of_nat (List.length subsamples))%Z /\
  s' = (if (s =? 0)%Z then 1000000 else s)%Z /\ (1 <= s')%Z /\ (c <= s')%Z.
Proof.
  intros Hx Hy results c s s'.
  destruct (results_squares L adata n k r subsamples) as [Sf Ss].
  fold results in Sf, Ss.
  assert (Ec : c = hits (map snd results) x y) by now apply msum_hits.
  assert (Es : s = hits (map fst results) x y) by now apply msum_hits.
  assert (B : (0 <= c <= s)%Z /\ (s <= Z.of_nat (List.length subsamples))%Z).
  { rewrite Ec, Es. replace (List.length subsamples) with (List.length results)
      by apply length_map.
    apply hits_bounds. apply Forall_map, Forall_forall. intros sub _.
    destruct (subsample_clustering_coclustered L adata n k r sub) as (_ & _ & H & _).
    apply H. }
  assert (E' : s' = (if (s =? 0)%Z then 1000000 else s)%Z).
  { unfold s'. rewrite (mget_sentinel n); auto using msum_square. }
  repeat split; try tauto; rewrite E'; destruct (Z.eqb_spec s 0); lia.
Qed.

(** X5 at work: the two subsamples of five cells, cells 1 and 3. *)
Lemma cocluster_counts_bounded_witness :
  (0 <= mget 0%Z (Search.msum 5 (map snd
          (map (Search.subsample_clustering toy stored5 5 4 0.6) two_subsamples))) 1 3
     <= mget 0%Z (Search.msum 5 (map fst
          (map (Search.subsample_clustering toy stored5 5 4 0.6) two_subsamples))) 1 3)%Z.
Proof.
  refine (proj1 (proj2 (proj2
    (cocluster_counts_bounded toy stored5 5 4 0.6%float two_subsamples 1 3 _ _)))); lia.
Defined.

Lemma hits_ext ms x y x' y' :
  Forall (fun m => mget false m x y = mget false m x' y') ms ->
  hits ms x y = hits ms x' y'.
Proof.
  induction 1 as [|m ms H _ IH]; [reflexivity|]. now rewrite !hits_cons, H, IH.
Qed.

Lemma bool_eq_iff (a b : bool) : (a = true <-> b = true) -> a = b.
Proof. destruct a, b; intuition congruence. Qed.

Lemma subsample_clustering_symmetric L adata n k r s x y :
  List.length s = k -> (x < n)%nat -> (y < n)%nat ->
  let res := Search.subsample_clustering L adata n k r s in
  mget false (fst res) x y = mget false (fst res) y x /\
  mget false (snd res) x y = mget false (snd res) y x.
Proof.
  intros Hk Hx Hy res.
  destruct (subsample_clustering_within L adata n k r s Hk) as (_ & _ & Hin).
  destruct (subsample_clustering_coclustered L adata n k r s) as (_ & _ & _ & Hby).
  fold res in Hin, Hby.
  assert (Sub : forall a b, (a < n)%nat -> (b < n)%nat ->
                  mget false (fst res) a b = true -> mget false (fst res) b a = true).
  { intros a b Ha Hb H. destruct (Hin a b (or_introl H)) as [Ia Ib].
    destruct (In_nth _ _ O Ia) as (i0 & Hi0 & Ei). destruct (In_nth _ _ O Ib) as (j0 & Hj0 & Ej).
    rewrite <- Ei, <- Ej.
    apply (subsample_clustering_sets L adata n k r s j0 i0); try lia;
      rewrite ?Ei, ?Ej; assumption. }
  assert (Co : forall a b, (a < n)%nat -> (b < n)%nat ->
                 mget false (snd res) a b = true -> mget false (snd res) b a = true).
  { intros a b Ha Hb H. destruct (Hby a b H) as (i & j & Hi & Hj & Ei & Ej & El).
    rewrite <- Ei, <- Ej.
    apply (subsample_clustering_sets L adata n k r s j i); try lia;
      rewrite ?Ei, ?Ej; auto. }
  split; apply bool_eq_iff; split; auto.
Qed.

(** X6.  The distance matrix of a candidate is symmetric: for two cells
    of the data, the entry does not depend on their order. *)
Theorem distance_symmetric (L : Library) adata n k r subsamples x y :
  (x < n)%nat -> (y < n)%nat ->
  Forall (fun s => List.length s = k) subsamples ->
  let results := map (Search.subsample_clustering L adata n k r) subsamples in
  mget 0%float (Search.distance_matrix n results) x y
  = mget 0%float (Search.distance_matrix n results) y x.
Proof.
  intros Hx Hy Hk results.
  pose proof (results_square L adata n k r subsamples) as Sq. fold results in Sq.
  destruct (results_squares L adata n k r subsamples) as [Sf Ss]. fold results in Sf, Ss.
  rewrite !distance_entry by assumption.
  rewrite (Nat.eqb_sym y x). destruct (x =? y)%nat; [reflexivity|].
  rewrite !(mget_sentinel n), !msum_hits by (auto using msum_square).
  assert (Ef : hits (map fst results) x y = hits (map fst results) y x).
  { apply hits_ext. unfold results. rewrite map_map. apply Forall_map.
    revert Hk. apply Forall_impl. intros s Hs.
    now apply (subsample_clustering_symmetric L adata n k r s x y). }
  assert (Es : hits (map snd results) x y = hits (map snd results) y x).
  { apply hits_ext. unfold results. rewrite map_map. apply Forall_map.
    revert Hk. apply Forall_impl. intros s Hs.
    now apply (subsample_clustering_symmetric L adata n k r s x y). }
  now rewrite Ef, Es.
Qed.

(** X6 at work: the two subsamples of five cells, cells 1 and 3. *)
Lemma distance_symmetric_witness :
  mget 0%float (Search.distance_matrix 5
     (map (Search.subsample_clustering toy stored5 5 4 0.6) two_subsamples)) 1 3
  = mget 0%float (Search.distance_matrix 5
     (map (Search.subsample_clustering toy stored5 5 4 0.6) two_subsamples)) 3 1.
Proof.
  apply (distance_symmetric toy stored5 5 4 0.6%float two_subsamples 1 3).
  - lia.
  - lia.
  - repeat constructor.
Defined.

(** ** What the search writes *)

Lemma search_without_pool L cpus g adata0 :
  (cpus < 1)%Z -> Search.search L cpus g adata0 = Raise "ValueError".
Proof.
  intros C. unfold Search.search.
  rewrite resolutions_values. cbn [enumerate List.length seq combine for_each].
  unfold Search.candidate at 1.
  destruct (Search.draw _ _ _ _ _) as [ss g']. unfold Search.pool_map.
  apply Z.ltb_lt in C. now rewrite C.
Qed.

Lemma search_result L cpus g adata0 st :
  (1 <= cpus)%Z -> Search.search L cpus g adata0 = Ok st ->
  cells (Search.adata st) = cells adata0 /\
  obs (Search.adata st)
  = fold_left (fun t r => set_col t (Search.key (Np.round1 r))
                                  (louvain_labels L adata0 (Np.round1 r)))
              Search.resolutions (obs adata0).
Proof.
  intros C. unfold Search.search. rewrite search_loop by assumption.
  set (st' := fold_left _ _ _). intros E.
  assert (Est : st = st') by congruence. subst st. unfold st'.
  rewrite scored_cells, scored_obs. unfold enumerate. rewrite map_snd_combine_seq.
  split; reflexivity.
Qed.

Lemma stored_keys :
  map (fun r => Search.key (Np.round1 r)) Search.resolutions
  = map Search.key Search.resolutions.
Proof. now rewrite <- (map_map Np.round1 Search.key), resolutions_rounded. Qed.

Lemma auto_resolution_needs_pool L cpus g adata0 out :
  Search.auto_resolution L cpus g adata0 = Ok out -> (1 <= cpus)%Z.
Proof.
  unfold Search.auto_resolution. destruct (Z.ltb_spec cpus 1) as [C|C]; [|auto].
  rewrite search_without_pool by assumption. discriminate.
Qed.

(** X7.  A search that completes leaves the cells as they were, returns
    one of the six grid values, holds the labels of every candidate under
    its key, and has changed no column besides ['louvain'] and those six:
    any other column of the per-cell table reads as before. *)
Theorem auto_resolution_other_columns (L : Library) cpus g adata0 best adata' :
  Search.auto_resolution L cpus g adata0 = Ok (best, adata') ->
  cells adata' = cells adata0 /\
  In best Search.resolutions /\
  (forall r, In r Search.resolutions ->
     get_col (obs adata') (Search.key r) = Ok (louvain_labels L adata0 (Np.round1 r))) /\
  (forall k, k <> "louvain" -> ~ In k (map Search.key Search.resolutions) ->
     get_col (obs adata') k = get_col (obs adata0) k).
Proof.
  intros H. pose proof (auto_resolution_needs_pool _ _ _ _ _ H) as C.
  destruct (search_scored L cpus g adata0 C) as (st & Hs & Hc & Hl & _ & Hg & _).
  destruct (select_scored L st adata0 Hc Hl Hg) as (i & _ & Hi & Hsel).
  unfold Search.auto_resolution in H. rewrite Hs in H. cbn [bind] in H.
  rewrite Hsel in H.
  assert (Eb : best = nth i Search.resolutions nan) by congruence.
  assert (Ea : adata'
               = {| cells := cells adata0;
                    obs := set_col (obs (Search.adata st)) "louvain"
                             (louvain_labels L adata0
                                (Np.round1 (nth i Search.resolutions nan))) |})
    by congruence.
  clear H. subst best adata'. cbn [cells obs].
  split; [reflexivity|].
  split; [apply nth_In; now rewrite resolutions_values|].
  destruct (search_result L cpus g adata0 st C Hs) as [_ Ho].
  split.
  - intros r Hr. rewrite get_set_other; [now apply Hg|].
    intros E. apply (in_map Search.key) in Hr. rewrite keys_values, <- E in Hr.
    simpl in Hr. intuition discriminate.
  - intros k Hk Hn. rewrite get_set_other by congruence. rewrite Ho.
    apply get_fold_other. now rewrite stored_keys.
Qed.

(** X7 at work on the stand-in library and the five stored cells. *)
Lemma auto_resolution_other_columns_witness :
  In 0.4%float Search.resolutions.
Proof.
  refine (proj1 (proj2
    (auto_resolution_other_columns toy 1 O stored5 0.4%float
       {| cells := [0; 1; 2; 3; 4]%nat;
          obs := [("louvain", ["0"; "1"; "0"; "1"; "0"]);
                  ("louvain_r0.4", ["0"; "1"; "0"; "1"; "0"]);
                  ("louvain_r0.6", ["0"; "1"; "0"; "1"; "0"]);
                  ("louvain_r0.8", ["0"; "1"; "0"; "1"; "0"]);
                  ("louvain_r1.0", ["0"; "1"; "0"; "1"; "0"]);
                  ("louvain_r1.2", ["0"; "1"; "0"; "1"; "0"]);
                  ("louvain_r1.4", ["0"; "1"; "0"; "1"; "0"])] |} _))).
  vm_compute. reflexivity.
Defined.


(** ** Ties between candidates *)

Lemma argmax_from_first pre xs mp best :
  (best < List.length pre)%nat -> nth best pre nan = mp ->
  Forall (fun v => is_nan v = false) (pre ++ xs) ->
  Forall (fun v => (v <=? mp)%float = true) pre ->
  (forall j, (j < best)%nat -> (mp <=? nth j pre nan)%float = false) ->
  forall j, (j < Np.argmax_from xs (List.length pre) mp best)%nat ->
    (nth (Np.argmax_from xs (List.length pre) mp best) (pre ++ xs) nan
     <=? nth j (pre ++ xs) nan)%float = false.
Proof.
  revert pre mp best; induction xs as [|x xs IH]; simpl; intros pre mp best Hb Hm Hn Hp Hf.
  - rewrite app_nil_r. rewrite Hm. exact Hf.
  - assert (Nm : is_nan mp = false).
    { rewrite Forall_forall in Hn. apply Hn. apply in_or_app. left.
      rewrite <- Hm. now apply nth_In. }
    rewrite Nm.
    replace (pre ++ x :: xs) with ((pre ++ [x]) ++ xs) in * by now rewrite <- app_assoc.
    replace (S (List.length pre)) with (List.length (pre ++ [x]))
      by (rewrite length_app; simpl; lia).
    destruct (x <=? mp)%float eqn:E.
    + apply IH; try assumption.
      * rewrite length_app. lia.
      * now rewrite app_nth1.
      * apply Forall_app. split; [assumption | now constructor].
      * intros j Hj. rewrite app_nth1 by lia. now apply Hf.
    + apply IH; try assumption.
      * rewrite length_app. simpl. lia.
      * rewrite app_nth2 by lia. now rewrite Nat.sub_diag.
      * assert (Nx : is_nan x = false).
        { rewrite Forall_forall in Hn. apply Hn. apply in_or_app. left.
          apply in_or_app. right. now left. }
        apply Forall_app. split; [|constructor; [now apply leb_refl | constructor]].
        revert Hp. apply Forall_impl. intros v Hv.
        apply (leb_trans v mp x); [assumption | apply leb_total; auto].
      * intros j Hj. rewrite app_nth1 by lia.
        destruct (x <=? nth j pre nan)%float eqn:F; [|reflexivity].
        rewrite Forall_forall in Hp.
        rewrite (leb_trans x (nth j pre nan) mp) in E; [discriminate | exact F |].
        apply Hp, nth_In. lia.
Qed.

(** X9.  When the selection of line 223 succeeds and no score is NaN, the
    resolution kept is the grid value at a position whose score no other
    score exceeds and which every earlier score stays strictly below: of
    several candidates with the highest score the lowest resolution is
    kept. *)
Theorem select_first_maximum (L : Library) (st : Search.State L) best adata' :
  Search.select L st = Ok (best, adata') ->
  Forall (fun v => is_nan v = false) (Search.silhouette_avg st) ->
  exists i,
    best = nth i Search.resolutions nan /\
    (i < List.length (Search.silhouette_avg st))%nat /\
    Forall (fun v => (v <=? nth i (Search.silhouette_avg st) nan)%float = true)
           (Search.silhouette_avg st) /\
    (forall j, (j < i)%nat ->
       (nth i (Search.silhouette_avg st) nan <=? nth j (Search.silhouette_avg st) nan)%float
       = false).
Proof.
  unfold Search.select. intros H Hn.
  destruct (Np.argmax (Search.silhouette_avg st)) as [i|] eqn:E; [|discriminate].
  destruct (get_col _ _) as [labels| |]; cbn [bind] in H; try discriminate.
  exists i. split; [congruence|].
  destruct (argmax_is_max _ _ E) as [Hi Hmax]. split; [exact Hi|]. split; [auto|].
  destruct (Search.silhouette_avg st) as [|x xs]; [discriminate|].
  simpl in E. injection E as <-.
  apply (argmax_from_first [x] xs x 0); simpl; auto; try lia.
  constructor; [|constructor]. apply leb_refl. now inversion Hn.
Qed.

(** X9 at work: the scores 0.1, 0.5, 0.5, 0.2, 0.5, 0.3 keep 0.6. *)
Lemma select_first_maximum_witness :
  exists i,
    0.6%float = nth i Search.resolutions nan /\
    (i < List.length (Search.silhouette_avg tied_scores))%nat /\
    Forall (fun v => (v <=? nth i (Search.silhouette_avg tied_scores) nan)%float = true)
           (Search.silhouette_avg tied_scores) /\
    (forall j, (j < i)%nat ->
       (nth i (Search.silhouette_avg tied_scores) nan
        <=? nth j (Search.silhouette_avg tied_scores) nan)%float = false).
Proof.
  apply (select_first_maximum toy tied_scores 0.6%float
           {| cells := [0; 1; 2]%nat;
              obs := obs (Search.adata tied_scores) ++ [("louvain", ["0"; "1"; "0"])] |}).
  - vm_compute. reflexivity.
  - repeat constructor.
Defined.

(** ** One entry per cell *)

Lemma Forall_set_col {V} (P : string * V -> Prop) (t : table V) k v :
  Forall P t -> P (k, v) -> Forall P (set_col t k v).
Proof.
  intros Ht Hv. induction t as [|[k' v'] t IH]; simpl.
  - now constructor.
  - inversion Ht; subst. destruct (k' =? k); constructor; auto.
Qed.

Lemma Forall_fold_set {V A} (P : string * V -> Prop) (key : A -> string) (val : A -> V) rs :
  forall t, Forall P t -> (forall r, In r rs -> P (key r, val r)) ->
  Forall P (fold_left (fun t r => set_col t (key r) (val r)) rs t).
Proof.
  induction rs as [|r rs IH]; simpl; intros t Ht Hr; [assumption|].
  apply IH; [apply Forall_set_col|]; auto.
Qed.

Lemma get_col_In {V} (t : table V) k v : get_col t k = Ok v -> In (k, v) t.
Proof.
  induction t as [|[k' v'] t IH]; simpl; [discriminate|].
  destruct (String.eqb_spec k' k) as [->|_]; [intros [= ->]; now left | auto].
Qed.

Lemma aligned_take_rows adata rows : aligned (take_rows adata rows).
Proof.
  unfold aligned, take_rows. cbn [cells obs]. apply Forall_map, Forall_forall.
  intros kv _. cbn [snd]. now rewrite !length_map.
Qed.

Lemma labels_length L adata r :
  (forall cs r, List.length (louvain L cs r) = List.length cs) ->
  List.length (louvain_labels L adata r) = List.length (cells adata).
Proof. intros H. unfold louvain_labels. now rewrite length_map. Qed.

(** X10.  With a Louvain that labels every cell it is given, the
    clustering stage keeps the per-cell table aligned with the cells:
    if every column had one entry per cell before, every column has one
    after, the new ones included. *)
Theorem clustering_keeps_aligned (L : Library) a g adata0 res adata' :
  (forall cs r, List.length (louvain L cs r) = List.length cs) ->
  aligned adata0 ->
  clustering L a g adata0 = Ok (res, adata') ->
  aligned adata' /\ cells adata' = cells adata0.
Proof.
  intros HL Ha. unfold clustering. destruct (auto_resolution a).
  - intros H. pose proof (auto_resolution_needs_pool _ _ _ _ _ H) as C.
    unfold Search.auto_resolution in H.
    destruct (Search.search L (cpus a) g adata0) as [st| |] eqn:Hs; cbn [bind] in H;
      try discriminate.
    destruct (search_result L (cpus a) g adata0 st C Hs) as [Hc Ho].
    assert (Al : Forall (fun kv => List.length (snd kv) = List.length (cells adata0))
                        (obs (Search.adata st))).
    { rewrite Ho. apply Forall_fold_set; [exact Ha|].
      intros r _. cbn [snd]. now apply labels_length. }
    unfold Search.select in H.
    destruct (Np.argmax _); [|discriminate].
    destruct (get_col _ _) as [labels| |] eqn:G; cbn [bind] in H; try discriminate.
    assert (Ea : adata' = {| cells := cells (Search.adata st);
                             obs := set_col (obs (Search.adata st)) "louvain" labels |})
      by congruence.
    subst adata'. unfold aligned. cbn [cells obs]. rewrite Hc. split; [|reflexivity].
    apply Forall_set_col; [exact Al|].
    apply get_col_In in G. rewrite Forall_forall in Al. exact (Al _ G).
  - intros [= _ <-]. unfold aligned, sc_louvain. cbn [cells obs]. split; [|reflexivity].
    apply Forall_set_col; [exact Ha|]. cbn [snd]. now apply labels_length.
Qed.

(** X10 at work: the five stored cells at the fixed resolution. *)
Lemma clustering_keeps_aligned_witness :
  aligned (sc_louvain toy stored5 0.6 "louvain") /\
  cells (sc_louvain toy stored5 0.6 "louvain") = cells stored5.
Proof.
  apply (clustering_keeps_aligned toy (args_h5ad "3,5" false) O stored5 0.6%float).
  - intros cs r. simpl. now rewrite length_map, length_seq.
  - repeat constructor.
  - reflexivity.
Defined.

(** ** The cells kept from a stored object *)

Lemma get_col_map {V} (f : V -> V) (t : table V) k :
  get_col (map (fun kv => (fst kv, f (snd kv))) t) k
  = match get_col t k with
    | Ok v => Ok (f v)
    | SysExit m => SysExit m
    | Raise e => Raise e
    end.
Proof.
  induction t as [|[k' v'] t IH]; simpl; [reflexivity|].
  destruct (k' =? k); [reflexivity | exact IH].
Qed.

(** X11.  Cutting a stored object down to a list of clusters keeps, in
    their order, the cells whose stored label is in the list, and only
    those: every label of the result is one of the clusters asked for,
    its cells are cells of the stored object, the table stays aligned;
    a stored object without a ['louvain'] column cannot be cut down. *)
Theorem subset_clusters_retained (stored : AnnData) clusters adata :
  subset_clusters stored clusters = Ok adata ->
  exists labels0,
    get_col (obs stored) "louvain" = Ok labels0 /\
    let keep := filter (fun i => Py.mem (nth i labels0 "") clusters)
                       (seq 0 (List.length (cells stored))) in
    cells adata = map (fun i => nth i (cells stored) O) keep /\
    get_col (obs adata) "louvain" = Ok (map (fun i => nth i labels0 "") keep) /\
    Forall (fun l => Py.mem l clusters = true) (map (fun i => nth i labels0 "") keep) /\
    incl (cells adata) (cells stored) /\
    aligned adata.
Proof.
  unfold subset_clusters. intros H.
  destruct (get_col (obs stored) "louvain") as [labels0| |] eqn:G; cbn [bind] in H;
    try discriminate.
  exists labels0. split; [reflexivity|]. cbv zeta.
  set (keep := filter _ (seq 0 (List.length (cells stored)))) in *.
  assert (E : adata = take_rows stored keep) by congruence. subst adata.
  split; [reflexivity|]. split.
  - unfold take_rows. cbn [obs].
    rewrite (get_col_map (fun v => map (fun i => nth i v "") keep)), G. reflexivity.
  - split; [|split].
    + apply Forall_map, Forall_forall. intros i Hi. now apply filter_In in Hi.
    + intros c Hc. unfold take_rows in Hc. cbn [cells] in Hc.
      apply in_map_iff in Hc as (i & <- & Hi). apply filter_In in Hi as [Hi _].
      apply in_seq in Hi. apply nth_In. lia.
    + apply aligned_take_rows.
Qed.

(** X11 at work: the clusters 3 and 5 of the five stored cells. *)
Lemma subset_clusters_retained_witness :
  exists labels0,
    get_col (obs stored5) "louvain" = Ok labels0 /\
    let keep := filter (fun i => Py.mem (nth i labels0 "") ["3"; "5"])
                       (seq 0 (List.length (cells stored5))) in
    cells (take_rows stored5 [0; 1; 2; 3]%nat) = map (fun i => nth i (cells stored5) O) keep /\
    get_col (obs (take_rows stored5 [0; 1; 2; 3]%nat)) "louvain"
    = Ok (map (fun i => nth i labels0 "") keep) /\
    Forall (fun l => Py.mem l ["3"; "5"] = true) (map (fun i => nth i labels0 "") keep) /\
    incl (cells (take_rows stored5 [0; 1; 2; 3]%nat)) (cells stored5) /\
    aligned (take_rows stored5 [0; 1; 2; 3]%nat).
Proof.
  apply (subset_clusters_retained stored5 ["3"; "5"] (take_rows stored5 [0; 1; 2; 3]%nat)).
  reflexivity.
Defined.

(** ** The groups of the annotation step *)




Lemma write_groups_out_of_bounds L adata labels gs : forall mat c,
  (forall g, In g gs -> exists c', g = Py.str_nat c') ->
  In (Py.str_nat c) gs -> (List.length mat <= c)%nat ->
  for_each (Annotation.write_group L adata labels) gs mat = Raise "IndexError".
Proof.
  induction gs as [|g gs IH]; intros mat c Hg Hin Hc; [contradiction|].
  cbn [for_each]. destruct (Hg g (or_introl eq_refl)) as [c0 ->].
  destruct (Nat.lt_ge_cases c0 (List.length mat)) as [Lt|Ge].
  - rewrite write_group_label by assumption. cbn [bind].
    destruct Hin as [E | Hin]; [apply str_nat_inj in E; lia|].
    apply (IH _ c); [intros g Hi; apply Hg; now right | exact Hin |].
    now rewrite upd_length.
  - unfold Annotation.write_group, Annotation.set_column. rewrite int_str_nat.
    destruct (Z.ltb_spec (Z.of_nat c0) (Z.of_nat (List.length mat))); [lia|].
    rewrite andb_false_r.
    destruct (Z.ltb_spec (Z.of_nat c0) 0); [lia|]. rewrite andb_false_r. reflexivity.
Qed.

(** X13.  Community numbers with a gap end the annotation step in an
    [IndexError]: if some label's number is not below the number of
    distinct labels, the write of line 244 falls outside the matrix. *)
Theorem cluster_mean_exp_gap (L : Library) adata m c :
  get_col (obs adata) "louvain" = Ok (map Py.str_nat m) ->
  In c m -> (List.length (Py.unique (map Py.str_nat m)) <= c)%nat ->
  Annotation.cluster_mean_exp L adata = Raise "IndexError".
Proof.
  intros G Hin Hc. unfold Annotation.cluster_mean_exp. rewrite G. cbn [bind].
  destruct (groups_of_labels m) as (groups & Eg & P). rewrite Eg. cbn [bind].
  rewrite (write_groups_out_of_bounds L adata (map Py.str_nat m) groups _ c).
  - reflexivity.
  - intros g Hg. apply (Permutation_in _ P), In_unique, in_map_iff in Hg.
    destruct Hg as (c' & <- & _). now exists c'.
  - apply (Permutation_in _ (Permutation_sym P)), In_unique, in_map. exact Hin.
  - rewrite repeat_length, (Permutation_length P). exact Hc.
Qed.

(** X13 at work: the labels 0 and 2 on three cells. *)
Lemma cluster_mean_exp_gap_witness :
  Annotation.cluster_mean_exp toy
    {| cells := [0; 1; 2]%nat; obs := [("louvain", ["0"; "2"; "0"])] |}
  = Raise "IndexError".
Proof.
  apply (cluster_mean_exp_gap toy
           {| cells := [0; 1; 2]%nat; obs := [("louvain", ["0"; "2"; "0"])] |}
           [0; 2; 0]%nat 2%nat).
  - reflexivity.
  - simpl. auto.
  - vm_compute. lia.
Defined.

(** ** The order of the groups *)

Lemma insert_by_key x l :
  StronglySorted by_key l ->
  StronglySorted by_key (Py.insert (fun a b => (fst a <=? fst b)%Z) x l).
Proof.
  induction 1 as [|y ys Hs IH Hy]; simpl.
  - repeat constructor.
  - destruct (Z.leb_spec (fst x) (fst y)) as [Le|Gt].
    + constructor; [now constructor|]. constructor; [exact Le|].
      revert Hy. apply Forall_impl. unfold by_key. intros z Hz. lia.
    + constructor; [exact IH|].
      apply Forall_forall. intros z Hz.
      apply (Permutation_in _ (insert_perm _ x ys)) in Hz. destruct Hz as [<- | Hz].
      * unfold by_key. lia.
      * rewrite Forall_forall in Hy. now apply Hy.
Qed.

Lemma sorted_by_key l :
  StronglySorted by_key (Py.sorted (fun a b => (fst a <=? fst b)%Z) l).
Proof.
  induction l as [|x l IH]; simpl; [constructor|]. now apply insert_by_key.
Qed.

Lemma int_keys_numbers cs :
  Annotation.int_keys (map Py.str_nat cs) = Ok (map keyed_label cs).
Proof.
  induction cs as [|c cs IH]; simpl; [reflexivity|].
  now rewrite int_str_nat, IH.
Qed.

Lemma labels_are_numbers ls :
  Forall (fun l => exists c, l = Py.str_nat c) ls -> exists cs, ls = map Py.str_nat cs.
Proof.
  induction 1 as [|l ls [c ->] _ [cs ->]]; [now exists [] | now exists (c :: cs)].
Qed.

Lemma sorted_range l : forall s,
  StronglySorted le l -> NoDup l ->
  (forall c, In c l <-> (s <= c < s + List.length l)%nat) ->
  l = seq s (List.length l).
Proof.
  induction l as [|a l IH]; intros s Hs Hd Hm; [reflexivity|].
  inversion Hs as [|? ? Hs' Ha]; subst. inversion Hd as [|? ? Hn Hd']; subst.
  cbn [List.length seq] in *.
  assert (Ea : a = s).
  { assert (I : In s (a :: l)) by (apply Hm; lia).
    assert (J : (s <= a)%nat) by (apply (Hm a); now left).
    destruct I as [->|I]; [reflexivity|].
    rewrite Forall_forall in Ha. specialize (Ha s I). lia. }
  subst a. f_equal. apply IH; auto.
  intros c. split.
  - intros Hc. assert (c <> s) by congruence.
    assert (s <= c < s + S (List.length l))%nat by (apply Hm; now right). lia.
  - intros Hc. assert (I : In c (s :: l)) by (apply Hm; lia).
    destruct I as [->|I]; [lia | exact I].
Qed.

Lemma contiguous_below m cs c :
  contiguous m -> NoDup cs -> (forall c', In c' cs <-> In c' m) ->
  (c < List.length cs)%nat -> In c m.
Proof.
  intros Hm Hd Hcs Hc.
  destruct (in_dec Nat.eq_dec c m) as [I|N]; [exact I|]. exfalso.
  assert (Incl : incl cs (seq 0 c)).
  { intros e He. apply in_seq. apply Hcs in He.
    destruct (Nat.lt_trichotomy e c) as [Lt | [-> | Gt]]; [lia | contradiction |].
    exfalso. apply N. now apply (Hm e c). }
  apply NoDup_incl_length in Incl; [|exact Hd]. rewrite length_seq in Incl. lia.
Qed.

Lemma groups_of_contiguous m :
  contiguous m ->
  Annotation.groups_of (map Py.str_nat m)
  = Ok (map Py.str_nat (seq 0 (List.length (Py.unique (map Py.str_nat m))))).
Proof.
  intros Hm. unfold Annotation.groups_of.
  destruct (labels_are_numbers (Py.unique (map Py.str_nat m))) as [cs Ecs].
  { apply Forall_forall. intros l Hl. apply In_unique, in_map_iff in Hl.
    destruct Hl as (c & <- & _). now exists c. }
  assert (Dcs : NoDup cs).
  { apply (NoDup_map_inv Py.str_nat). rewrite <- Ecs. apply NoDup_unique. }
  assert (Mcs : forall c, In c cs <-> In c m).
  { intros c. split; intros H.
    - apply (in_map Py.str_nat) in H. rewrite <- Ecs in H.
      apply In_unique, in_map_iff in H. destruct H as (c' & E & H).
      apply str_nat_inj in E. now subst.
    - assert (I : In (Py.str_nat c) (map Py.str_nat cs))
        by (rewrite <- Ecs; now apply In_unique, in_map).
      apply in_map_iff in I as (c' & E & I). apply str_nat_inj in E. now subst. }
  rewrite Ecs, int_keys_numbers. cbn [bind]. rewrite length_map.
  set (sk := Py.sorted _ (map keyed_label cs)).
  assert (P : Permutation sk (map keyed_label cs)) by apply sorted_perm.
  assert (S : StronglySorted by_key sk) by apply sorted_by_key.
  destruct (Permutation_map_inv _ _ P) as (cs' & Esk & P').
  rewrite Esk in S |- *. clear P.
  assert (Len : List.length cs' = List.length cs)
    by (symmetry; now apply Permutation_length).
  assert (Scs : StronglySorted le cs').
  { clear -S. induction cs' as [|c cs' IH]; [constructor|].
    inversion S as [|? ? S' F]; subst. constructor; [auto|].
    rewrite Forall_map in F. revert F. apply Forall_impl. unfold by_key, keyed_label.
    simpl. intros z Hz. lia. }
  assert (Ecs' : cs' = seq 0 (List.length cs')).
  { apply sorted_range; [exact Scs | exact (Permutation_NoDup P' Dcs) |].
    intros c. rewrite Len. split.
    - intros H. apply (Permutation_in _ (Permutation_sym P')) in H.
      apply Mcs in H. split; [lia|]. simpl.
      pose proof (label_below_count m c Hm H) as B. rewrite Ecs, length_map in B. exact B.
    - intros [_ H]. apply (Permutation_in _ P'), Mcs.
      now apply (contiguous_below m cs c). }
  rewrite map_map. cbn [keyed_label snd]. rewrite <- Len. f_equal.
  rewrite Ecs' at 1. reflexivity.
Qed.

(** X12.  With community numbers that leave no gap, the groups of line
    237 are the labels 0 to k-1 in numerical order, k being the number of
    distinct labels, and column [c] of the matrix holds the mean vector of
    the cells labelled [c]: the header given to the table at line 245
    names each column by the cluster whose means it holds. *)
Theorem cluster_mean_exp_columns (L : Library) adata m :
  get_col (obs adata) "louvain" = Ok (map Py.str_nat m) ->
  contiguous m ->
  let k := List.length (Py.unique (map Py.str_nat m)) in
  exists mat,
    Annotation.cluster_mean_exp L adata = Ok (map Py.str_nat (seq 0 k), mat) /\
    List.length mat = k /\
    (forall c, (c < k)%nat ->
       nth c (map Py.str_nat (seq 0 k)) "" = Py.str_nat c /\
       nth c mat [] = raw_mean L (Annotation.cells_of adata (map Py.str_nat m) (Py.str_nat c))).
Proof.
  intros G Hm k.
  destruct (cluster_mean_exp_contiguous L adata m G Hm) as (groups & mat & E & Hl & _ & Hw).
  assert (Eg : groups = map Py.str_nat (seq 0 k)).
  { pose proof (groups_of_contiguous m Hm) as Q. fold k in Q.
    unfold Annotation.cluster_mean_exp in E. rewrite G in E. cbn [bind] in E.
    rewrite Q in E. cbn [bind] in E.
    destruct (for_each _ _ _); cbn [bind] in E; congruence. }
  subst groups. rewrite length_map, length_seq in Hl, Hw.
  exists mat. split; [exact E|]. split; [exact Hl|].
  intros c Hc.
  assert (N : nth c (map Py.str_nat (seq 0 k)) "" = Py.str_nat c).
  { rewrite (nth_map_lt _ _ _ _ O) by now rewrite length_seq. now rewrite seq_nth. }
  split; [exact N|].
  destruct (Hw (Py.str_nat c)) as (c' & Ei & _ & Hn).
  { apply in_map, in_seq. lia. }
  rewrite int_str_nat in Ei. injection Ei as Ei. apply Nat2Z.inj in Ei. now subst c'.
Qed.

(** X12 at work: the labels 1, 0, 1, 2 on four cells. *)
Lemma cluster_mean_exp_columns_witness :
  exists mat,
    Annotation.cluster_mean_exp toy
      {| cells := [0; 1; 2; 3]%nat; obs := [("louvain", ["1"; "0"; "1"; "2"])] |}
    = Ok (["0"; "1"; "2"], mat) /\
    List.length mat = 3%nat.
Proof.
  destruct (cluster_mean_exp_columns toy
              {| cells := [0; 1; 2; 3]%nat; obs := [("louvain", ["1"; "0"; "1"; "2"])] |}
              [1; 0; 1; 2]%nat) as (mat & E & Hl & _).
  - reflexivity.
  - intros c c' Hc Hlt. simpl in *. lia.
  - exists mat. split; [exact E | exact Hl].
Defined.

(** ** The clusters asked for (line 116) *)




Lemma append_assoc (s t u : string) : ((s ++ t) ++ u = s ++ t ++ u)%string.
Proof. induction s as [|c s IH]; simpl; [reflexivity | now rewrite IH]. Qed.












(** ** The order of the enrichment table *)

Lemma compare_not_gt_trans a : forall b c,
  String.compare a b <> Gt -> String.compare b c <> Gt -> String.compare a c <> Gt.
Proof.
  induction a as [|x a IH]; intros [|y b] [|z c]; simpl; try congruence.
  unfold Ascii.compare.
  destruct (N.compare_spec (N_of_ascii x) (N_of_ascii y)) as [E1|L1|G1];
    destruct (N.compare_spec (N_of_ascii y) (N_of_ascii z)) as [E2|L2|G2];
    destruct (N.compare_spec (N_of_ascii x) (N_of_ascii z)) as [E3|L3|G3];
    try congruence; try lia.
  apply IH.
Qed.

Lemma str_le_compare a b : str_le a b <-> String.compare a b <> Gt.
Proof.
  unfold str_le, String.leb. destruct (String.compare a b); split; congruence.
Qed.

Lemma str_le_trans a b c : str_le a b -> str_le b c -> str_le a c.
Proof. rewrite !str_le_compare. apply compare_not_gt_trans. Qed.

Lemma insert_str_le x l :
  StronglySorted str_le l -> StronglySorted str_le (Py.insert String.leb x l).
Proof.
  induction 1 as [|y ys Hs IH Hy]; simpl.
  - repeat constructor.
  - destruct (String.leb x y) eqn:E.
    + constructor; [now constructor|]. constructor; [exact E|].
      revert Hy. apply Forall_impl. intros z Hz. now apply (str_le_trans x y z).
    + assert (Le : str_le y x).
      { destruct (String.leb_total x y) as [H|H]; [congruence | exact H]. }
      constructor; [exact IH|].
      apply Forall_forall. intros z Hz.
      apply (Permutation_in _ (insert_perm _ x ys)) in Hz. destruct Hz as [<- | Hz].
      * exact Le.
      * rewrite Forall_forall in Hy. now apply Hy.
Qed.

Lemma sorted_str_le l : StronglySorted str_le (Py.sorted String.leb l).
Proof.
  induction l as [|x l IH]; simpl; [constructor|]. now apply insert_str_le.
Qed.

Lemma StronglySorted_filter {A} (R : A -> A -> Prop) (f : A -> bool) l :
  StronglySorted R l -> StronglySorted R (filter f l).
Proof.
  induction 1 as [|x l Hs IH Hx]; simpl; [constructor|].
  destruct (f x); [|exact IH]. constructor; [exact IH|].
  apply Forall_forall. intros y Hy. apply filter_In in Hy as [Hy _].
  rewrite Forall_forall in Hx. now apply Hx.
Qed.

Lemma enrich_loop_enriched enrichr r thr cs :
  Gsea.enrich_loop enrichr r thr cs
  = map (enriched enrichr r thr) (filter (has_markers r thr) cs).
Proof.
  induction cs as [|c cs IH]; simpl; [reflexivity|]. unfold has_markers.
  destruct (Gsea.degs r thr c) eqn:E; simpl; rewrite IH; [reflexivity|].
  unfold enriched at 2. now rewrite E.
Qed.

Lemma kept_rows_cluster cutoff res :
  Forall (fun x => Gsea.Cluster x = fst (fst res)) (kept_rows cutoff res).
Proof.
  unfold kept_rows. apply Forall_forall. intros x Hx.
  apply in_map_iff in Hx as (y & <- & _). reflexivity.
Qed.

Lemma StronglySorted_app {A} (R : A -> A -> Prop) l1 l2 :
  StronglySorted R l1 -> StronglySorted R l2 ->
  (forall a b, In a l1 -> In b l2 -> R a b) ->
  StronglySorted R (l1 ++ l2).
Proof.
  induction 1 as [|x l1 Hs IH Hx]; intros H2 H; simpl; [exact H2|].
  constructor.
  - apply IH; [exact H2|]. intros a b Ha Hb. apply H; [now right | exact Hb].
  - apply Forall_forall. intros y Hy. apply in_app_or in Hy as [Hy|Hy].
    + rewrite Forall_forall in Hx. now apply Hx.
    + apply H; [now left | exact Hy].
Qed.

Lemma StronglySorted_constant {A} (R : A -> A -> Prop) c l :
  R c c -> Forall (fun x => x = c) l -> StronglySorted R l.
Proof.
  intros Rc. induction 1 as [|x l -> F IH]; constructor; [exact IH|].
  revert F. apply Forall_impl. now intros y ->.
Qed.

Lemma str_le_refl a : str_le a a.
Proof. destruct (String.leb_total a a); assumption. Qed.

Lemma clusters_sorted cutoff (f : string -> string * list string * list Gsea.Row) cs :
  (forall c, fst (fst (f c)) = c) ->
  StronglySorted str_le cs ->
  StronglySorted str_le
    (map Gsea.Cluster (flat_map (fun c => kept_rows cutoff (f c)) cs)).
Proof.
  intros Hf. induction 1 as [|c cs Hs IH Hc]; simpl; [constructor|].
  rewrite map_app.
  assert (K : Forall (fun x => x = c) (map Gsea.Cluster (kept_rows cutoff (f c)))).
  { rewrite Forall_map. pose proof (kept_rows_cluster cutoff (f c)) as K.
    now rewrite Hf in K. }
  apply StronglySorted_app.
  - apply (StronglySorted_constant _ c); [apply str_le_refl | exact K].
  - exact IH.
  - intros a b Ha Hb. rewrite Forall_forall in K. rewrite (K a Ha).
    apply in_map_iff in Hb as (y & <- & Hy).
    apply in_flat_map in Hy as (d & Hd & Hy).
    pose proof (kept_rows_cluster cutoff (f d)) as Kd.
    rewrite Forall_forall in Kd. rewrite (Kd y Hy), Hf.
    rewrite Forall_forall in Hc. now apply Hc.
Qed.

(** X16. The table [runGSEAPY] returns is laid out cluster by cluster:
    the clusters that have markers are taken in the order of their labels
    as strings, each brings the rows at or below the cutoff in the order
    Enrichr gave them, so the [Cluster] column never decreases; one line
    is printed, in the same order, for each of these clusters that brings
    no row. *)
Theorem gsea_table_by_cluster enrichr labels (r : RankGenesGroups) cutoff thr :
  let out := Gsea.runGSEAPY enrichr labels r cutoff thr in
  let cs := filter (has_markers r thr) (Py.sorted String.leb (Py.unique labels)) in
  Gsea.df out = flat_map (fun c => kept_rows cutoff (enriched enrichr r thr c)) cs /\
  StronglySorted str_le cs /\
  StronglySorted str_le (map Gsea.Cluster (Gsea.df out)) /\
  Gsea.console out
  = map (Gsea.message cutoff)
        (filter (fun c => nothing_kept cutoff (enriched enrichr r thr c)) cs).
Proof.
  intros out cs.
  assert (S : StronglySorted str_le cs).
  { apply StronglySorted_filter, sorted_str_le. }
  assert (D : Gsea.df out = flat_map (fun c => kept_rows cutoff (enriched enrichr r thr c)) cs).
  { unfold out, Gsea.runGSEAPY. cbn [Gsea.df]. rewrite concat_loop_spec. cbn [fst app].
    rewrite enrich_loop_enriched. fold cs. now rewrite flat_map_concat_map, map_map,
      <- flat_map_concat_map. }
  repeat split; [exact D | exact S | |].
  - rewrite D. apply clusters_sorted; [reflexivity | exact S].
  - unfold out, Gsea.runGSEAPY. cbn [Gsea.console]. rewrite concat_loop_spec. cbn [snd app].
    rewrite enrich_loop_enriched. fold cs. clear S D.
    generalize cs. clear cs. intros cs.
    induction cs as [|c cs' IH]; simpl; [reflexivity|].
    fold (nothing_kept cutoff (enriched enrichr r thr c)).
    destruct (nothing_kept cutoff (enriched enrichr r thr c)); simpl; now rewrite IH.
Qed.

(** ** Cell types *)

Lemma no_space_uint d : has_space (NilEmpty.string_of_uint d) = false.
Proof. induction d; simpl; auto. Qed.

Lemma no_space_str_nat c : has_space (Py.str_nat c) = false.
Proof.
  unfold Py.str_nat, NilZero.string_of_uint.
  destruct (Nat.to_uint c) eqn:E; [reflexivity | ..]; apply no_space_uint.
Qed.

Lemma prefix_inj g : forall g' t t',
  has_space g = false -> has_space g' = false ->
  (g ++ " " ++ t)%string = (g' ++ " " ++ t')%string -> g = g'.
Proof.
  induction g as [|c g IH]; intros [|c' g'] t t' S S' E; simpl in *.
  - reflexivity.
  - injection E as Ec _. subst c'. discriminate.
  - injection E as Ec _. subst c. discriminate.
  - apply orb_false_iff in S as [_ S]. apply orb_false_iff in S' as [_ S'].
    injection E as Ec Et.
    f_equal; [exact Ec | exact (IH _ _ _ S S' Et)].
Qed.

Lemma cell_type_name_inj df a b : cell_type_name df a = cell_type_name df b -> a = b.
Proof.
  intros E. apply str_nat_inj.
  apply (prefix_inj _ _ _ _ (no_space_str_nat a) (no_space_str_nat b) E).
Qed.

Lemma filter_head_find {A} (f : A -> bool) l :
  match filter f l with [] => None | x :: _ => Some x end = find f l.
Proof.
  induction l as [|x l IH]; simpl; [reflexivity|]. now destruct (f x).
Qed.

Lemma cell_type_of_number df c :
  CellType.cell_type_of df (Py.str_nat c)
  = match find (fun row : Z * string => (fst row =? Z.of_nat c)%Z) df with
    | Some row => Ok (snd row)
    | None => Raise "IndexError"
    end.
Proof.
  unfold CellType.cell_type_of. rewrite int_str_nat.
  rewrite <- filter_head_find. now destruct (filter _ df).
Qed.

Lemma find_row df c t :
  In (Z.of_nat c, t) df ->
  exists row, find (fun row : Z * string => (fst row =? Z.of_nat c)%Z) df = Some row.
Proof.
  intros H. destruct (find _ df) as [row|] eqn:E; [now exists row|].
  pose proof (find_none _ _ E _ H) as N. simpl in N. rewrite Z.eqb_refl in N. discriminate.
Qed.

Lemma find_no_row df c :
  (forall t, ~ In (Z.of_nat c, t) df) ->
  find (fun row : Z * string => (fst row =? Z.of_nat c)%Z) df = None.
Proof.
  intros H. destruct (find _ df) as [[k t]|] eqn:E; [|reflexivity].
  apply find_some in E as [I K]. simpl in K. apply Z.eqb_eq in K. subst k.
  now destruct (H t).
Qed.

Lemma scMatch_cluster_names_found df cs :
  (forall c, In c cs -> exists t, In (Z.of_nat c, t) df) ->
  CellType.scMatch_cluster_names df (map Py.str_nat cs) = Ok (map (cell_type_name df) cs).
Proof.
  induction cs as [|c cs IH]; intros H; [reflexivity|].
  cbn [map CellType.scMatch_cluster_names]. rewrite cell_type_of_number.
  destruct (H c (or_introl eq_refl)) as (t & Ht).
  destruct (find_row df c t Ht) as (row & E).
  unfold cell_type_name at 1, reference_type. rewrite E. cbn [bind].
  rewrite IH; [reflexivity|]. intros c' Hc'. apply H. now right.
Qed.

Lemma scMatch_cluster_names_missing df cs c :
  In c cs -> (forall t, ~ In (Z.of_nat c, t) df) ->
  CellType.scMatch_cluster_names df (map Py.str_nat cs) = Raise "IndexError".
Proof.
  intros Hc N. induction cs as [|a cs IH]; [contradiction|].
  cbn [map CellType.scMatch_cluster_names]. rewrite cell_type_of_number.
  destruct (Nat.eq_dec a c) as [->|Ne].
  - now rewrite (find_no_row df c N).
  - destruct Hc as [Hc|Hc]; [contradiction|].
    destruct (find _ df); [|reflexivity]. cbn [bind]. now rewrite (IH Hc).
Qed.

Lemma mem_In x xs : Py.mem x xs = true <-> In x xs.
Proof.
  unfold Py.mem. rewrite existsb_exists. split.
  - intros (y & Hy & E). apply String.eqb_eq in E. now subst.
  - intros H. exists x. split; [exact H | apply String.eqb_refl].
Qed.

Lemma distinct_NoDup xs : NoDup xs -> CellType.distinct xs = true.
Proof.
  induction 1 as [|x xs N _ IH]; simpl; [reflexivity|]. rewrite IH, andb_true_r.
  apply negb_true_iff. destruct (Py.mem x xs) eqn:E; [|reflexivity].
  apply mem_In in E. contradiction.
Qed.

Lemma get_col_combine {V} (f : nat -> string) (g : nat -> V) cs c :
  (forall a b, f a = f b -> a = b) -> In c cs ->
  get_col (combine (map f cs) (map g cs)) (f c) = Ok (g c).
Proof.
  intros Hf. induction cs as [|a cs IH]; intros Hc; [contradiction|]. simpl.
  destruct (String.eqb_spec (f a) (f c)) as [E|N].
  - now rewrite (Hf _ _ E).
  - destruct Hc as [->|Hc]; [congruence | now apply IH].
Qed.

Lemma count_below m c :
  contiguous m -> (c < List.length (Py.unique (map Py.str_nat m)))%nat -> In c m.
Proof.
  intros Hm Hc.
  destruct (labels_are_numbers (Py.unique (map Py.str_nat m))) as [cs Ecs].
  { apply Forall_forall. intros l Hl. apply In_unique, in_map_iff in Hl.
    destruct Hl as (c' & <- & _). now exists c'. }
  assert (Dcs : NoDup cs).
  { apply (NoDup_map_inv Py.str_nat). rewrite <- Ecs. apply NoDup_unique. }
  assert (Mcs : forall c', In c' cs <-> In c' m).
  { intros c'. split; intros H.
    - assert (I : In (Py.str_nat c') (Py.unique (map Py.str_nat m))).
      { rewrite Ecs. now apply in_map. }
      apply In_unique, in_map_iff in I as (d & E & Hd).
      apply str_nat_inj in E. now subst.
    - assert (I : In (Py.str_nat c') (map Py.str_nat cs)).
      { rewrite <- Ecs. apply In_unique. now apply in_map. }
      apply in_map_iff in I as (d & E & Hd). apply str_nat_inj in E. now subst. }
  apply (contiguous_below m cs c Hm Dcs Mcs).
  rewrite Ecs, length_map in Hc. exact Hc.
Qed.

(** X17. With community numbers that leave no gap and a reference table
    that has a row for every community, lines 253-256 succeed and give
    every cell its community number, a space, and the type of the first
    row of the table for that community; the names of two different
    communities always differ, also when the reference gives them the
    same type. *)
Theorem cell_type_named (df : CellType.top_ann) m :
  contiguous m ->
  (forall c, In c m -> exists t, In (Z.of_nat c, t) df) ->
  exists groups,
    Annotation.groups_of (map Py.str_nat m) = Ok groups /\
    CellType.cell_type df groups (map Py.str_nat m) = Ok (map (cell_type_name df) m) /\
    (forall a b, cell_type_name df a = cell_type_name df b -> a = b).
Proof.
  intros Hm Hdf.
  set (k := List.length (Py.unique (map Py.str_nat m))).
  exists (map Py.str_nat (seq 0 k)). split; [now apply groups_of_contiguous|].
  split; [|apply cell_type_name_inj].
  unfold CellType.cell_type. rewrite scMatch_cluster_names_found.
  - cbn [bind]. unfold CellType.rename_categories.
    rewrite !length_map, Nat.eqb_refl, distinct_NoDup.
    + cbn [negb orb]. f_equal. rewrite map_map. apply map_ext_in. intros c Hc.
      rewrite (get_col_combine Py.str_nat (cell_type_name df));
        [reflexivity | apply str_nat_inj |].
      apply in_seq. pose proof (label_below_count m c Hm Hc). fold k in H. lia.
    + apply Injective_map_NoDup; [|apply seq_NoDup].
      intros a b. apply cell_type_name_inj.
  - intros c Hc. apply Hdf. apply in_seq in Hc. apply (count_below m c Hm). fold k. lia.
Qed.

Lemma cell_type_named_witness :
  exists groups,
    Annotation.groups_of ["1"; "0"; "1"] = Ok groups /\
    CellType.cell_type two_types groups ["1"; "0"; "1"]
    = Ok ["1 B cell"; "0 T cell"; "1 B cell"].
Proof.
  destruct (cell_type_named two_types [1; 0; 1]%nat) as (groups & G & E & _).
  - intros c c' Hc Hlt. simpl in *. lia.
  - intros c Hc. simpl in Hc.
    destruct Hc as [<- | [<- | [<- | []]]];
      [exists "B cell" | exists "T cell" | exists "B cell"]; simpl; auto.
  - exists groups. split; [exact G | exact E].
Defined.

(** X18. When the reference table has no row for one of the communities,
    line 254 takes the first element of an empty list: the run ends with
    an [IndexError] and no cell type is written. *)
Theorem cell_type_missing_row (df : CellType.top_ann) m c :
  contiguous m -> In c m ->
  (forall t, ~ In (Z.of_nat c, t) df) ->
  exists groups,
    Annotation.groups_of (map Py.str_nat m) = Ok groups /\
    CellType.cell_type df groups (map Py.str_nat m) = Raise "IndexError".
Proof.
  intros Hm Hc N.
  set (k := List.length (Py.unique (map Py.str_nat m))).
  exists (map Py.str_nat (seq 0 k)). split; [now apply groups_of_contiguous|].
  unfold CellType.cell_type.
  rewrite (scMatch_cluster_names_missing df (seq 0 k) c); [reflexivity | | exact N].
  apply in_seq. pose proof (label_below_count m c Hm Hc). fold k in H. lia.
Qed.

Lemma cell_type_missing_row_witness :
  exists groups,
    Annotation.groups_of ["1"; "0"; "2"] = Ok groups /\
    CellType.cell_type two_types groups ["1"; "0"; "2"] = Raise "IndexError".
Proof.
  apply (cell_type_missing_row two_types [1; 0; 2]%nat 2%nat).
  - intros c c' Hc Hlt. simpl in *. lia.
  - simpl. auto.
  - intros t H. simpl in H. destruct H as [H | [H | [H | []]]]; discriminate.
Defined.
